(** * libpussy: the bitmap page allocator and its adaptors

    A shallow embedding of the bitmap allocator of [src/allocator_pet.c],
    of the debug adaptor and of the alignment helpers of [allocator.h],
    together with the properties of the specification that are stated
    about them.

    Conventions.
    - [unsigned] values are [Z] with the wrap-around written [u32];
      a [Word] is a [Z] in [0, 2^64) (the default 64-bit configuration).
    - Pointers are [Z] byte addresses, [nullptr] is [0].
    - Memory is a total map from byte addresses to byte values; words are
      little endian.  Access faults are not modelled.
    - Loops whose trip count depends on run-time data carry fuel and
      return [None] when it runs out.
    - The non-DEBUG build is modelled ([TRACE] and the [#ifdef DEBUG]
      blocks compile to nothing); the mutex is not modelled, the
      embedding is sequential. *)

From Stdlib Require Import ZArith List Lia Bool String.
Import ListNotations.
Local Open Scope Z_scope.

(** ** Machine integers *)

Definition UINT_MAX : Z := 2 ^ 32 - 1.
Definition u32 (x : Z) : Z := x mod 2 ^ 32.

Definition WORD_WIDTH : Z := 64.
Definition WORD_MAX : Z := 2 ^ 64 - 1.
Definition UNIT_SIZE : Z := 16.
Definition sizeof_Word : Z := 8.

(** [~w] on a [Word]. *)
Definition wnot (w : Z) : Z := Z.land (Z.lnot w) WORD_MAX.

(** [__builtin_ctzl]: index of the lowest set bit.  The intrinsic is
    undefined on [0]; the source never calls it there. *)
Fixpoint ctz_from (fuel : nat) (w acc : Z) : Z :=
  match fuel with
  | O => acc
  | S fuel' => if Z.odd w then acc else ctz_from fuel' (Z.shiftr w 1) (acc + 1)
  end.

Definition count_trailing_zeros (value : Z) : Z := ctz_from 64 value 0.

(** ** allocator.h: alignment helpers *)

Definition align_unsigned (n alignment : Z) : Z :=
  if 1 <? alignment then
    let alignment := u32 (alignment - 1) in
    Z.land (u32 (n + alignment)) (Z.land (Z.lnot alignment) UINT_MAX)
  else n.

Definition bytes_to_units (nbytes : Z) : Z :=
  align_unsigned nbytes UNIT_SIZE / UNIT_SIZE.

(** ** Memory

    One byte per address; a load reduces the stored value to a byte. *)

Definition Mem : Type := Z -> Z.

Definition load_byte (m : Mem) (a : Z) : Z := m a mod 256.

Definition store_byte (m : Mem) (a v : Z) : Mem :=
  fun x => if x =? a then v mod 256 else m x.

(** A [Word] or pointer, little endian. *)
Definition load_word (m : Mem) (a : Z) : Z :=
  load_byte m a + 2 ^ 8 * load_byte m (a + 1) + 2 ^ 16 * load_byte m (a + 2)
  + 2 ^ 24 * load_byte m (a + 3) + 2 ^ 32 * load_byte m (a + 4)
  + 2 ^ 40 * load_byte m (a + 5) + 2 ^ 48 * load_byte m (a + 6)
  + 2 ^ 56 * load_byte m (a + 7).

Definition store_word (m : Mem) (a w : Z) : Mem :=
  fun x => if (a <=? x) && (x <? a + 8)
           then Z.shiftr w (8 * (x - a)) mod 256 else m x.

(** [memset(dst, v, n)] and [memcpy(dst, src, n)]; the copy reads the
    memory as it was before the call. *)
Definition memset (m : Mem) (dst v n : Z) : Mem :=
  fun x => if (dst <=? x) && (x <? dst + n) then v mod 256 else m x.

Definition memcpy (m : Mem) (dst src n : Z) : Mem :=
  fun x => if (dst <=? x) && (x <? dst + n) then m (src + (x - dst)) else m x.

(** [Word] arithmetic. *)
Definition wshl (w n : Z) : Z := Z.shiftl w n mod 2 ^ 64.
Definition u64 (x : Z) : Z := x mod 2 ^ 64.

(** Results of the stateful code: a value and the new state, the process
    terminated ([abort()] or [exit(1)]), or a loop of the model out of
    fuel. *)
Inductive outcome (S A : Type) : Type :=
| Ret (a : A) (s : S)
| Aborted (s : S)
| OutOfFuel.
Arguments Ret {S A} a s.
Arguments Aborted {S A} s.
Arguments OutOfFuel {S A}.

Definition bind {S A B} (x : outcome S A) (f : A -> S -> outcome S B) : outcome S B :=
  match x with
  | Ret a s => f a s
  | Aborted s => Aborted s
  | OutOfFuel => OutOfFuel
  end.

Definition lift {S A} (x : option A) (s : S) : outcome S A :=
  match x with
  | Some a => Ret a s
  | None => OutOfFuel
  end.

(** The value and the state of a run that returned ([d] otherwise). *)
Definition value_of {S A} (x : outcome S A) (d : A) : A :=
  match x with
  | Ret a _ => a
  | _ => d
  end.

Definition state_of {S A} (x : outcome S A) (d : S) : S :=
  match x with
  | Ret _ s => s
  | _ => d
  end.

Notation "'dolet' x , s <- c ;; k" := (bind c (fun x s => k))
  (at level 10, x name, s name, c at level 100, k at level 200, only parsing).

Definition store_u32 (m : Mem) (a v : Z) : Mem :=
  fun x => if (a <=? x) && (x <? a + 4)
           then Z.shiftr v (8 * (x - a)) mod 256 else m x.

(** ** The bitmap allocator, [allocator_pet.c] *)

Module Pet.

(** ** Bitmap primitives

    A page bitmap is read through [bm : Z -> Z], [bm i] being
    [bm_page->bitmap[i]]. *)

Section Allocator.

(** [sys_page_size], set by [init_allocator] from [sysconf]. *)
Variable sys_page_size : Z.

Definition align_unsigned_to_page (n : Z) : Z := align_unsigned n sys_page_size.

(** The parameters computed by [_init]. *)
Definition offsetof_bitmap : Z := 24.
Definition units_per_page : Z := sys_page_size / UNIT_SIZE.
Definition bm_page_header_size_in_units : Z :=
  (offsetof_bitmap + units_per_page / 8 + UNIT_SIZE - 1) / UNIT_SIZE.
Definition max_data_units : Z := u32 (units_per_page - bm_page_header_size_in_units).

Definition bitmap_words : Z := units_per_page / WORD_WIDTH.
Definition word_fuel : nat := S (Z.to_nat bitmap_words).

(** Bit [i] of the bitmap. *)
Definition bm_bit (bm : Z -> Z) (i : Z) : bool :=
  Z.testbit (bm (i / WORD_WIDTH)) (i mod WORD_WIDTH).

(** The [while (offset < units_per_page && count < limit)] loop of
    [count_zero_bits]. *)
Fixpoint count_zero_words (fuel : nat) (bm : Z -> Z) (ptr offset count limit : Z)
  : option Z :=
  match fuel with
  | O => None
  | S fuel' =>
    if (offset <? units_per_page) && (count <? limit) then
      let w := bm ptr in
      if negb (w =? 0) then Some (u32 (count + count_trailing_zeros w))
      else count_zero_words fuel' bm (ptr + 1)
             (u32 (offset + WORD_WIDTH)) (u32 (count + WORD_WIDTH)) limit
    else Some count
  end.

Definition count_zero_bits (bm : Z -> Z) (offset limit : Z) : option Z :=
  let ptr := offset / WORD_WIDTH in
  let bit_index := Z.land offset (WORD_WIDTH - 1) in
  if negb (bit_index =? 0) then
    let w := Z.shiftr (bm ptr) bit_index in
    if negb (w =? 0) then Some (count_trailing_zeros w)
    else
      let count := WORD_WIDTH - bit_index in
      count_zero_words word_fuel bm (ptr + 1) (u32 (offset + count)) count limit
  else count_zero_words word_fuel bm ptr offset 0 limit.

(** [count_nonzero_bits]: the same code on the inverted words. *)
Fixpoint count_nonzero_words (fuel : nat) (bm : Z -> Z) (ptr offset count limit : Z)
  : option Z :=
  match fuel with
  | O => None
  | S fuel' =>
    if (offset <? units_per_page) && (count <? limit) then
      let w := wnot (bm ptr) in
      if negb (w =? 0) then Some (u32 (count + count_trailing_zeros w))
      else count_nonzero_words fuel' bm (ptr + 1)
             (u32 (offset + WORD_WIDTH)) (u32 (count + WORD_WIDTH)) limit
    else Some count
  end.

Definition count_nonzero_bits (bm : Z -> Z) (offset limit : Z) : option Z :=
  let ptr := offset / WORD_WIDTH in
  let bit_index := Z.land offset (WORD_WIDTH - 1) in
  if negb (bit_index =? 0) then
    let w := Z.shiftr (wnot (bm ptr)) bit_index in
    if negb (w =? 0) then Some (count_trailing_zeros w)
    else
      let count := WORD_WIDTH - bit_index in
      count_nonzero_words word_fuel bm (ptr + 1) (u32 (offset + count)) count limit
  else count_nonzero_words word_fuel bm ptr offset 0 limit.

(** [find_free_block]: [0] is the not-found sentinel. *)
Fixpoint find_free_block_loop (fuel : nat) (bm : Z -> Z) (block_size offset : Z)
  : option Z :=
  match fuel with
  | O => None
  | S fuel' =>
    if offset <? units_per_page then
      match count_zero_bits bm offset block_size with
      | None => None
      | Some length =>
        if block_size <=? length then Some offset
        else
          let offset := u32 (offset + length) in
          match count_nonzero_bits bm offset UINT_MAX with
          | None => None
          | Some length' =>
            find_free_block_loop fuel' bm block_size (u32 (offset + length'))
          end
      end
    else Some 0
  end.

Definition scan_fuel : nat := S (Z.to_nat units_per_page).

Definition find_free_block (bm : Z -> Z) (block_size : Z) : option Z :=
  find_free_block_loop scan_fuel bm block_size bm_page_header_size_in_units.

(** [find_longest_free_block]. *)
Fixpoint find_longest_free_block_loop (fuel : nat) (bm : Z -> Z) (offset n lfb : Z)
  : option Z :=
  match fuel with
  | O => None
  | S fuel' =>
    if negb (n =? 0) then
      match count_zero_bits bm offset n with
      | None => None
      | Some length =>
        let lfb := if lfb <? length then length else lfb in
        let offset := u32 (offset + length) in
        let n := u32 (n - length) in
        match count_nonzero_bits bm offset n with
        | None => None
        | Some length' =>
          find_longest_free_block_loop fuel' bm
            (u32 (offset + length')) (u32 (n - length')) lfb
        end
      end
    else Some lfb
  end.

Definition find_longest_free_block (bm : Z -> Z) : option Z :=
  find_longest_free_block_loop scan_fuel bm
    bm_page_header_size_in_units max_data_units 0.

(** *** Memory cleaning *)

(** [for (unsigned i = 0; i < nbytes; i++) { *byteptr++ = 0; length--; }] *)
Fixpoint cleanse_leading (n : nat) (m : Mem) (byteptr length : Z) : Mem * Z * Z :=
  match n with
  | O => (m, byteptr, length)
  | S n' => cleanse_leading n' (store_byte m byteptr 0) (byteptr + 1) (u32 (length - 1))
  end.

(** [while (length >= sizeof(Word)) { *wordptr++ = 0; length -= sizeof(Word); }] *)
Fixpoint cleanse_words (fuel : nat) (m : Mem) (wordptr length : Z)
  : option (Mem * Z * Z) :=
  match fuel with
  | O => None
  | S fuel' =>
    if sizeof_Word <=? length then
      cleanse_words fuel' (store_word m wordptr 0) (wordptr + sizeof_Word)
        (u32 (length - sizeof_Word))
    else Some (m, wordptr, length)
  end.

(** [while (length--) { *byteptr++ = 0; }] *)
Fixpoint cleanse_remaining (fuel : nat) (m : Mem) (byteptr length : Z) : option Mem :=
  match fuel with
  | O => None
  | S fuel' =>
    if negb (length =? 0) then
      cleanse_remaining fuel' (store_byte m byteptr 0) (byteptr + 1) (u32 (length - 1))
    else Some m
  end.

Definition cleanse (m : Mem) (addr start end_ : Z) : option Mem :=
  let length := u32 (end_ - start) in
  let byteptr := addr + start in
  let nbytes := Z.land start (sizeof_Word - 1) in
  let '(m, byteptr, length) :=
    if negb (nbytes =? 0) then
      let nbytes := sizeof_Word - nbytes in
      let nbytes := if length <? nbytes then length else nbytes in
      cleanse_leading (Z.to_nat nbytes) m byteptr length
    else (m, byteptr, length) in
  match cleanse_words (S (Z.to_nat length)) m byteptr length with
  | None => None
  | Some (m, wordptr, length) =>
    if negb (length =? 0) then cleanse_remaining (S (Z.to_nat length)) m wordptr length
    else Some m
  end.

(** *** Allocator state *)

Record State : Type := mkState {
  mem : Mem;
  mapped : list Z;          (* base addresses of the OS pages now mapped *)
  superblock : Z;           (* [BmPageHeader** superblock] *)
  blocks_allocated : Z;     (* [stats.blocks_allocated] *)
  num_bm_pages : Z;
  err_log : list string     (* what [ERR] printed, newest first *)
}.

Definition set_mem (s : State) (m : Mem) : State :=
  mkState m (mapped s) (superblock s) (blocks_allocated s) (num_bm_pages s) (err_log s).

Definition set_mapped (s : State) (l : list Z) : State :=
  mkState (mem s) l (superblock s) (blocks_allocated s) (num_bm_pages s) (err_log s).

Definition add_blocks_allocated (s : State) (d : Z) : State :=
  mkState (mem s) (mapped s) (superblock s) (u64 (blocks_allocated s + d))
          (num_bm_pages s) (err_log s).

Definition add_num_bm_pages (s : State) (d : Z) : State :=
  mkState (mem s) (mapped s) (superblock s) (blocks_allocated s)
          (u64 (num_bm_pages s + d)) (err_log s).

Definition ERR (s : State) (msg : string) : State :=
  mkState (mem s) (mapped s) (superblock s) (blocks_allocated s) (num_bm_pages s)
          (msg :: err_log s).

(** *** mmap/mremap/munmap wrappers

    The kernel chooses the addresses: [os_mmap mapped size] is the result
    of [mmap] ([None] for [MAP_FAILED]) and [os_mremap mapped addr
    old_size new_size may_move] that of [mremap]; [os_munmap mapped addr
    size] tells whether [munmap] succeeds ([false] for [-1]).  The
    contents of fresh pages are left as the memory has them, the wrappers
    do not count on them being zero. *)

Variable os_mmap : list Z -> Z -> option Z.
Variable os_mremap : list Z -> Z -> Z -> Z -> bool -> option Z.
Variable os_munmap : list Z -> Z -> Z -> bool.

Definition pages_of (addr size : Z) : list Z :=
  map (fun i => addr + Z.of_nat i * sys_page_size)
      (seq 0 (Z.to_nat ((size + sys_page_size - 1) / sys_page_size))).

Definition in_range (addr size x : Z) : bool := (addr <=? x) && (x <? addr + size).

Definition unmap_pages (l : list Z) (addr size : Z) : list Z :=
  filter (fun p => negb (in_range addr size p)) l.

Definition call_mmap (s : State) (size : Z) (clean : bool) : outcome State Z :=
  match os_mmap (mapped s) size with
  | None => Ret 0 (ERR s "mmap: %s")
  | Some result =>
    let s := set_mapped s (pages_of result size ++ mapped s) in
    if clean then
      dolet m, s <- lift (cleanse (mem s) result 0 size) s ;;
      Ret result (set_mem s m)
    else Ret result s
  end.

Definition call_munmap (s : State) (addr size : Z) : State :=
  if os_munmap (mapped s) addr size
  then set_mapped s (unmap_pages (mapped s) addr size)
  else ERR s "munmap(%p, %u): %s".

Definition call_mremap (s : State) (addr old_nbytes new_nbytes : Z) (clean : bool)
  : outcome State Z :=
  let old_size := align_unsigned_to_page old_nbytes in
  let new_size := align_unsigned_to_page new_nbytes in
  if new_size =? old_size then
    if clean && (old_nbytes <? new_nbytes) then
      dolet m, s <- lift (cleanse (mem s) addr old_nbytes new_nbytes) s ;;
      Ret addr (set_mem s m)
    else Ret addr s
  else
    let may_move := old_size <? new_size in
    let clean := if may_move then clean else false in
    match os_mremap (mapped s) addr old_size new_size may_move with
    | None =>
      let s := ERR s "mremap(%p, %u, %u): %s" in
      if old_size <? new_size then Ret 0 s else Ret addr s
    | Some new_addr =>
      let m := if new_addr =? addr then mem s
               else memcpy (mem s) new_addr addr (Z.min old_size new_size) in
      let s := set_mem s m in
      let s := set_mapped s (pages_of new_addr new_size
                              ++ unmap_pages (mapped s) addr old_size) in
      if clean then
        dolet m, s <- lift (cleanse (mem s) new_addr old_nbytes new_nbytes) s ;;
        Ret new_addr (set_mem s m)
      else Ret new_addr s
    end.

(** *** Bitmap pages and the superblock

    [BmPageHeader]: [list] at offset 0, [next] at 8, [prev] at 16, the
    bitmap words from [offsetof_bitmap] on. *)

Definition get_list (m : Mem) (bm_page : Z) : Z := load_word m bm_page.
Definition get_next (m : Mem) (bm_page : Z) : Z := load_word m (bm_page + 8).
Definition get_prev (m : Mem) (bm_page : Z) : Z := load_word m (bm_page + 16).
Definition set_list (m : Mem) (bm_page v : Z) : Mem := store_word m bm_page v.
Definition set_next (m : Mem) (bm_page v : Z) : Mem := store_word m (bm_page + 8) v.
Definition set_prev (m : Mem) (bm_page v : Z) : Mem := store_word m (bm_page + 16) v.

(** [&bm_page->bitmap[i]] and the bitmap as the primitives read it. *)
Definition bitmap_addr (bm_page i : Z) : Z := bm_page + offsetof_bitmap + 8 * i.
Definition bitmap_of (m : Mem) (bm_page : Z) : Z -> Z :=
  fun i => load_word m (bitmap_addr bm_page i).

(** [superblock + lfb]. *)
Definition slot (s : State) (lfb : Z) : Z := superblock s + 8 * lfb.

(** [while (length >= WORD_WIDTH) { *ptr++ = v; length -= WORD_WIDTH; }] *)
Fixpoint fill_words (fuel : nat) (v : Z) (m : Mem) (ptr length : Z)
  : option (Mem * Z * Z) :=
  match fuel with
  | O => None
  | S fuel' =>
    if WORD_WIDTH <=? length then
      fill_words fuel' v (store_word m ptr v) (ptr + 8) (u32 (length - WORD_WIDTH))
    else Some (m, ptr, length)
  end.

Definition set_bits (m : Mem) (bm_page offset length : Z) : option Mem :=
  let ptr := bitmap_addr bm_page (offset / WORD_WIDTH) in
  let bit_index := Z.land offset (WORD_WIDTH - 1) in
  let '(m, ptr, length) :=
    if negb (bit_index =? 0) then
      let bitmask := WORD_MAX in
      let num_bits := WORD_WIDTH - bit_index in
      let '(bitmask, num_bits) :=
        if length <=? num_bits
        then (Z.land bitmask (u64 (wshl 1 length - 1)), length)
        else (bitmask, num_bits) in
      let bitmask := wshl bitmask bit_index in
      (store_word m ptr (Z.lor (load_word m ptr) bitmask), ptr + 8,
       u32 (length - num_bits))
    else (m, ptr, length) in
  match fill_words (S (Z.to_nat length)) WORD_MAX m ptr length with
  | None => None
  | Some (m, ptr, length) =>
    if negb (length =? 0)
    then Some (store_word m ptr (Z.lor (load_word m ptr) (u64 (wshl 1 length - 1))))
    else Some m
  end.

Definition clear_bits (m : Mem) (bm_page offset length : Z) : option Mem :=
  let ptr := bitmap_addr bm_page (offset / WORD_WIDTH) in
  let bit_index := Z.land offset (WORD_WIDTH - 1) in
  let '(m, ptr, length) :=
    if negb (bit_index =? 0) then
      let bitmask := WORD_MAX in
      let num_bits := WORD_WIDTH - bit_index in
      let '(bitmask, num_bits) :=
        if length <=? num_bits
        then (Z.land bitmask (u64 (wshl 1 length - 1)), length)
        else (bitmask, num_bits) in
      let bitmask := wshl bitmask bit_index in
      (store_word m ptr (Z.land (load_word m ptr) (wnot bitmask)), ptr + 8,
       u32 (length - num_bits))
    else (m, ptr, length) in
  match fill_words (S (Z.to_nat length)) 0 m ptr length with
  | None => None
  | Some (m, ptr, length) =>
    if negb (length =? 0)
    then Some (store_word m ptr
                 (Z.land (load_word m ptr) (wnot (u64 (wshl 1 length - 1)))))
    else Some m
  end.

Definition add_to_superblock_entry (s : State) (bm_page lfb : Z) : State :=
  let m := mem s in
  let first := load_word m (slot s lfb) in
  let m :=
    if negb (first =? 0) then
      (* add to the end of list *)
      let m := set_prev m bm_page (get_prev m first) in
      let m := set_next m bm_page first in
      let m := set_next m (get_prev m first) bm_page in
      set_prev m first bm_page
    else
      (* init list *)
      let m := set_prev m bm_page bm_page in
      let m := set_next m bm_page bm_page in
      store_word m (slot s lfb) bm_page in
  set_mem s (set_list m bm_page (slot s lfb)).

Definition add_to_superblock (s : State) (bm_page : Z) : outcome State unit :=
  dolet lfb, s <- lift (find_longest_free_block (bitmap_of (mem s) bm_page)) s ;;
  Ret tt (add_to_superblock_entry s bm_page lfb).

Definition delete_from_list (s : State) (bm_page : Z) : State :=
  let m := mem s in
  let list := get_list m bm_page in
  if get_next m bm_page =? get_prev m bm_page then
    (* last page, make list empty *)
    set_mem s (store_word m list 0)
  else
    let m := if load_word m list =? bm_page
             then store_word m list (get_next m bm_page) else m in
    let m := set_prev m (get_next m bm_page) (get_prev m bm_page) in
    let m := set_next m (get_prev m bm_page) (get_next m bm_page) in
    set_mem s m.

Definition grab_superblock_page (s : State) (bm_page : Z) : State :=
  delete_from_list s bm_page.

Definition bm_page_from_addr (addr : Z) : Z :=
  Z.land addr (Z.lnot (sys_page_size - 1)).

Definition ptrdiff_to_units (addr bm_page : Z) : Z :=
  u32 ((addr - bm_page) / UNIT_SIZE).

(** [for (; lfb <= max_data_units; lfb++)] over the slots from
    [superblock + num_units]. *)
Fixpoint find_available_page_loop (n : nat) (s : State) (list : Z) : Z * State :=
  match n with
  | O => (0, s)
  | S n' =>
    let bm_page := load_word (mem s) list in
    if negb (bm_page =? 0) then (bm_page, delete_from_list s bm_page)
    else find_available_page_loop n' s (list + 8)
  end.

Definition find_available_page (s : State) (num_units : Z) : Z * State :=
  find_available_page_loop (Z.to_nat (max_data_units + 1 - num_units)) s
    (slot s num_units).

(** [for (i = 0, n = units_per_page / WORD_WIDTH; i < n; i++) *ptr++ = 0;] *)
Fixpoint clean_bitmap (n : nat) (m : Mem) (ptr : Z) : Mem :=
  match n with
  | O => m
  | S n' => clean_bitmap n' (store_word m ptr 0) (ptr + 8)
  end.

Definition bm_allocate (s : State) (num_units : Z) (clean : bool) : outcome State Z :=
  let out (result : Z) (s : State) : outcome State Z :=
    let s := if negb (result =? 0) then add_blocks_allocated s 1 else s in
    if negb (result =? 0) && clean then
      dolet m, s <- lift (cleanse (mem s) result 0 (u32 (num_units * UNIT_SIZE))) s ;;
      Ret result (set_mem s m)
    else Ret result s in
  let '(bm_page, s) := find_available_page s num_units in
  if negb (bm_page =? 0) then
    (* allocate *)
    dolet offset, s <- lift (find_free_block (bitmap_of (mem s) bm_page) num_units) s ;;
    if offset =? 0 then
      Aborted (ERR s "bm_page %p with LFB=%u must contain enough free space for %u units")
    else
      dolet m, s <- lift (set_bits (mem s) bm_page offset num_units) s ;;
      dolet _, s <- add_to_superblock (set_mem s m) bm_page ;;
      out (bm_page + u32 (offset * UNIT_SIZE)) s
  else
    dolet bm_page, s <- call_mmap s sys_page_size false ;;
    if bm_page =? 0 then out 0 s
    else
      (* clean bitmap *)
      let m := clean_bitmap (Z.to_nat (units_per_page / WORD_WIDTH)) (mem s)
                 (bitmap_addr bm_page 0) in
      (* mark reserved units and allocate units *)
      dolet m, s <- lift (set_bits m bm_page 0 (u32 (bm_page_header_size_in_units + num_units))) s ;;
      (* add page to the superblock *)
      let s := add_to_superblock_entry (set_mem s m) bm_page
                 (u32 (max_data_units - num_units)) in
      let s := add_num_bm_pages s 1 in
      out (bm_page + u32 (bm_page_header_size_in_units * UNIT_SIZE)) s.

Definition bm_shrink (s : State) (bm_page offset old_num_units new_num_units : Z)
  : outcome State unit :=
  let s := grab_superblock_page s bm_page in
  let tail_units := u32 (old_num_units - new_num_units) in
  dolet m, s <- lift (clear_bits (mem s) bm_page (u32 (offset + new_num_units)) tail_units) s ;;
  add_to_superblock (set_mem s m) bm_page.

Definition bm_grow (s : State) (bm_page offset old_num_units new_num_units : Z)
  : outcome State bool :=
  let s := grab_superblock_page s bm_page in
  let increment := u32 (new_num_units - old_num_units) in
  dolet length, s <- lift (count_zero_bits (bitmap_of (mem s) bm_page)
                    (u32 (offset + old_num_units)) increment) s ;;
  if length <? increment then
    (* [mtx_unlock(&lock); return false;] *)
    Ret false s
  else
    dolet m, s <- lift (set_bits (mem s) bm_page (u32 (offset + old_num_units)) increment) s ;;
    dolet _, s <- add_to_superblock (set_mem s m) bm_page ;;
    Ret true s.

Definition bm_release (s : State) (bm_page offset num_units : Z) : outcome State unit :=
  let s := grab_superblock_page s bm_page in
  dolet m, s <- lift (clear_bits (mem s) bm_page offset num_units) s ;;
  let s := set_mem s m in
  dolet lfb, s <- lift (find_longest_free_block (bitmap_of (mem s) bm_page)) s ;;
  let s :=
    if lfb <? max_data_units then add_to_superblock_entry s bm_page lfb
    else add_num_bm_pages (call_munmap s bm_page sys_page_size) (-1) in
  Ret tt (add_blocks_allocated s (-1)).

(** *** Allocator interface functions *)

(** [_init], from a process that has nothing mapped. *)
Definition _init (m : Mem) : outcome State unit :=
  let s := mkState m [] 0 0 0 [] in
  dolet sb, s <- call_mmap s sys_page_size true ;;
  if sb =? 0 then Aborted s
  else Ret tt (mkState (mem s) (mapped s) sb (blocks_allocated s) (num_bm_pages s)
                 (err_log s)).

Definition _allocate (s : State) (nbytes : Z) (clean : bool) : outcome State Z :=
  if nbytes =? 0 then Ret 0 s
  else
    let num_units := bytes_to_units nbytes in
    if num_units <? max_data_units then
      (* use bitmap sub-allocator for smaller blocks *)
      bm_allocate s num_units clean
    else
      (* allocate pages directly *)
      dolet result, s <- call_mmap s (align_unsigned_to_page nbytes) clean ;;
      Ret result (if negb (result =? 0) then add_blocks_allocated s 1 else s).

(** [_release(&addr, nbytes)]: the value is what [*addr_ptr] holds on
    return. *)
Definition _release (s : State) (addr nbytes : Z) : outcome State Z :=
  if addr =? 0 then Ret addr s
  else if nbytes =? 0 then Aborted (ERR s "called for %p with zero nbytes")
  else
    let bm_page := bm_page_from_addr addr in
    if addr =? bm_page then
      let s := call_munmap s addr (align_unsigned_to_page nbytes) in
      Ret 0 (add_blocks_allocated s (-1))
    else
      dolet _, s <- bm_release s bm_page (ptrdiff_to_units addr bm_page) (bytes_to_units nbytes) ;;
      Ret 0 s.

(** What [_reallocate] hands back: its return value, [*addr_ptr] and
    [*addr_changed] on return. *)
Record Realloc : Type := mkRealloc {
  ok : bool;
  addr_out : Z;
  addr_changed : bool
}.

Definition success_changed_addr (a : Z) (s : State) : outcome State Realloc :=
  Ret (mkRealloc true a true) s.
Definition success_same_addr (a : Z) (s : State) : outcome State Realloc :=
  Ret (mkRealloc true a false) s.
Definition error (a : Z) (s : State) : outcome State Realloc :=
  Ret (mkRealloc false a false) s.

Definition _reallocate (s : State) (addr_in old_nbytes new_nbytes : Z) (clean : bool)
  : outcome State Realloc :=
  if old_nbytes =? new_nbytes then success_same_addr addr_in s
  else
  let addr := addr_in in
  (* shall we allocate new addr? *)
  if addr =? 0 then
    if negb (old_nbytes =? 0) then error addr_in s
    else
      dolet addr, s <- _allocate s new_nbytes clean ;;
      if addr =? 0 then error addr_in s
      else success_changed_addr addr s
  else
  if Z.lor old_nbytes new_nbytes =? 0 then
    let s := if old_nbytes =? 0 then ERR s "called for %p with zero old_nbytes" else s in
    let s := if new_nbytes =? 0 then ERR s "called for %p with zero new_nbytes" else s in
    error addr_in s
  else
  let new_num_units := bytes_to_units new_nbytes in
  let old_num_units := bytes_to_units old_nbytes in
  if new_num_units =? old_num_units then
    if clean && (old_nbytes <? new_nbytes) then
      dolet m, s <- lift (cleanse (mem s) addr old_nbytes new_nbytes) s ;;
      success_same_addr addr_in (set_mem s m)
    else success_same_addr addr_in s
  else
  let bm_page := bm_page_from_addr addr in
  let remap (s : State) : outcome State Realloc :=
    dolet _, s <- call_mremap s addr old_nbytes new_nbytes false ;;
    success_same_addr addr_in s in
  (* shall we shrink? *)
  if new_num_units <? old_num_units then
    if new_num_units <? max_data_units then
      (* new block will use bitmap sub-allocator *)
      if old_num_units <? max_data_units then
        (* shrink using bitmap sub-allocator *)
        if addr =? bm_page then
          Aborted (ERR s "address %p is not within data area")
        else
          dolet _, s <- bm_shrink s bm_page (ptrdiff_to_units addr bm_page)
                 old_num_units new_num_units ;;
          success_same_addr addr_in s
      else
        (* shrinking block from page allocator to bitmap sub-allocator *)
        if negb (addr =? bm_page) then
          Aborted (ERR s "address %p is not aligned on page boundary")
        else
          dolet new_block, s <- bm_allocate s new_num_units false ;;
          if new_block =? 0 then remap s
          else
            let s := set_mem s (memcpy (mem s) new_block addr new_nbytes) in
            dolet _, s <- bm_release s bm_page (ptrdiff_to_units addr bm_page) new_num_units ;;
            success_changed_addr new_block s
    else
      (* shrink using mremap *)
      if negb (addr =? bm_page) then
        Aborted (ERR s "address %p is not aligned on page boundary")
      else remap s
  else
  (* grow *)
  if old_num_units <? max_data_units then
    let reallocate_block (s : State) : outcome State Realloc :=
      dolet new_block, s <- _allocate s new_nbytes false ;;
      if new_block =? 0 then error addr_in s
      else
        let s := set_mem s (memcpy (mem s) new_block addr old_nbytes) in
        dolet addr, s <- _release s addr old_nbytes ;;
        dolet m, s <- lift (if clean then cleanse (mem s) new_block old_nbytes new_nbytes
                   else Some (mem s)) s ;;
        Ret (mkRealloc true new_block (negb (new_block =? addr))) (set_mem s m) in
    if new_num_units <? max_data_units then
      (* grow using bitmap sub-allocator *)
      if addr =? bm_page then
        Aborted (ERR s "address %p is not within data area")
      else
        (* try to grow within the same page *)
        dolet grown, s <- bm_grow s bm_page (ptrdiff_to_units addr bm_page)
                   old_num_units new_num_units ;;
        if grown : bool then
          dolet m, s <- lift (if clean then cleanse (mem s) addr old_nbytes new_nbytes
                     else Some (mem s)) s ;;
          success_same_addr addr_in (set_mem s m)
        else reallocate_block s
    else reallocate_block s
  else
    (* grow using mremap *)
    if negb (addr =? bm_page) then
      Aborted (ERR s "address %p is not aligned on page boundary")
    else
      dolet new_addr, s <- call_mremap s addr old_nbytes new_nbytes clean ;;
      if new_addr =? 0 then error addr_in s
      else Ret (mkRealloc true new_addr (negb (new_addr =? addr))) s.

(** *** A view of the superblock: what [dump] walks

    The pages reached from [superblock[k]] by following [next] until the
    first page comes round again ([fuel] bounds the walk). *)
Fixpoint walk_list (fuel : nat) (m : Mem) (first bm_page : Z) : list Z :=
  match fuel with
  | O => []
  | S fuel' =>
    bm_page ::
      (let next := get_next m bm_page in
       if next =? first then [] else walk_list fuel' m first next)
  end.

Definition bucket_pages (fuel : nat) (s : State) (k : Z) : list Z :=
  let first_page := load_word (mem s) (slot s k) in
  if first_page =? 0 then [] else walk_list fuel (mem s) first_page first_page.

End Allocator.

End Pet.

(** ** The debug adaptor

    Every block sits in a region [MemBlockInfo | red zone | block | red
    zone] obtained from [malloc]/[calloc].  The host allocator chooses the
    region: its result is the argument [region_start] of [_allocate] and
    of [_reallocate] ([0] when it fails); [free] leaves the memory as it
    is. *)

Module Debug.

Record State : Type := mkState {
  mem : Mem;
  blocks_allocated : Z;
  err_log : list string       (* what was printed on stderr, newest first *)
}.

Definition set_mem (s : State) (m : Mem) : State :=
  mkState m (blocks_allocated s) (err_log s).

Definition add_blocks_allocated (s : State) (d : Z) : State :=
  mkState (mem s) (u64 (blocks_allocated s + d)) (err_log s).

Definition say (s : State) (msg : string) : State :=
  mkState (mem s) (blocks_allocated s) (msg :: err_log s).

Definition BUBBLEWRAP : Z := 32.
Definition sizeof_MemBlockInfo : Z := 16.

Definition calc_memsize (nbytes : Z) : Z :=
  u32 (sizeof_MemBlockInfo + nbytes + BUBBLEWRAP * 2).

Definition region_from_block (block : Z) : Z :=
  block - sizeof_MemBlockInfo - BUBBLEWRAP.

Definition block_from_region (region_start : Z) : Z :=
  region_start + sizeof_MemBlockInfo + BUBBLEWRAP.

(** [for (i = sizeof(MemBlockInfo) + BUBBLEWRAP - 1; i >= sizeof(MemBlockInfo); i--)] *)
Fixpoint damaged_lower (fuel : nat) (m : Mem) (region_start i num_damaged : Z)
  : option Z :=
  match fuel with
  | O => None
  | S fuel' =>
    if sizeof_MemBlockInfo <=? i then
      damaged_lower fuel' m region_start (u32 (i - 1))
        (if negb (load_byte m (region_start + i) =? 0xFF)
         then u32 (num_damaged + 1) else num_damaged)
    else Some num_damaged
  end.

(** [for (p = block_end; p < region_end; p++)] *)
Fixpoint damaged_upper (fuel : nat) (m : Mem) (region_end p num_damaged : Z)
  : option Z :=
  match fuel with
  | O => None
  | S fuel' =>
    if p <? region_end then
      damaged_upper fuel' m region_end (p + 1)
        (if negb (load_byte m p =? 0xFF) then u32 (num_damaged + 1) else num_damaged)
    else Some num_damaged
  end.

Definition check_region (s : State) (block nbytes : Z) : outcome State unit :=
  let memsize := calc_memsize nbytes in
  let region_start := region_from_block block in
  let region_end := region_start + memsize in
  let block_start := block_from_region region_start in
  let block_end := block_start + nbytes in
  dolet num_damaged_lower, s <-
    lift (damaged_lower (S (Z.to_nat BUBBLEWRAP)) (mem s) region_start
            (sizeof_MemBlockInfo + BUBBLEWRAP - 1) 0) s ;;
  dolet num_damaged_upper, s <-
    lift (damaged_upper (S (Z.to_nat (region_end - block_end))) (mem s)
            region_end block_end 0) s ;;
  if negb (num_damaged_upper =? 0) || negb (num_damaged_lower =? 0) then
    if negb (num_damaged_upper =? 0) && negb (num_damaged_lower =? 0) then
      Aborted (say s "%s: damaged %u bytes below %p and %u bytes above %u")
    else if negb (num_damaged_upper =? 0) then
      Aborted (say s "%s: damaged %u bytes above %p + %u")
    else
      Aborted (say s "%s: damaged %u bytes below %p")
  else Ret tt s.

Definition _allocate (s : State) (region_start nbytes : Z) (clean : bool)
  : outcome State Z :=
  let memsize := calc_memsize nbytes in
  (* [calloc] hands the region out zeroed *)
  let s := if clean && negb (region_start =? 0)
           then set_mem s (memset (mem s) region_start 0 memsize) else s in
  if region_start =? 0 then Ret 0 s
  else
    let region_end := region_start + memsize in
    let block_start := region_start + sizeof_MemBlockInfo + BUBBLEWRAP in
    let block_end := block_start + nbytes in
    if region_end <=? block_end then
      Aborted (say s "%s: region_end %p must be greater than block_end %p")
    else
      let m := memset (mem s) region_start 0xFF (block_start - region_start) in
      let m := memset m block_end 0xFF (region_end - block_end) in
      (* [info->addr = block_start; info->nbytes = nbytes;] *)
      let m := store_word m region_start block_start in
      let m := store_u32 m (region_start + 8) nbytes in
      Ret block_start (add_blocks_allocated (set_mem s m) 1).

(** [_release(&addr, nbytes)]: the value is what [*addr_ptr] holds on
    return. *)
Definition _release (s : State) (addr nbytes : Z) : outcome State Z :=
  if addr =? 0 then Ret addr s
  else
    dolet _, s <- check_region s addr nbytes ;;
    (* [free(region_from_block(addr))] *)
    Ret 0 (add_blocks_allocated s (-1)).

Record Realloc : Type := mkRealloc {
  ok : bool;
  addr_out : Z;
  addr_changed : bool
}.

Definition _reallocate (s : State) (region_start addr_in old_nbytes new_nbytes : Z)
                       (clean : bool) : outcome State Realloc :=
  if old_nbytes =? new_nbytes then Ret (mkRealloc true addr_in false) s
  else
  let addr := addr_in in
  (* shall we allocate new addr? *)
  if addr =? 0 then
    if negb (old_nbytes =? 0) then Ret (mkRealloc false addr_in false) s
    else
      dolet addr, s <- _allocate s region_start new_nbytes clean ;;
      if addr =? 0 then Ret (mkRealloc false addr_in false) s
      else Ret (mkRealloc true addr true) s
  else
    dolet new_addr, s <- _allocate s region_start new_nbytes false ;;
    if new_addr =? 0 then Ret (mkRealloc false addr_in false) s
    else
      let s := set_mem s (memcpy (mem s) new_addr addr old_nbytes) in
      dolet _, s <- _release s addr old_nbytes ;;
      let s := if clean
               then set_mem s (memset (mem s) (new_addr + old_nbytes) 0
                                 (u32 (new_nbytes - old_nbytes)))
               else s in
      Ret (mkRealloc true new_addr true) s.

End Debug.

(** ** A concrete machine

    4 KiB pages (256 units a page, 4 of them header, 252 data units), a
    kernel that maps at the lowest page boundary above everything mapped
    so far, remaps in place and unmaps what starts at a page boundary,
    and a process whose memory is all zero
    when the allocator starts.  The states below are reached through the
    interface functions alone. *)

Module Machine.

Import Pet.

Definition sys_page_size : Z := 4096.

Definition os_mmap (mapped : list Z) (size : Z) : option Z :=
  Some (fold_right Z.max 0x10000 (map (fun p => p + sys_page_size) mapped)).

Definition os_mremap (mapped : list Z) (addr old_size new_size : Z) (may_move : bool)
  : option Z := Some addr.

(** [munmap] fails for an address off the page boundaries and for a
    length of zero. *)
Definition os_munmap (mapped : list Z) (addr size : Z) : bool :=
  (addr mod sys_page_size =? 0) && (0 <? size).

(** The state [_init] leaves: the superblock page at [0x10000], every
    slot empty. *)
Definition booted : State := mkState (fun _ => 0) [0x10000] 0x10000 0 0 [].

Definition and_then {A B} (x : outcome State A) (f : State -> outcome State B)
  : outcome State B := bind x (fun _ s => f s).

Definition allocate (nbytes : Z) (s : State) : outcome State Z :=
  _allocate sys_page_size os_mmap s nbytes false.

Definition release (addr nbytes : Z) (s : State) : outcome State Z :=
  _release sys_page_size os_munmap s addr nbytes.

Definition reallocate (addr old_nbytes new_nbytes : Z) (s : State)
  : outcome State Realloc :=
  _reallocate sys_page_size os_mmap os_mremap os_munmap s addr old_nbytes new_nbytes false.

(** The first three pages the kernel hands out after the superblock. *)
Definition page_A : Z := 0x11000.
Definition page_B : Z := 0x12000.
Definition page_C : Z := 0x13000.

(** Two blocks of 250 units: two pages, both with a longest free run of
    2 units. *)
Definition two_pages : outcome State Z :=
  and_then (allocate 4000 booted) (allocate 4000).

(** Two blocks of one unit, at offsets 4 and 5 of one page. *)
Definition two_blocks : outcome State Z :=
  and_then (allocate 16 booted) (allocate 16).

(** Three pages A, B, C, each with one-unit blocks at offsets 4 and 5
    and nothing else: A and B are filled up by a 250-unit block while the
    next page is populated, and the two fillers are released at the
    end. *)
Definition three_pages : outcome State Z :=
  and_then (and_then (and_then (and_then (and_then (and_then (and_then (and_then
  (and_then (allocate 16 booted)
    (allocate 16)) (allocate 4000))
    (allocate 16)) (allocate 16)) (allocate 4000))
    (allocate 16)) (allocate 16))
    (release (page_B + 96) 4000)) (release (page_A + 96) 4000).

(** Then the block at offset 4 of page B is reallocated from one unit
    to two. *)
Definition three_pages_grow : outcome State Realloc :=
  and_then three_pages (reallocate (page_B + 64) 16 32).

(** A large block of two pages at [page_A], in which the caller wrote a
    pointer to its own 9th word into its first word and [0xFF] into its
    bytes 24 to 55. *)
Definition large_block : outcome State Z :=
  bind (allocate 8192 booted) (fun a s =>
    Ret a (set_mem s (memset (store_word (mem s) a (a + 64)) (a + 24) 0xFF 32))).

(** The large block is reallocated to 16 bytes. *)
Definition large_block_shrunk : outcome State Realloc :=
  bind large_block (fun a s => reallocate a 8192 16 s).

(** A large block of two pages at [page_A] in which the caller wrote,
    where [bm_release] will look for the list header of a bitmap page,
    a pointer to its own 9th word ([list]), a pointer to its byte
    [0xFC0] ([next]) and the address of slot 4 of the superblock
    ([prev]); [0xFF] into its bytes 24 to 55, where the bitmap would be;
    and at its byte [0xFC0] the address of slot 5 and that of slot 4. *)
Definition crafted_block : outcome State Z :=
  bind (allocate 8192 booted) (fun a s =>
    let m := store_word (mem s) a (a + 64) in
    let m := store_word m (a + 8) (a + 0xFC0) in
    let m := store_word m (a + 16) (slot s 4) in
    let m := memset m (a + 24) 0xFF 32 in
    let m := store_word m (a + 0xFC0) (slot s 5) in
    let m := store_word m (a + 0xFC8) (slot s 4) in
    Ret a (set_mem s m)).

(** The block is reallocated to 16 bytes, and 80 bytes are allocated. *)
Definition crafted_block_shrunk : outcome State Realloc :=
  bind crafted_block (fun a s => reallocate a 8192 16 s).

Definition aligned_small_block : outcome State Z :=
  bind crafted_block_shrunk (fun _ s => allocate 80 s).

(** A first allocation of [u] units on the booted allocator: the block
    is at offset 4 of the fresh page A, and the page, with a longest
    free run of [252 - u], is the one page of [superblock[252 - u]]. *)
Definition fresh_page_check (u : Z) : bool :=
  match allocate (16 * u) booted with
  | Ret a s =>
    (a =? page_A + 64)
    && match bucket_pages 8 s (252 - u) with
       | [p] => p =? page_A
       | _ => false
       end
    && match find_longest_free_block sys_page_size (bitmap_of (mem s) page_A) with
       | Some lfb => lfb =? 252 - u
       | None => false
       end
  | _ => false
  end.

(** A bitmap with units 0 to 5 in use. *)
Definition sample_bitmap : Z -> Z := fun i => if i =? 0 then 0x3F else 0.

(** The debug adaptor: a 10-byte block in a region at [0x1000] of a
    zeroed memory, reallocated to 4 bytes in a region at [0x2000]. *)
Definition debug_start : Debug.State := Debug.mkState (fun _ => 0) 0 [].

Definition debug_block : outcome Debug.State Z :=
  Debug._allocate debug_start 0x1000 10 false.

Definition debug_state : Debug.State := state_of debug_block debug_start.

Definition debug_shrunk : outcome Debug.State Debug.Realloc :=
  Debug._reallocate debug_state 0x2000 0x1030 10 4 false.

(** A 100-byte block of the debug adaptor in a region at [0x1000] of a
    zeroed memory, in which the caller wrote [0xFF] into bytes 4 to 35,
    reallocated to 4 bytes in a region at [0x2000]: byte 50 of the block
    is zero. *)
Definition debug_far_state : Debug.State :=
  let s := state_of (Debug._allocate debug_start 0x1000 100 false) debug_start in
  Debug.set_mem s (memset (Debug.mem s) (0x1030 + 4) 0xFF 32).

Definition debug_far_shrunk : outcome Debug.State Debug.Realloc :=
  Debug._reallocate debug_far_state 0x2000 0x1030 100 4 false.

(** The 10-byte block of the debug adaptor reallocated to 20 bytes,
    zeroed, in a region at [0x2000]. *)
Definition debug_grown : outcome Debug.State Debug.Realloc :=
  Debug._reallocate debug_state 0x2000 0x1030 10 20 true.

(** The first block, obtained through [_reallocate] from the empty
    address. *)
Definition first_block : outcome State Realloc := reallocate 0 0 16 booted.

(** A 48-byte block, zeroed, from the booted allocator. *)
Definition small_block : outcome State Z :=
  _allocate sys_page_size os_mmap booted 48 true.

(** A zeroed memory in which [set_bits] marked the first ten units of the
    page at [page_A], and a memory of [0xFF] bytes in which [clear_bits]
    unmarked seventy units from unit 60 on. *)
Definition marked_mem : Mem :=
  match set_bits (fun _ => 0) page_A 0 10 with
  | Some m => m
  | None => fun _ => 0
  end.

Definition cleared_mem : Mem :=
  match clear_bits (fun _ => 255) page_A 60 70 with
  | Some m => m
  | None => fun _ => 255
  end.

(** Pages put one after the other into [superblock[3]] of the booted
    allocator. *)
Definition one_linked : State := add_to_superblock_entry booted page_A 3.
Definition two_linked : State := add_to_superblock_entry one_linked page_B 3.
Definition three_linked : State := add_to_superblock_entry two_linked page_C 3.

(** The booted allocator after its first small allocation, of three
    units: one bitmap page, at [page_A]. *)
Definition one_page : State :=
  state_of (bm_allocate sys_page_size os_mmap booted 3 false) booted.

End Machine.

(** ** timespec arithmetic

    [struct timespec] as POSIX has it on this target: [tv_sec] and
    [tv_nsec] are signed 64-bit integers, the wrap-around is written
    [s64]. *)

Definition s64 (x : Z) : Z := (x + 2 ^ 63) mod 2 ^ 64 - 2 ^ 63.

Record timespec : Type := mkTimespec {
  tv_sec : Z;
  tv_nsec : Z
}.

(** [timespec_sub(a, b)]: the value left in [*a]. *)
Definition timespec_sub (a b : timespec) : timespec :=
  let a := mkTimespec (s64 (tv_sec a - tv_sec b)) (tv_nsec a) in
  let a := if tv_nsec a <? tv_nsec b
           then mkTimespec (s64 (tv_sec a - 1)) (s64 (u64 (u64 (tv_nsec a) + 1000000000)))
           else a in
  mkTimespec (tv_sec a) (s64 (tv_nsec a - tv_nsec b)).


Import Pet.

(** ** Properties *)

(** Page sizes the allocator is built for: a power of two that fits
    [unsigned] and leaves a whole number of bitmap words. *)
Definition page_size_ok (sys_page_size : Z) : Prop :=
  exists k, 10 <= k < 32 /\ sys_page_size = 2 ^ k.

(** Every bitmap word is a [Word]. *)
Definition wf_bitmap (bm : Z -> Z) : Prop := forall i, 0 <= bm i < 2 ^ 64.

(** The run returned a value and a state that satisfy [P]. *)
Definition returns {S A} (x : outcome S A) (P : A -> S -> Prop) : Prop :=
  match x with
  | Ret a s => P a s
  | _ => False
  end.

(** The run terminated the process, in a state that satisfies [P]. *)
Definition terminates {S A} (x : outcome S A) (P : S -> Prop) : Prop :=
  match x with
  | Aborted s => P s
  | _ => False
  end.

(** The page-alignment test of [_release] and [_reallocate]:
    [addr == (void* ) bm_page]. *)
Definition is_page_aligned (sys_page_size addr : Z) : bool :=
  addr =? bm_page_from_addr sys_page_size addr.

(** The bitmap words of a 4 KiB page. *)
Definition bitmap_words_of (m : Mem) (bm_page : Z) : list Z :=
  map (bitmap_of m bm_page) [0; 1; 2; 3].

(** The [len] bits from [p] on are zero. *)
Definition free_run (bm : Z -> Z) (p len : Z) : Prop :=
  forall i, p <= i < p + len -> bm_bit bm i = false.

(** [n] free units start at offset [p] of the data area of a page. *)
Definition free_block_at (sys_page_size : Z) (bm : Z -> Z) (n p : Z) : Prop :=
  bm_page_header_size_in_units sys_page_size <= p /\
  p + n <= units_per_page sys_page_size /\
  free_run bm p n.

(** A [timespec] as the library produces them, and the instant it
    denotes in nanoseconds. *)
Definition timespec_ok (t : timespec) : Prop :=
  - 2 ^ 62 <= tv_sec t < 2 ^ 62 /\ 0 <= tv_nsec t < 1000000000.

Definition nanoseconds (t : timespec) : Z := tv_sec t * 1000000000 + tv_nsec t.

(** [s'] differs from [s] in the memory contents at most. *)
Definition same_books (s s' : State) : Prop :=
  mapped s' = mapped s /\ superblock s' = superblock s /\
  blocks_allocated s' = blocks_allocated s /\ num_bm_pages s' = num_bm_pages s /\
  err_log s' = err_log s.

(** [set_bits] and [clear_bits] are one piece of code up to the value
    written: [update_bits true] is [set_bits] and [update_bits false] is
    [clear_bits] (lemmas [set_bits_update] and [clear_bits_update]). *)
Definition word_op (v : bool) (old mask : Z) : Z :=
  if v then Z.lor old mask else Z.land old (wnot mask).

Definition update_bits (v : bool) (m : Mem) (bm_page offset length : Z) : option Mem :=
  let ptr := bitmap_addr bm_page (offset / WORD_WIDTH) in
  let bit_index := Z.land offset (WORD_WIDTH - 1) in
  let '(m, ptr, length) :=
    if negb (bit_index =? 0) then
      let bitmask := WORD_MAX in
      let num_bits := WORD_WIDTH - bit_index in
      let '(bitmask, num_bits) :=
        if length <=? num_bits
        then (Z.land bitmask (u64 (wshl 1 length - 1)), length)
        else (bitmask, num_bits) in
      let bitmask := wshl bitmask bit_index in
      (store_word m ptr (word_op v (load_word m ptr) bitmask), ptr + 8,
       u32 (length - num_bits))
    else (m, ptr, length) in
  match fill_words (S (Z.to_nat length)) (if v then WORD_MAX else 0) m ptr length with
  | None => None
  | Some (m, ptr, length) =>
    if negb (length =? 0)
    then Some (store_word m ptr (word_op v (load_word m ptr) (u64 (wshl 1 length - 1))))
    else Some m
  end.

(** [m'] is [m] with the bits [[lo, hi)] of the bitmap of [bm_page] set
    to [v], nothing written outside the bitmap words that hold them. *)
Definition bits_updated (v : bool) (bm_page : Z) (m m' : Mem) (lo hi : Z) : Prop :=
  (forall i, bm_bit (bitmap_of m' bm_page) i =
             if (lo <=? i) && (i <? hi) then v else bm_bit (bitmap_of m bm_page) i) /\
  (forall x, x < bitmap_addr bm_page (lo / 64) \/
             bitmap_addr bm_page ((hi + 63) / 64) <= x -> m' x = m x).


(** ** The circular lists of the superblock *)

(** The headers of two bitmap pages do not overlap. *)
Definition apart (a b : Z) : Prop := a + 24 <= b \/ b + 24 <= a.

(** [b] comes after [a] in a list: [a->next == b] and [b->prev == a]. *)
Definition adj (m : Mem) (a b : Z) : Prop := get_next m a = b /\ get_prev m b = a.

(** The pages [a :: ps] are linked one after the other. *)
Fixpoint chain (m : Mem) (a : Z) (ps : list Z) : Prop :=
  match ps with
  | [] => True
  | p :: rest => adj m a p /\ chain m p rest
  end.

(** The pages [ps] are linked in a circle: the first comes after the
    last. *)
Definition ring (m : Mem) (ps : list Z) : Prop :=
  match ps with
  | [] => True
  | a :: rest => chain m a rest /\ adj m (last rest a) a
  end.

(** [superblock[k]] holds the pages [ps], in this order from the page the
    slot points to: the slot is null for no page; the pages are valid
    pointers with headers apart from one another and from the slot, are
    linked in a circle, and their [list] field points to the slot. *)
Record bucket (s : State) (k : Z) (ps : list Z) : Prop := {
  bucket_slot_range : 0 <= slot s k < 2 ^ 64;
  bucket_first : load_word (mem s) (slot s k) = hd 0 ps;
  bucket_range : forall p, In p ps -> 0 < p < 2 ^ 64;
  bucket_nodup : NoDup ps;
  bucket_apart : forall p q, In p ps -> In q ps -> p <> q -> apart p q;
  bucket_slot_apart : forall p, In p ps -> slot s k + 8 <= p \/ p + 24 <= slot s k;
  bucket_ring : ring (mem s) ps;
  bucket_list : forall p, In p ps -> get_list (mem s) p = slot s k
}.

(** ** The superblock as a whole *)

(** The pages at [p] and [q] do not overlap. *)
Definition pages_apart (sys_page_size p q : Z) : Prop :=
  p + sys_page_size <= q \/ q + sys_page_size <= p.

(** The page at [p] does not overlap the slots of the superblock. *)
Definition off_superblock (sys_page_size : Z) (s : State) (p : Z) : Prop :=
  superblock s + 8 * (max_data_units sys_page_size + 1) <= p \/
  p + sys_page_size <= superblock s.

(** The buckets [B] with the bucket [k] replaced by the pages [l]. *)
Definition set_bucket (B : Z -> list Z) (k : Z) (l : list Z) : Z -> list Z :=
  fun j => if j =? k then l else B j.

(** The superblock holds the pages [B k] in its bucket [k], for every [k]
    up to [max_data_units]: each bucket is a well-formed circular list,
    a page of bucket [k] has a longest free block of [k] units, and the
    pages overlap neither one another nor the slots. *)
Record superblock_ok (sys_page_size : Z) (s : State) (B : Z -> list Z) : Prop := {
  sb_range : 0 <= superblock s /\
             superblock s + 8 * (max_data_units sys_page_size + 1) <= 2 ^ 64;
  sb_bucket : forall k, 0 <= k <= max_data_units sys_page_size -> bucket s k (B k);
  sb_lfb : forall k p, 0 <= k <= max_data_units sys_page_size -> In p (B k) ->
           find_longest_free_block sys_page_size (bitmap_of (mem s) p) = Some k;
  sb_apart : forall k k' p q,
             0 <= k <= max_data_units sys_page_size ->
             0 <= k' <= max_data_units sys_page_size ->
             In p (B k) -> In q (B k') ->
             (p = q /\ k = k') \/ pages_apart sys_page_size p q;
  sb_slots : forall k p, 0 <= k <= max_data_units sys_page_size -> In p (B k) ->
             off_superblock sys_page_size s p
}.

(** The page at [p] is in no bucket of [B], and overlaps neither a page
    of [B] nor the slots. *)
Definition detached (sys_page_size : Z) (s : State) (B : Z -> list Z) (p : Z) : Prop :=
  0 < p < 2 ^ 64 /\
  off_superblock sys_page_size s p /\
  forall k q, 0 <= k <= max_data_units sys_page_size -> In q (B k) ->
              pages_apart sys_page_size p q.

(** ** Facts about machine integers *)

Lemma u32_small x : 0 <= x < 2 ^ 32 -> u32 x = x.
Proof. intros H. unfold u32. now apply Z.mod_small. Qed.

Lemma testbit_above (w k i : Z) :
  0 <= w < 2 ^ k -> k <= i -> Z.testbit w i = false.
Proof.
  intros [Hw0 Hwk] Hki.
  destruct (Z.eq_dec w 0) as [->|Hne]; [apply Z.testbit_0_l|].
  apply Z.bits_above_log2; [lia|].
  assert (Z.log2 w < k); [|lia].
  apply Z.log2_lt_pow2; lia.
Qed.

Lemma ctz_from_spec (fuel : nat) :
  forall w acc, 0 < w < 2 ^ Z.of_nat fuel ->
  exists c, ctz_from fuel w acc = acc + c /\ 0 <= c < Z.of_nat fuel /\
            Z.testbit w c = true /\
            forall i, 0 <= i < c -> Z.testbit w i = false.
Proof.
  induction fuel as [|fuel IH]; intros w acc Hw.
  - simpl in Hw. lia.
  - cbn [ctz_from]. destruct (Z.odd w) eqn:Hodd.
    + exists 0. rewrite Z.bit0_odd. repeat split; try lia. assumption.
    + assert (Hw2 : 0 < Z.shiftr w 1 < 2 ^ Z.of_nat fuel).
      { rewrite Z.shiftr_div_pow2 by lia. change (2 ^ 1) with 2.
        rewrite Nat2Z.inj_succ, Z.pow_succ_r in Hw by lia.
        assert (w mod 2 = 0).
        { rewrite Zmod_odd, Hodd. reflexivity. }
        Z.div_mod_to_equations; lia. }
      destruct (IH (Z.shiftr w 1) (acc + 1) Hw2) as (c & Hc & Hr & Hb & Hz).
      exists (c + 1). repeat split; try lia.
      * rewrite Z.shiftr_spec in Hb by lia. assumption.
      * intros i Hi. destruct (Z.eq_dec i 0) as [->|Hi0].
        -- rewrite Z.bit0_odd. assumption.
        -- specialize (Hz (i - 1) ltac:(lia)).
           rewrite Z.shiftr_spec in Hz by lia.
           replace (i - 1 + 1) with i in Hz by lia. assumption.
Qed.

Lemma count_trailing_zeros_spec (w k : Z) :
  0 < w < 2 ^ k -> 0 <= k <= 64 ->
  let c := count_trailing_zeros w in
  0 <= c < k /\ Z.testbit w c = true /\
  forall i, 0 <= i < c -> Z.testbit w i = false.
Proof.
  intros Hw Hk c.
  assert (Hw64 : 0 < w < 2 ^ Z.of_nat 64).
  { split; [lia|]. apply Z.lt_le_trans with (2 ^ k); [lia|].
    apply Z.pow_le_mono_r; lia. }
  destruct (ctz_from_spec 64 w 0 Hw64) as (c' & Hc & Hr & Hb & Hz).
  assert (c = c') by (subst c; unfold count_trailing_zeros; lia).
  subst c'. repeat split; try lia; try assumption.
  destruct (Z_lt_dec c k) as [|Hge]; [assumption|].
  rewrite (testbit_above w k c) in Hb by lia. discriminate.
Qed.

Lemma wnot_range w : 0 <= wnot w < 2 ^ 64.
Proof.
  unfold wnot, WORD_MAX. change (2 ^ 64 - 1) with (Z.ones 64).
  rewrite Z.land_ones by lia. apply Z.mod_pos_bound. lia.
Qed.

Lemma wnot_testbit w i :
  0 <= i < 64 -> Z.testbit (wnot w) i = negb (Z.testbit w i).
Proof.
  intros Hi. unfold wnot, WORD_MAX. change (2 ^ 64 - 1) with (Z.ones 64).
  rewrite Z.land_spec, Z.lnot_spec by lia.
  rewrite Z.ones_spec_low by lia. apply andb_true_r.
Qed.

(** ** The bitmap primitives *)

Section BitmapFacts.

Variable sys_page_size : Z.
Hypothesis Hps : page_size_ok sys_page_size.

Local Abbreviation upp := (units_per_page sys_page_size).
Local Abbreviation hdr := (bm_page_header_size_in_units sys_page_size).

Lemma page_size_bounds : 1024 <= sys_page_size < 2 ^ 32 /\ sys_page_size mod 1024 = 0.
Proof.
  destruct Hps as (k & Hk & ->). split.
  - split.
    + change 1024 with (2 ^ 10). apply Z.pow_le_mono_r; lia.
    + apply Z.pow_lt_mono_r; lia.
  - replace k with (10 + (k - 10)) by lia.
    rewrite Z.pow_add_r by lia. change (2 ^ 10) with 1024.
    rewrite Z.mul_comm. apply Z_mod_mult.
Qed.

Lemma upp_bounds : 64 <= upp < 2 ^ 28 /\ upp mod 64 = 0.
Proof.
  destruct page_size_bounds as [Hb Hm].
  unfold units_per_page, UNIT_SIZE. change (2 ^ 32) with 4294967296 in Hb.
  change (2 ^ 28) with 268435456.
  Z.div_mod_to_equations; lia.
Qed.

Lemma hdr_bounds : 2 <= hdr < upp.
Proof.
  destruct upp_bounds as [Hb Hm].
  unfold bm_page_header_size_in_units, offsetof_bitmap, UNIT_SIZE.
  change (2 ^ 28) with 268435456 in Hb.
  Z.div_mod_to_equations; lia.
Qed.

Lemma max_data_units_eq : max_data_units sys_page_size = upp - hdr.
Proof.
  unfold max_data_units. apply u32_small.
  pose proof upp_bounds as [Hb _]. pose proof hdr_bounds.
  change (2 ^ 28) with 268435456 in Hb. change (2 ^ 32) with 4294967296. lia.
Qed.

Lemma bm_bit_word bm ptr j :
  0 <= j < 64 -> bm_bit bm (64 * ptr + j) = Z.testbit (bm ptr) j.
Proof.
  intros Hj. unfold bm_bit, WORD_WIDTH.
  replace ((64 * ptr + j) / 64) with ptr by (Z.div_mod_to_equations; lia).
  replace ((64 * ptr + j) mod 64) with j by (Z.div_mod_to_equations; lia).
  reflexivity.
Qed.

(** The word loop, started on a word boundary with [count] bits already
    counted: it returns, the added bits are all zero, it stays inside the
    bitmap, and it stops short of [limit] only at the end of the run. *)
Lemma count_zero_words_spec bm limit (Hbm : wf_bitmap bm) :
  forall fuel ptr offset count,
  offset = 64 * ptr -> 0 <= ptr -> offset <= upp ->
  (upp - offset) / 64 < Z.of_nat fuel ->
  0 <= count <= offset ->
  exists c, count_zero_words sys_page_size fuel bm ptr offset count limit = Some c /\
    count <= c /\
    (forall i, offset <= i < offset + (c - count) -> bm_bit bm i = false) /\
    offset + (c - count) <= upp /\
    (c < limit -> offset + (c - count) = upp \/ bm_bit bm (offset + (c - count)) = true).
Proof.
  destruct upp_bounds as [Hub Hum]. change (2 ^ 28) with 268435456 in Hub.
  induction fuel as [|fuel IH]; intros ptr offset count Hoff Hptr Hle Hfuel Hcount.
  - exfalso. Z.div_mod_to_equations; lia.
  - cbn [count_zero_words].
    destruct (offset <? upp) eqn:Hlt; cbn [andb].
    2:{ apply Z.ltb_ge in Hlt. exists count. split; [reflexivity|].
        repeat split; intros; lia. }
    apply Z.ltb_lt in Hlt.
    destruct (count <? limit) eqn:Hcl.
    2:{ apply Z.ltb_ge in Hcl. exists count. split; [reflexivity|].
        repeat split; intros; lia. }
    assert (Hroom : offset + 64 <= upp) by (Z.div_mod_to_equations; lia).
    pose proof (Hbm ptr) as Hw.
    destruct (bm ptr =? 0) eqn:Hz; cbn [negb].
    + apply Z.eqb_eq in Hz. unfold WORD_WIDTH.
      rewrite !u32_small by (change (2 ^ 32) with 4294967296; lia).
      destruct (IH (ptr + 1) (offset + 64) (count + 64)) as (c & Hc & Hge & Hzero & Hin & Hstop);
        try lia.
      { Z.div_mod_to_equations; lia. }
      exists c. split; [exact Hc|]. split; [lia|].
      replace (offset + 64 + (c - (count + 64))) with (offset + (c - count)) in * by lia.
      repeat split; try assumption.
      intros i Hi. destruct (Z_lt_dec i (offset + 64)) as [Hlow|Hhigh].
      * replace i with (64 * ptr + (i - offset)) by lia.
        rewrite bm_bit_word by lia. rewrite Hz. apply Z.testbit_0_l.
      * apply Hzero. lia.
    + apply Z.eqb_neq in Hz.
      destruct (count_trailing_zeros_spec (bm ptr) 64) as (Hc & Hb & Hzero); try lia.
      set (t := count_trailing_zeros (bm ptr)) in *.
      rewrite u32_small by (change (2 ^ 32) with 4294967296; lia).
      exists (count + t). split; [reflexivity|]. split; [lia|].
      replace (count + t - count) with t by lia.
      repeat split; try lia.
      * intros i Hi. replace i with (64 * ptr + (i - offset)) by lia.
        rewrite bm_bit_word by lia. apply Hzero. lia.
      * intros _. right. rewrite Hoff. rewrite bm_bit_word by lia. exact Hb.
Qed.

Lemma word_fuel_enough offset :
  0 <= offset -> (upp - offset) / 64 < Z.of_nat (word_fuel sys_page_size).
Proof.
  intros Ho. destruct upp_bounds as [Hub Hum].
  unfold word_fuel, bitmap_words, WORD_WIDTH.
  rewrite Nat2Z.inj_succ, Z2Nat.id by (Z.div_mod_to_equations; lia).
  Z.div_mod_to_equations; lia.
Qed.

Lemma count_zero_bits_spec bm offset limit (Hbm : wf_bitmap bm) :
  0 <= offset <= upp ->
  exists c, count_zero_bits sys_page_size bm offset limit = Some c /\
    0 <= c /\
    (forall i, offset <= i < offset + c -> bm_bit bm i = false) /\
    offset + c <= upp /\
    (c < limit -> offset + c = upp \/ bm_bit bm (offset + c) = true).
Proof.
  intros Hoff. destruct upp_bounds as [Hub Hum].
  change (2 ^ 28) with 268435456 in Hub.
  unfold count_zero_bits, WORD_WIDTH. change (64 - 1) with (Z.ones 6).
  rewrite Z.land_ones by lia. change (2 ^ 6) with 64.
  set (ptr := offset / 64). set (bi := offset mod 64).
  assert (Hsplit : offset = 64 * ptr + bi /\ 0 <= bi < 64 /\ 0 <= ptr).
  { subst ptr bi. Z.div_mod_to_equations; lia. }
  destruct Hsplit as (Hsplit & Hbi & Hptr).
  destruct (bi =? 0) eqn:Hbz; cbn [negb].
  - apply Z.eqb_eq in Hbz.
    destruct (count_zero_words_spec bm limit Hbm (word_fuel sys_page_size) ptr offset 0)
      as (c & Hc & Hge & Hzero & Hin & Hstop); try lia.
    { apply word_fuel_enough. lia. }
    exists c. rewrite Z.sub_0_r in *. auto.
  - apply Z.eqb_neq in Hbz.
    assert (Hlt : offset < upp).
    { destruct (Z.eq_dec offset upp) as [E|]; [|lia].
      exfalso. subst bi. rewrite E in Hbz. auto. }
    assert (Hroom : 64 * ptr + 64 <= upp) by (Z.div_mod_to_equations; lia).
    pose proof (Hbm ptr) as Hw.
    assert (Hsh : forall j, 0 <= j -> Z.testbit (Z.shiftr (bm ptr) bi) j = Z.testbit (bm ptr) (j + bi)).
    { intros j Hj. apply Z.shiftr_spec. exact Hj. }
    assert (Hshr : 0 <= Z.shiftr (bm ptr) bi < 2 ^ (64 - bi)).
    { rewrite Z.shiftr_div_pow2 by lia. split.
      - apply Z.div_pos; [lia|]. apply Z.pow_pos_nonneg; lia.
      - apply Z.div_lt_upper_bound; [apply Z.pow_pos_nonneg; lia|].
        rewrite <- Z.pow_add_r by lia. replace (bi + (64 - bi)) with 64 by lia. lia. }
    destruct (Z.shiftr (bm ptr) bi =? 0) eqn:Hz; cbn [negb].
    + apply Z.eqb_eq in Hz.
      rewrite u32_small by (change (2 ^ 32) with 4294967296; lia).
      destruct (count_zero_words_spec bm limit Hbm (word_fuel sys_page_size)
                  (ptr + 1) (offset + (64 - bi)) (64 - bi))
        as (c & Hc & Hge & Hzero & Hin & Hstop); try lia.
      { apply word_fuel_enough. lia. }
      exists c. split; [exact Hc|]. split; [lia|].
      replace (offset + (64 - bi) + (c - (64 - bi))) with (offset + c) in * by lia.
      repeat split; try assumption.
      intros i Hi. destruct (Z_lt_dec i (offset + (64 - bi))) as [Hlow|Hhigh].
      * replace i with (64 * ptr + (i - 64 * ptr)) by lia.
        rewrite bm_bit_word by lia.
        replace (i - 64 * ptr) with ((i - offset) + bi) by lia.
        rewrite <- Hsh by lia. rewrite Hz. apply Z.testbit_0_l.
      * apply Hzero. lia.
    + apply Z.eqb_neq in Hz.
      destruct (count_trailing_zeros_spec (Z.shiftr (bm ptr) bi) (64 - bi))
        as (Hc & Hb & Hzero); try lia.
      set (t := count_trailing_zeros (Z.shiftr (bm ptr) bi)) in *.
      exists t. split; [reflexivity|]. split; [lia|].
      repeat split; try lia.
      * intros i Hi. replace i with (64 * ptr + ((i - offset) + bi)) by lia.
        rewrite bm_bit_word by lia. rewrite <- Hsh by lia. apply Hzero. lia.
      * intros _. right. replace (offset + t) with (64 * ptr + (t + bi)) by lia.
        rewrite bm_bit_word by lia. rewrite <- Hsh by lia. exact Hb.
Qed.

Lemma count_nonzero_words_inv fuel bm :
  forall ptr offset count limit,
  count_nonzero_words sys_page_size fuel bm ptr offset count limit =
  count_zero_words sys_page_size fuel (fun i => wnot (bm i)) ptr offset count limit.
Proof.
  induction fuel as [|fuel IH]; intros; cbn [count_nonzero_words count_zero_words].
  - reflexivity.
  - rewrite IH. reflexivity.
Qed.

Lemma count_nonzero_bits_inv bm offset limit :
  count_nonzero_bits sys_page_size bm offset limit =
  count_zero_bits sys_page_size (fun i => wnot (bm i)) offset limit.
Proof.
  unfold count_nonzero_bits, count_zero_bits.
  rewrite !count_nonzero_words_inv. reflexivity.
Qed.

Lemma bm_bit_inv bm i :
  bm_bit (fun j => wnot (bm j)) i = negb (bm_bit bm i).
Proof.
  unfold bm_bit, WORD_WIDTH. apply wnot_testbit.
  Z.div_mod_to_equations; lia.
Qed.

Lemma count_nonzero_bits_spec bm offset limit (Hbm : wf_bitmap bm) :
  0 <= offset <= upp ->
  exists c, count_nonzero_bits sys_page_size bm offset limit = Some c /\
    0 <= c /\
    (forall i, offset <= i < offset + c -> bm_bit bm i = true) /\
    offset + c <= upp /\
    (c < limit -> offset + c = upp \/ bm_bit bm (offset + c) = false).
Proof.
  intros Hoff. rewrite count_nonzero_bits_inv.
  destruct (count_zero_bits_spec (fun i => wnot (bm i)) offset limit) as
    (c & Hc & Hge & Hrun & Hin & Hstop); [intro; apply wnot_range|assumption|].
  exists c. split; [exact Hc|]. split; [exact Hge|]. split; [|split; [exact Hin|]].
  - intros i Hi. specialize (Hrun i Hi). rewrite bm_bit_inv in Hrun.
    now apply negb_false_iff.
  - intros Hlt. destruct (Hstop Hlt) as [|Hb]; [now left|right].
    rewrite bm_bit_inv in Hb. now apply negb_true_iff.
Qed.

(** One iteration of the scan of [find_longest_free_block]: the zero run
    and the nonzero run after it together consume at least one bit and at
    most the [n] bits that remain. *)
Lemma longest_scan_step bm offset n (Hbm : wf_bitmap bm) :
  0 <= offset -> 0 < n -> offset + n = upp ->
  exists z nz,
    count_zero_bits sys_page_size bm offset n = Some z /\
    count_nonzero_bits sys_page_size bm (u32 (offset + z)) (u32 (n - z)) = Some nz /\
    0 <= z /\ 0 <= nz /\ 1 <= z + nz <= n /\
    u32 (offset + z) = offset + z /\ u32 (n - z) = n - z /\
    u32 (offset + z + nz) = offset + z + nz /\ u32 (n - z - nz) = n - z - nz.
Proof.
  intros Ho Hn Hsum. destruct upp_bounds as [Hub _].
  change (2 ^ 28) with 268435456 in Hub.
  destruct (count_zero_bits_spec bm offset n Hbm) as (z & Hz & Hz0 & Hzrun & Hzin & Hzstop);
    [lia|].
  assert (Hu1 : u32 (offset + z) = offset + z)
    by (apply u32_small; change (2 ^ 32) with 4294967296; lia).
  assert (Hu2 : u32 (n - z) = n - z)
    by (apply u32_small; change (2 ^ 32) with 4294967296; lia).
  destruct (count_nonzero_bits_spec bm (offset + z) (n - z) Hbm)
    as (nz & Hnz & Hnz0 & Hnzrun & Hnzin & Hnzstop); [lia|].
  exists z, nz. rewrite Hu1, Hu2. split; [exact Hz|]. split; [exact Hnz|].
  assert (Hpos : 1 <= z + nz).
  { destruct (Z.eq_dec z 0) as [Ez|]; [|lia].
    destruct (Z.eq_dec nz 0) as [Enz|]; [|lia]. exfalso.
    destruct (Hzstop ltac:(lia)) as [|Hb1]; [lia|].
    destruct (Hnzstop ltac:(lia)) as [|Hb0]; [lia|].
    replace (offset + z + nz) with offset in Hb0 by lia.
    replace (offset + z) with offset in Hb1 by lia. congruence. }
  repeat split; try lia; apply u32_small; change (2 ^ 32) with 4294967296; lia.
Qed.

Lemma find_longest_free_block_loop_total bm (Hbm : wf_bitmap bm) :
  forall fuel offset n lfb,
  0 <= offset -> 0 <= n -> offset + n = upp -> n < Z.of_nat fuel ->
  0 <= lfb <= upp ->
  exists r, find_longest_free_block_loop sys_page_size fuel bm offset n lfb = Some r /\
            lfb <= r <= upp.
Proof.
  induction fuel as [|fuel IH]; intros offset n lfb Ho Hn Hsum Hfuel Hl; [lia|].
  cbn [find_longest_free_block_loop].
  destruct (n =? 0) eqn:En; cbn [negb].
  - exists lfb. split; [reflexivity|lia].
  - apply Z.eqb_neq in En.
    destruct (longest_scan_step bm offset n Hbm) as
      (z & nz & Hz & Hnz & Hz0 & Hnz0 & Hstep & Hu1 & Hu2 & Hu3 & Hu4); try lia.
    rewrite Hz. cbv zeta. rewrite Hnz. rewrite Hu1, Hu2, Hu3, Hu4.
    destruct (IH (offset + z + nz) (n - z - nz) (if lfb <? z then z else lfb))
      as (r & Hr & Hrb); try lia.
    { destruct (lfb <? z) eqn:E; [apply Z.ltb_lt in E|]; lia. }
    exists r. split; [exact Hr|].
    destruct (lfb <? z) eqn:E; [apply Z.ltb_lt in E|]; lia.
Qed.

(** One iteration of the scan of [find_free_block]: either the block is
    found at [offset], or the scan offset moves strictly forward and stays
    inside the bitmap. *)
Lemma free_scan_step bm block_size offset (Hbm : wf_bitmap bm) :
  0 <= offset < upp ->
  exists z, count_zero_bits sys_page_size bm offset block_size = Some z /\ 0 <= z /\
    (block_size <= z \/
     exists nz, count_nonzero_bits sys_page_size bm (u32 (offset + z)) UINT_MAX = Some nz /\
       u32 (offset + z) = offset + z /\
       u32 (offset + z + nz) = offset + z + nz /\
       offset < offset + z + nz <= upp).
Proof.
  intros Ho. destruct upp_bounds as [Hub _].
  change (2 ^ 28) with 268435456 in Hub.
  destruct (count_zero_bits_spec bm offset block_size Hbm)
    as (z & Hz & Hz0 & Hzrun & Hzin & Hzstop); [lia|].
  exists z. split; [exact Hz|]. split; [exact Hz0|].
  destruct (Z_le_dec block_size z) as [|Hshort]; [now left|right].
  assert (Hu1 : u32 (offset + z) = offset + z)
    by (apply u32_small; change (2 ^ 32) with 4294967296; lia).
  destruct (count_nonzero_bits_spec bm (offset + z) UINT_MAX Hbm)
    as (nz & Hnz & Hnz0 & Hnzrun & Hnzin & Hnzstop); [lia|].
  exists nz. rewrite Hu1. split; [exact Hnz|]. split; [reflexivity|].
  split; [apply u32_small; change (2 ^ 32) with 4294967296; lia|].
  split; [|lia].
  destruct (Z.eq_dec z 0) as [Ez|]; [|lia].
  destruct (Z.eq_dec nz 0) as [Enz|]; [|lia]. exfalso.
  destruct (Hzstop ltac:(lia)) as [|Hb1]; [lia|].
  destruct (Hnzstop ltac:(unfold UINT_MAX; lia)) as [|Hb0]; [lia|].
  replace (offset + z + nz) with offset in Hb0 by lia.
  replace (offset + z) with offset in Hb1 by lia. congruence.
Qed.

Lemma find_free_block_loop_total bm block_size (Hbm : wf_bitmap bm) :
  forall fuel offset,
  hdr <= offset <= upp -> upp - offset < Z.of_nat fuel ->
  exists r, find_free_block_loop sys_page_size fuel bm block_size offset = Some r /\
    (r = 0 \/
     hdr <= r < upp /\
     exists z, count_zero_bits sys_page_size bm r block_size = Some z /\ block_size <= z).
Proof.
  pose proof hdr_bounds as Hh.
  induction fuel as [|fuel IH]; intros offset Ho Hfuel; [lia|].
  cbn [find_free_block_loop].
  destruct (offset <? upp) eqn:Hlt.
  2:{ exists 0. split; [reflexivity|now left]. }
  apply Z.ltb_lt in Hlt.
  destruct (free_scan_step bm block_size offset Hbm) as (z & Hz & Hz0 & Hcase); [lia|].
  rewrite Hz.
  destruct (block_size <=? z) eqn:Hfound.
  - apply Z.leb_le in Hfound. exists offset. split; [reflexivity|].
    right. split; [lia|]. exists z. auto.
  - apply Z.leb_gt in Hfound.
    destruct Hcase as [|(nz & Hnz & Hu1 & Hu2 & Hmove)]; [lia|].
    cbv zeta. rewrite Hnz, Hu1, Hu2. apply IH; lia.
Qed.

(** The test of [bm_grow]: the count from the end of the block reaches
    [increment] exactly when [increment] zero bits follow inside the
    bitmap. *)
Lemma count_zero_bits_reaches_iff bm offset increment c (Hbm : wf_bitmap bm) :
  0 <= offset <= upp -> 0 <= increment ->
  count_zero_bits sys_page_size bm offset increment = Some c ->
  (increment <= c <->
   offset + increment <= upp /\
   forall i, offset <= i < offset + increment -> bm_bit bm i = false).
Proof.
  intros Ho Hinc Hc.
  destruct (count_zero_bits_spec bm offset increment Hbm Ho)
    as (c' & Hc' & Hc0 & Hrun & Hin & Hstop).
  rewrite Hc in Hc'. injection Hc' as <-.
  split.
  - intros Hle. split; [lia|]. intros i Hi. apply Hrun. lia.
  - intros [Hfit Hzero].
    destruct (Z_le_dec increment c) as [|Hshort]; [assumption|exfalso].
    destruct (Hstop ltac:(lia)) as [|Hbit]; [lia|].
    rewrite Hzero in Hbit by lia. discriminate.
Qed.

End BitmapFacts.

(** ** Memory cleaning *)

(** [m] with the bytes of [[lo, hi)] set to zero. *)
Lemma cleanse_leading_spec :
  forall n m p len,
  Z.of_nat n <= len < 2 ^ 32 ->
  exists m', cleanse_leading n m p len = (m', p + Z.of_nat n, len - Z.of_nat n) /\
    forall x, m' x = if (p <=? x) && (x <? p + Z.of_nat n) then 0 else m x.
Proof.
  induction n as [|n IH]; intros m p len Hlen.
  - exists m. cbn [cleanse_leading]. split.
    + f_equal; [f_equal|]; cbn; lia.
    + intros x. destruct (p <=? x) eqn:E1; cbn [andb]; [|reflexivity].
      replace (x <? p + Z.of_nat 0) with false; [reflexivity|].
      symmetry. apply Z.ltb_ge. apply Z.leb_le in E1. cbn. lia.
  - cbn [cleanse_leading]. rewrite Nat2Z.inj_succ in *.
    rewrite u32_small by lia.
    destruct (IH (store_byte m p 0) (p + 1) (len - 1)) as (m' & Hrun & Hmem); [lia|].
    exists m'. split.
    + rewrite Hrun. f_equal; [f_equal|]; lia.
    + intros x. rewrite Hmem. unfold store_byte.
      destruct (Z.eq_dec x p) as [->|Hne].
      * rewrite Z.eqb_refl.
        replace (p + 1 <=? p) with false by (symmetry; apply Z.leb_gt; lia).
        replace (p <=? p) with true by (symmetry; apply Z.leb_le; lia).
        replace (p <? p + Z.succ (Z.of_nat n)) with true
          by (symmetry; apply Z.ltb_lt; lia).
        reflexivity.
      * replace (x =? p) with false by (symmetry; apply Z.eqb_neq; lia).
        replace (x <? p + 1 + Z.of_nat n) with (x <? p + Z.succ (Z.of_nat n))
          by (f_equal; lia).
        destruct (x <? p + Z.succ (Z.of_nat n)); [|now rewrite !andb_false_r].
        rewrite !andb_true_r.
        destruct (p + 1 <=? x) eqn:E1, (p <=? x) eqn:E2; try reflexivity;
          [apply Z.leb_le in E1; apply Z.leb_gt in E2|
           apply Z.leb_gt in E1; apply Z.leb_le in E2]; lia.
Qed.

Lemma store_word_zero m a x :
  store_word m a 0 x = if (a <=? x) && (x <? a + 8) then 0 else m x.
Proof.
  unfold store_word. destruct ((a <=? x) && (x <? a + 8)); [|reflexivity].
  rewrite Z.shiftr_0_l. reflexivity.
Qed.

Lemma range_if_join (m : Mem) lo mid hi x :
  lo <= mid <= hi ->
  (if (mid <=? x) && (x <? hi) then 0
   else if (lo <=? x) && (x <? mid) then 0 else m x) =
  (if (lo <=? x) && (x <? hi) then 0 else m x).
Proof.
  intros H.
  destruct (mid <=? x) eqn:E1, (x <? hi) eqn:E2, (lo <=? x) eqn:E3, (x <? mid) eqn:E4;
    cbn [andb]; try reflexivity;
    rewrite ?Z.leb_le, ?Z.leb_gt, ?Z.ltb_lt, ?Z.ltb_ge in *; lia.
Qed.

Lemma cleanse_words_spec :
  forall fuel m p len,
  0 <= len < 2 ^ 32 -> len < Z.of_nat fuel ->
  exists m' len', cleanse_words fuel m p len = Some (m', p + (len - len'), len') /\
    0 <= len' < 8 /\ len' <= len /\
    forall x, m' x = if (p <=? x) && (x <? p + (len - len')) then 0 else m x.
Proof.
  induction fuel as [|fuel IH]; intros m p len Hlen Hfuel; [lia|].
  cbn [cleanse_words]. unfold sizeof_Word.
  destruct (8 <=? len) eqn:E.
  - apply Z.leb_le in E. rewrite u32_small by lia.
    destruct (IH (store_word m p 0) (p + 8) (len - 8)) as (m' & len' & Hrun & Hl & Hle & Hmem);
      [lia|lia|].
    exists m', len'. split.
    + rewrite Hrun. do 3 f_equal. lia.
    + split; [exact Hl|]. split; [lia|].
      intros x. rewrite Hmem, store_word_zero.
      replace (p + 8 + (len - 8 - len')) with (p + (len - len')) by lia.
      apply range_if_join. lia.
  - apply Z.leb_gt in E. exists m, len. split.
    + do 3 f_equal. lia.
    + split; [lia|]. split; [lia|]. intros x.
      replace (x <? p + (len - len)) with (x <? p) by (f_equal; lia).
      destruct (p <=? x) eqn:E1, (x <? p) eqn:E2; cbn [andb]; try reflexivity.
      apply Z.leb_le in E1. apply Z.ltb_lt in E2. lia.
Qed.

Lemma cleanse_remaining_spec :
  forall fuel m p len,
  0 <= len < 2 ^ 32 -> len < Z.of_nat fuel ->
  exists m', cleanse_remaining fuel m p len = Some m' /\
    forall x, m' x = if (p <=? x) && (x <? p + len) then 0 else m x.
Proof.
  induction fuel as [|fuel IH]; intros m p len Hlen Hfuel; [lia|].
  cbn [cleanse_remaining].
  destruct (len =? 0) eqn:E; cbn [negb].
  - apply Z.eqb_eq in E. subst len. exists m. split; [reflexivity|].
    intros x. destruct (p <=? x) eqn:E1, (x <? p + 0) eqn:E2; cbn [andb]; try reflexivity.
    apply Z.leb_le in E1. apply Z.ltb_lt in E2. lia.
  - apply Z.eqb_neq in E. rewrite u32_small by lia.
    destruct (IH (store_byte m p 0) (p + 1) (len - 1)) as (m' & Hrun & Hmem); [lia|lia|].
    exists m'. split; [exact Hrun|].
    intros x. rewrite Hmem. unfold store_byte. change (0 mod 256) with 0.
    replace (p + 1 + (len - 1)) with (p + len) by lia.
    replace (x =? p) with ((p <=? x) && (x <? p + 1)).
    + apply range_if_join. lia.
    + destruct (p <=? x) eqn:E1, (x <? p + 1) eqn:E2, (x =? p) eqn:E3;
        cbn [andb]; try reflexivity;
        rewrite ?Z.leb_le, ?Z.leb_gt, ?Z.ltb_lt, ?Z.ltb_ge, ?Z.eqb_eq, ?Z.eqb_neq in *; lia.
Qed.

(** [cleanse(addr, start, end)] returns and zeroes exactly the bytes
    [[addr + start, addr + end)]. *)
Lemma cleanse_spec m addr start end_ :
  0 <= start <= end_ -> end_ < 2 ^ 32 ->
  exists m', cleanse m addr start end_ = Some m' /\
    forall x, m' x = if (addr + start <=? x) && (x <? addr + end_) then 0 else m x.
Proof.
  intros Hse Hend. unfold cleanse, sizeof_Word.
  rewrite u32_small by lia.
  change (8 - 1) with (Z.ones 3). rewrite Z.land_ones by lia. change (2 ^ 3) with 8.
  set (len := end_ - start). set (p := addr + start).
  assert (Hlead : exists m1 n1,
    (if negb (start mod 8 =? 0)
     then cleanse_leading
            (Z.to_nat (if len <? 8 - start mod 8 then len else 8 - start mod 8)) m p len
     else (m, p, len)) = (m1, p + n1, len - n1) /\ 0 <= n1 <= len /\
    forall x, m1 x = if (p <=? x) && (x <? p + n1) then 0 else m x).
  { destruct (start mod 8 =? 0) eqn:E; cbn [negb].
    - exists m, 0. split; [do 2 f_equal; lia|]. split; [lia|].
      intros x. destruct (p <=? x) eqn:E1, (x <? p + 0) eqn:E2; cbn [andb]; try reflexivity.
      apply Z.leb_le in E1. apply Z.ltb_lt in E2. lia.
    - apply Z.eqb_neq in E.
      set (n := if len <? 8 - start mod 8 then len else 8 - start mod 8).
      assert (Hn : 0 <= n <= len).
      { subst n. destruct (len <? 8 - start mod 8) eqn:E1;
          rewrite ?Z.ltb_lt, ?Z.ltb_ge in E1; subst len;
          Z.div_mod_to_equations; lia. }
      destruct (cleanse_leading_spec (Z.to_nat n) m p len) as (m1 & Hrun & Hmem).
      { rewrite Z2Nat.id by lia. subst len. lia. }
      rewrite Z2Nat.id in * by lia.
      exists m1, n. auto. }
  destruct Hlead as (m1 & n1 & -> & Hn1 & Hm1).
  destruct (cleanse_words_spec (S (Z.to_nat (len - n1))) m1 (p + n1) (len - n1))
    as (m2 & len2 & Hrun2 & Hl2 & Hle2 & Hm2).
  { subst len. lia. }
  { rewrite Nat2Z.inj_succ, Z2Nat.id by lia. lia. }
  rewrite Hrun2.
  assert (Hjoin : forall x,
    m2 x = if (p <=? x) && (x <? p + n1 + (len - n1 - len2)) then 0 else m x).
  { intros x. rewrite Hm2, Hm1. apply range_if_join. lia. }
  destruct (len2 =? 0) eqn:E2; cbn [negb].
  - apply Z.eqb_eq in E2. exists m2. split; [reflexivity|].
    intros x. rewrite Hjoin.
    replace (p + n1 + (len - n1 - len2)) with (addr + end_) by (subst p len; lia).
    reflexivity.
  - destruct (cleanse_remaining_spec (S (Z.to_nat len2)) m2
                (p + n1 + (len - n1 - len2)) len2) as (m3 & Hrun3 & Hm3).
    { lia. }
    { rewrite Nat2Z.inj_succ, Z2Nat.id by lia. lia. }
    exists m3. split; [exact Hrun3|].
    intros x. rewrite Hm3.
    replace (m2 x) with (if (p <=? x) && (x <? p + n1 + (len - n1 - len2)) then 0 else m x)
      by (symmetry; apply Hjoin).
    replace (addr + end_) with (p + n1 + (len - n1 - len2) + len2) by (subst p len; lia).
    apply range_if_join. lia.
Qed.

(** ** The allocator interface *)

Lemma bind_ret_inv {S A B} (x : outcome S A) (f : A -> S -> outcome S B) b s' :
  bind x f = Ret b s' -> exists a s1, x = Ret a s1 /\ f a s1 = Ret b s'.
Proof.
  destruct x as [a s1| |]; cbn [bind]; intros H; try discriminate.
  exists a, s1. auto.
Qed.

Lemma lift_ret_inv {S A} (o : option A) (s : S) a s' :
  lift o s = Ret a s' -> o = Some a /\ s' = s.
Proof.
  destruct o; cbn [lift]; intros H; [|discriminate].
  injection H as -> ->. auto.
Qed.

Lemma load_byte_range m a : 0 <= load_byte m a < 256.
Proof. unfold load_byte. apply Z.mod_pos_bound. lia. Qed.

Lemma load_word_range m a : 0 <= load_word m a < 2 ^ 64.
Proof.
  unfold load_word.
  pose proof (load_byte_range m a). pose proof (load_byte_range m (a + 1)).
  pose proof (load_byte_range m (a + 2)). pose proof (load_byte_range m (a + 3)).
  pose proof (load_byte_range m (a + 4)). pose proof (load_byte_range m (a + 5)).
  pose proof (load_byte_range m (a + 6)). pose proof (load_byte_range m (a + 7)).
  change (2 ^ 8) with 256. change (2 ^ 16) with 65536. change (2 ^ 24) with 16777216.
  change (2 ^ 32) with 4294967296. change (2 ^ 40) with 1099511627776.
  change (2 ^ 48) with 281474976710656. change (2 ^ 56) with 72057594037927936.
  change (2 ^ 64) with 18446744073709551616. lia.
Qed.

Lemma bitmap_of_wf m bm_page : wf_bitmap (bitmap_of m bm_page).
Proof. intros i. apply load_word_range. Qed.


Section AddressClass.

Variable sys_page_size : Z.
Hypothesis Hps : page_size_ok sys_page_size.

Local Abbreviation upp := (units_per_page sys_page_size).
Local Abbreviation hdr := (bm_page_header_size_in_units sys_page_size).
Local Abbreviation mdu := (max_data_units sys_page_size).

Lemma bm_page_from_addr_eq addr :
  bm_page_from_addr sys_page_size addr = addr - addr mod sys_page_size.
Proof.
  destruct Hps as (k & Hk & ->). unfold bm_page_from_addr.
  replace (2 ^ k - 1) with (Z.ones k) by (rewrite Z.ones_equiv; lia).
  rewrite <- Z.ldiff_land, Z.ldiff_ones_r by lia.
  rewrite Z.shiftl_mul_pow2, Z.shiftr_div_pow2 by lia.
  assert (0 < 2 ^ k) by (apply Z.pow_pos_nonneg; lia).
  Z.div_mod_to_equations; lia.
Qed.

(** An address at a unit offset of the data area of a page-aligned page
    fails the page-alignment test, and the page and the offset are
    recovered from it. *)
Lemma data_area_address bm_page offset :
  bm_page mod sys_page_size = 0 -> hdr <= offset < upp ->
  let addr := bm_page + u32 (offset * UNIT_SIZE) in
  addr mod sys_page_size <> 0 /\
  bm_page_from_addr sys_page_size addr = bm_page /\
  (addr =? bm_page_from_addr sys_page_size addr) = false /\
  ptrdiff_to_units addr (bm_page_from_addr sys_page_size addr) = offset.
Proof.
  intros Hal Hoff addr.
  pose proof (page_size_bounds _ Hps) as [Hb Hm].
  pose proof (upp_bounds _ Hps) as [Hub Hum].
  pose proof (hdr_bounds _ Hps) as Hh.
  change (2 ^ 28) with 268435456 in Hub. change (2 ^ 32) with 4294967296 in Hb.
  assert (Hupp : sys_page_size = 16 * upp).
  { unfold units_per_page, UNIT_SIZE. Z.div_mod_to_equations; lia. }
  assert (Hu : u32 (offset * UNIT_SIZE) = 16 * offset).
  { unfold UNIT_SIZE. rewrite u32_small by (change (2 ^ 32) with 4294967296; lia). lia. }
  assert (Hmod : addr mod sys_page_size = 16 * offset).
  { subst addr. rewrite Hu.
    rewrite <- Zplus_mod_idemp_l, Hal, Z.add_0_l. apply Z.mod_small. lia. }
  assert (Hpage : bm_page_from_addr sys_page_size addr = bm_page).
  { rewrite bm_page_from_addr_eq, Hmod. subst addr. rewrite Hu. lia. }
  split; [lia|]. split; [exact Hpage|]. split.
  - rewrite Hpage. apply Z.eqb_neq. subst addr. rewrite Hu. lia.
  - rewrite Hpage. unfold ptrdiff_to_units, UNIT_SIZE. subst addr. rewrite Hu.
    replace (bm_page + 16 * offset - bm_page) with (offset * 16) by lia.
    rewrite Z.div_mul by lia.
    apply u32_small. change (2 ^ 32) with 4294967296. lia.
Qed.

Lemma aligned_address_is_page addr :
  addr mod sys_page_size = 0 ->
  (addr =? bm_page_from_addr sys_page_size addr) = true.
Proof.
  intros H. rewrite bm_page_from_addr_eq, H. apply Z.eqb_eq. lia.
Qed.

(** [find_available_page] hands out what one of the slots from
    [num_units] up held. *)
Lemma find_available_page_loop_slot :
  forall n s list bm_page s',
  find_available_page_loop n s list = (bm_page, s') ->
  bm_page = 0 \/
  exists i, 0 <= i < Z.of_nat n /\ bm_page = load_word (mem s) (list + 8 * i).
Proof.
  induction n as [|n IH]; intros s list bm_page s' H; cbn [find_available_page_loop] in H.
  - injection H as <- _. now left.
  - destruct (load_word (mem s) list =? 0) eqn:E; cbn [negb] in H.
    + destruct (IH _ _ _ _ H) as [|(i & Hi & ->)]; [now left|right].
      exists (i + 1). split; [lia|]. f_equal. lia.
    + injection H as <- _. right. exists 0. split; [lia|]. f_equal. lia.
Qed.

Lemma out_result (clean : bool) (num_units result : Z) (s : State) addr s' :
  (let s := if negb (result =? 0) then add_blocks_allocated s 1 else s in
   if negb (result =? 0) && clean then
     dolet m, s <- lift (cleanse (mem s) result 0 (u32 (num_units * UNIT_SIZE))) s ;;
     Ret result (set_mem s m)
   else Ret result s) = Ret addr s' ->
  addr = result.
Proof.
  cbv zeta. destruct (negb (result =? 0) && clean).
  - intros H. apply bind_ret_inv in H. destruct H as (m & s1 & _ & H).
    now injection H as <- _.
  - intros H. now injection H as <- _.
Qed.

(** The block returned by [bm_allocate] starts at a unit offset of the
    data area of the page it was taken from, a page found in a slot of the
    superblock or a fresh one. *)
Lemma bm_allocate_address os_mmap s num_units clean addr s' :
  0 <= num_units ->
  bm_allocate sys_page_size os_mmap s num_units clean = Ret addr s' -> addr <> 0 ->
  exists bm_page offset,
    ((exists k, num_units <= k <= mdu /\ bm_page = load_word (mem s) (slot s k)) \/
     os_mmap (mapped s) sys_page_size = Some bm_page) /\
    hdr <= offset < upp /\
    addr = bm_page + u32 (offset * UNIT_SIZE).
Proof.
  intros Hu Hrun Hnz.
  pose proof (hdr_bounds _ Hps) as Hh.
  unfold bm_allocate in Hrun.
  destruct (find_available_page sys_page_size s num_units) as [bm_page s1] eqn:Hfind.
  destruct (bm_page =? 0) eqn:Hpage; cbn [negb] in Hrun.
  - (* a fresh page *)
    apply bind_ret_inv in Hrun. destruct Hrun as (page & s2 & Hmap & Hrun).
    unfold call_mmap in Hmap.
    assert (Hs1 : mapped s1 = mapped s).
    { clear - Hfind. unfold find_available_page in Hfind.
      revert Hfind. generalize (slot s num_units).
      induction (Z.to_nat (max_data_units sys_page_size + 1 - num_units)) as [|n IH];
        intros list H; cbn [find_available_page_loop] in H.
      - now injection H as _ <-.
      - destruct (load_word (mem s) list =? 0); cbn [negb] in H; [eauto|].
        injection H as _ <-. unfold delete_from_list.
        destruct (_ =? _); reflexivity. }
    destruct (os_mmap (mapped s1) sys_page_size) as [a|] eqn:Hos.
    + injection Hmap as <- <-.
      destruct (a =? 0) eqn:Ha.
      * apply out_result in Hrun. congruence.
      * apply bind_ret_inv in Hrun. destruct Hrun as (m & s3 & _ & Hrun).
        apply out_result in Hrun.
        exists a, hdr. split; [right; congruence|]. split; [lia|exact Hrun].
    + injection Hmap as <- <-. cbn in Hrun.
      injection Hrun as E _. congruence.
  - (* a page of the superblock *)
    apply bind_ret_inv in Hrun. destruct Hrun as (offset & s2 & Hoff & Hrun).
    apply lift_ret_inv in Hoff. destruct Hoff as [Hoff ->].
    destruct (offset =? 0) eqn:Hz; [discriminate Hrun|].
    apply Z.eqb_neq in Hz.
    apply bind_ret_inv in Hrun. destruct Hrun as (m & s3 & _ & Hrun).
    apply bind_ret_inv in Hrun. destruct Hrun as ([] & s4 & _ & Hrun).
    apply out_result in Hrun.
    exists bm_page, offset. split; [left|split; [|exact Hrun]].
    + unfold find_available_page in Hfind.
      apply find_available_page_loop_slot in Hfind.
      destruct Hfind as [E|(i & Hi & E)]; [apply Z.eqb_neq in Hpage; contradiction|].
      exists (num_units + i). split.
      * lia.
      * rewrite E. unfold slot. f_equal. lia.
    + unfold find_free_block in Hoff.
      destruct (find_free_block_loop_total _ Hps (bitmap_of (mem s1) bm_page) num_units
                  (bitmap_of_wf _ _) (scan_fuel sys_page_size) hdr) as (r & Hr & Hcase).
      { pose proof (upp_bounds _ Hps). lia. }
      { unfold scan_fuel. pose proof (upp_bounds _ Hps).
        rewrite Nat2Z.inj_succ, Z2Nat.id by lia. lia. }
      rewrite Hr in Hoff. injection Hoff as ->.
      destruct Hcase as [|[Hrange _]]; [contradiction|exact Hrange].
Qed.

End AddressClass.

(** ** The debug adaptor *)

Section DebugFacts.

Import Debug.

Lemma damaged_lower_total m region_start :
  forall fuel i acc,
  15 <= i < 2 ^ 32 -> i - 15 < Z.of_nat fuel ->
  exists c, damaged_lower fuel m region_start i acc = Some c.
Proof.
  induction fuel as [|fuel IH]; intros i acc Hi Hfuel; [lia|].
  cbn [damaged_lower]. unfold sizeof_MemBlockInfo.
  destruct (16 <=? i) eqn:E.
  - apply Z.leb_le in E. rewrite (u32_small (i - 1)) by lia.
    apply IH; lia.
  - eexists. reflexivity.
Qed.

(** The upper scan returns, and counts at least one byte as soon as one
    byte of the zone is not [0xFF]. *)
Lemma damaged_upper_spec m region_end :
  forall fuel p acc,
  0 <= acc -> p <= region_end -> acc + (region_end - p) < 2 ^ 32 ->
  region_end - p < Z.of_nat fuel ->
  exists c, damaged_upper fuel m region_end p acc = Some c /\ acc <= c /\
    ((exists a, p <= a < region_end /\ load_byte m a <> 0xFF) -> acc < c).
Proof.
  induction fuel as [|fuel IH]; intros p acc Hacc Hple Hroom Hfuel; [lia|].
  cbn [damaged_upper].
  destruct (p <? region_end) eqn:E.
  - apply Z.ltb_lt in E.
    destruct (load_byte m p =? 255) eqn:Hb; cbn [negb].
    + apply Z.eqb_eq in Hb.
      destruct (IH (p + 1) acc) as (c & Hc & Hle & Hdam); try lia.
      exists c. split; [exact Hc|]. split; [exact Hle|].
      intros (a & Ha & Hne). apply Hdam.
      exists a. split; [|exact Hne].
      destruct (Z.eq_dec a p) as [->|]; [contradiction|lia].
    + rewrite (u32_small (acc + 1)) by lia.
      destruct (IH (p + 1) (acc + 1)) as (c & Hc & Hle & Hdam); try lia.
      exists c. split; [exact Hc|]. split; [lia|]. intros _. lia.
  - apply Z.ltb_ge in E. exists acc. split; [reflexivity|]. split; [lia|].
    intros (a & Ha & _). lia.
Qed.

(** A block whose upper red zone holds a byte other than [0xFF] does not
    pass [check_region]. *)
Lemma check_region_upper_damage s block nbytes :
  0 <= nbytes -> nbytes + 80 < 2 ^ 32 ->
  (exists a, block + nbytes <= a < block + nbytes + BUBBLEWRAP /\
             load_byte (mem s) a <> 0xFF) ->
  exists s', check_region s block nbytes = Aborted s'.
Proof.
  intros Hn Hfit Hdam. unfold check_region.
  destruct (damaged_lower_total (mem s) (region_from_block block)
              (S (Z.to_nat BUBBLEWRAP)) (sizeof_MemBlockInfo + BUBBLEWRAP - 1) 0)
    as (lo & Hlo).
  { unfold sizeof_MemBlockInfo, BUBBLEWRAP. change (2 ^ 32) with 4294967296. lia. }
  { unfold sizeof_MemBlockInfo, BUBBLEWRAP. lia. }
  rewrite Hlo. cbn [lift bind].
  assert (Hsize : calc_memsize nbytes = nbytes + 80).
  { unfold calc_memsize, sizeof_MemBlockInfo, BUBBLEWRAP.
    rewrite u32_small by lia. lia. }
  rewrite Hsize.
  assert (Hend : region_from_block block + (nbytes + 80) = block + nbytes + BUBBLEWRAP).
  { unfold region_from_block, sizeof_MemBlockInfo, BUBBLEWRAP. lia. }
  assert (Hbe : block_from_region (region_from_block block) + nbytes = block + nbytes).
  { unfold block_from_region, region_from_block. lia. }
  rewrite Hend, Hbe.
  destruct (damaged_upper_spec (mem s) (block + nbytes + BUBBLEWRAP)
              (S (Z.to_nat (block + nbytes + BUBBLEWRAP - (block + nbytes))))
              (block + nbytes) 0)
    as (up & Hup & _ & Hpos).
  { lia. }
  { unfold BUBBLEWRAP. lia. }
  { unfold BUBBLEWRAP. change (2 ^ 32) with 4294967296. lia. }
  { unfold BUBBLEWRAP. lia. }
  rewrite Hup. cbn [lift bind].
  specialize (Hpos Hdam).
  assert (Hnz : (up =? 0) = false) by (apply Z.eqb_neq; lia).
  rewrite Hnz. cbn [negb orb andb].
  destruct (lo =? 0); cbn [negb]; eexists; reflexivity.
Qed.

Lemma check_region_ret s block nbytes s1 :
  check_region s block nbytes = Ret tt s1 -> s1 = s.
Proof.
  unfold check_region.
  destruct (damaged_lower _ _ _ _ _) as [lo|]; cbn [lift bind]; [|discriminate].
  destruct (damaged_upper _ _ _ _ _) as [up|]; cbn [lift bind]; [|discriminate].
  destruct (negb (up =? 0) || negb (lo =? 0)).
  - destruct (negb (up =? 0) && negb (lo =? 0)); [discriminate|].
    destruct (negb (up =? 0)); discriminate.
  - intros H. now injection H as <-.
Qed.

Lemma calc_memsize_fits nbytes region_start :
  0 <= nbytes < 2 ^ 32 ->
  region_start + sizeof_MemBlockInfo + BUBBLEWRAP + nbytes
    < region_start + calc_memsize nbytes ->
  calc_memsize nbytes = nbytes + 80 /\ nbytes + 80 < 2 ^ 32.
Proof.
  unfold calc_memsize, sizeof_MemBlockInfo, BUBBLEWRAP, u32.
  change (2 ^ 32) with 4294967296. intros Hn Hfit.
  Z.div_mod_to_equations; lia.
Qed.

(** What a successful [_allocate] without [clean] does: the block starts
    48 bytes into the region and only bytes of the region are written. *)
Lemma allocate_ret s region_start nbytes a s1 :
  0 <= nbytes < 2 ^ 32 ->
  _allocate s region_start nbytes false = Ret a s1 -> a <> 0 ->
  a = block_from_region region_start /\
  nbytes + 80 < 2 ^ 32 /\
  forall x, ~ region_start <= x < region_start + calc_memsize nbytes ->
            mem s1 x = mem s x.
Proof.
  intros Hn Hrun Ha. unfold _allocate in Hrun. cbn [andb] in Hrun.
  destruct (region_start =? 0); [injection Hrun as <- _; contradiction|].
  destruct (region_start + calc_memsize nbytes <=?
            region_start + sizeof_MemBlockInfo + BUBBLEWRAP + nbytes) eqn:Hfit;
    [discriminate Hrun|].
  apply Z.leb_gt in Hfit.
  pose proof (calc_memsize_fits nbytes region_start Hn Hfit) as [Hsize Hroom].
  injection Hrun as <- <-.
  split; [reflexivity|]. split; [exact Hroom|].
  intros x Hx. cbn [mem set_mem add_blocks_allocated].
  rewrite Hsize in *.
  unfold store_u32, store_word, memset, sizeof_MemBlockInfo, BUBBLEWRAP in *.
  repeat match goal with
  | |- context [if ?c then _ else _] =>
    replace c with false
      by (symmetry; apply andb_false_iff; rewrite Z.leb_gt, Z.ltb_ge; lia)
  end.
  reflexivity.
Qed.

End DebugFacts.

Ltac decide_ranges :=
  repeat match goal with
  | |- context [if ?c then _ else _] =>
    first
      [ replace c with true
          by (symmetry; apply andb_true_iff; split; [apply Z.leb_le|apply Z.ltb_lt]; lia)
      | replace c with false
          by (symmetry; apply andb_false_iff; rewrite Z.leb_gt, Z.ltb_ge; lia) ]
  end.

Section DebugMore.

Import Debug.

Lemma damaged_lower_spec m region_start :
  forall fuel i acc,
  15 <= i -> 0 <= acc -> acc + i < 2 ^ 32 -> i - 15 < Z.of_nat fuel ->
  exists c, damaged_lower fuel m region_start i acc = Some c /\ acc <= c /\
    ((exists j, 16 <= j <= i /\ load_byte m (region_start + j) <> 0xFF) -> acc < c) /\
    ((forall j, 16 <= j <= i -> load_byte m (region_start + j) = 0xFF) -> c = acc).
Proof.
  induction fuel as [|fuel IH]; intros i acc Hi Hacc Hroom Hfuel; [lia|].
  cbn [damaged_lower]. unfold sizeof_MemBlockInfo.
  destruct (16 <=? i) eqn:E.
  - apply Z.leb_le in E. rewrite (u32_small (i - 1)) by lia.
    destruct (load_byte m (region_start + i) =? 255) eqn:Hb; cbn [negb].
    + apply Z.eqb_eq in Hb.
      destruct (IH (i - 1) acc) as (c & Hc & Hle & Hdam & Hclean); try lia.
      exists c. split; [exact Hc|]. split; [exact Hle|]. split.
      * intros (j & Hj & Hne). apply Hdam. exists j. split; [|exact Hne].
        destruct (Z.eq_dec j i) as [->|]; [contradiction|lia].
      * intros Hall. apply Hclean. intros j Hj. apply Hall. lia.
    + apply Z.eqb_neq in Hb. rewrite (u32_small (acc + 1)) by lia.
      destruct (IH (i - 1) (acc + 1)) as (c & Hc & Hle & _ & _); try lia.
      exists c. split; [exact Hc|]. split; [lia|]. split; [intros _; lia|].
      intros Hall. exfalso. apply Hb. apply Hall. lia.
  - apply Z.leb_gt in E. exists acc. split; [reflexivity|]. split; [lia|]. split.
    + intros (j & Hj & _). lia.
    + reflexivity.
Qed.

Lemma damaged_upper_clean m region_end :
  forall fuel p acc,
  p <= region_end -> region_end - p < Z.of_nat fuel ->
  (forall a, p <= a < region_end -> load_byte m a = 0xFF) ->
  damaged_upper fuel m region_end p acc = Some acc.
Proof.
  induction fuel as [|fuel IH]; intros p acc Hp Hfuel Hall; [lia|].
  cbn [damaged_upper].
  destruct (p <? region_end) eqn:E; [|reflexivity].
  apply Z.ltb_lt in E. rewrite (Hall p) by lia. cbn.
  apply IH; try lia. intros a Ha. apply Hall. lia.
Qed.

(** What [check_region] decides, for a block whose region fits
    [unsigned]. *)
Lemma check_region_spec s block nbytes :
  0 <= nbytes -> nbytes + 80 < 2 ^ 32 ->
  ((forall x, block - BUBBLEWRAP <= x < block \/
              block + nbytes <= x < block + nbytes + BUBBLEWRAP ->
              load_byte (mem s) x = 0xFF) ->
   check_region s block nbytes = Ret tt s) /\
  ((exists x, (block - BUBBLEWRAP <= x < block \/
               block + nbytes <= x < block + nbytes + BUBBLEWRAP) /\
              load_byte (mem s) x <> 0xFF) ->
   exists msg, check_region s block nbytes = Aborted (say s msg)).
Proof.
  intros Hn Hfit. unfold check_region.
  destruct (damaged_lower_spec (mem s) (region_from_block block)
              (S (Z.to_nat BUBBLEWRAP)) (sizeof_MemBlockInfo + BUBBLEWRAP - 1) 0)
    as (lo & Hlo & _ & Hlodam & Hloclean).
  { unfold sizeof_MemBlockInfo, BUBBLEWRAP. lia. }
  { lia. }
  { unfold sizeof_MemBlockInfo, BUBBLEWRAP. change (2 ^ 32) with 4294967296. lia. }
  { unfold sizeof_MemBlockInfo, BUBBLEWRAP. lia. }
  rewrite Hlo. cbn [lift bind].
  assert (Hsize : calc_memsize nbytes = nbytes + 80).
  { unfold calc_memsize, sizeof_MemBlockInfo, BUBBLEWRAP.
    rewrite u32_small by lia. lia. }
  rewrite Hsize.
  assert (Hend : region_from_block block + (nbytes + 80) = block + nbytes + BUBBLEWRAP).
  { unfold region_from_block, sizeof_MemBlockInfo, BUBBLEWRAP. lia. }
  assert (Hbe : block_from_region (region_from_block block) + nbytes = block + nbytes).
  { unfold block_from_region, region_from_block. lia. }
  rewrite Hend, Hbe.
  destruct (damaged_upper_spec (mem s) (block + nbytes + BUBBLEWRAP)
              (S (Z.to_nat (block + nbytes + BUBBLEWRAP - (block + nbytes))))
              (block + nbytes) 0)
    as (up & Hup & Hup0 & Hupdam).
  { lia. }
  { unfold BUBBLEWRAP. lia. }
  { unfold BUBBLEWRAP. change (2 ^ 32) with 4294967296. lia. }
  { unfold BUBBLEWRAP. lia. }
  unfold region_from_block, sizeof_MemBlockInfo, BUBBLEWRAP in *.
  split.
  - intros Hall.
    rewrite damaged_upper_clean.
    2:{ lia. } 2:{ lia. } 2:{ intros a Ha. apply Hall. lia. }
    cbn [lift bind].
    rewrite Hloclean.
    2:{ intros j Hj. apply Hall. lia. }
    reflexivity.
  - intros (x & Hx & Hbyte). rewrite Hup. cbn [lift bind].
    destruct Hx as [Hxlo|Hxup].
    + assert (Hpos : 0 < lo).
      { apply Hlodam. exists (x - (block - 16 - 32)). split; [lia|].
        replace (block - 16 - 32 + (x - (block - 16 - 32))) with x by lia. exact Hbyte. }
      replace (lo =? 0) with false by (symmetry; apply Z.eqb_neq; lia).
      destruct (up =? 0); cbn [negb orb andb]; eexists; reflexivity.
    + assert (Hpos : 0 < up).
      { apply Hupdam. exists x. split; [lia|exact Hbyte]. }
      replace (up =? 0) with false by (symmetry; apply Z.eqb_neq; lia).
      destruct (lo =? 0); cbn [negb orb andb]; eexists; reflexivity.
Qed.

End DebugMore.

Lemma debug_release_spec (s : Debug.State) (addr nbytes : Z) :
  addr <> 0 -> 0 <= nbytes -> nbytes + 80 < 2 ^ 32 ->
  ((forall x, addr - Debug.BUBBLEWRAP <= x < addr \/
              addr + nbytes <= x < addr + nbytes + Debug.BUBBLEWRAP ->
              load_byte (Debug.mem s) x = 0xFF) ->
   Debug._release s addr nbytes = Ret 0 (Debug.add_blocks_allocated s (-1))) /\
  ((exists x, (addr - Debug.BUBBLEWRAP <= x < addr \/
               addr + nbytes <= x < addr + nbytes + Debug.BUBBLEWRAP) /\
              load_byte (Debug.mem s) x <> 0xFF) ->
   exists msg, Debug._release s addr nbytes = Aborted (Debug.say s msg)).
Proof.
  intros Ha Hn Hfit. unfold Debug._release.
  replace (addr =? 0) with false by (symmetry; now apply Z.eqb_neq).
  destruct (check_region_spec s addr nbytes Hn Hfit) as [Hpass Hfail].
  split.
  - intros Hall. rewrite (Hpass Hall). reflexivity.
  - intros Hdam. destruct (Hfail Hdam) as (msg & ->). exists msg. reflexivity.
Qed.

Section DebugAllocate.

Import Debug.

Lemma debug_allocate_spec s region_start nbytes clean a s1 :
  0 <= nbytes < 2 ^ 32 ->
  _allocate s region_start nbytes clean = Ret a s1 -> a <> 0 ->
  a = block_from_region region_start /\
  nbytes + 80 < 2 ^ 32 /\
  (forall x, a - BUBBLEWRAP <= x < a \/ a + nbytes <= x < a + nbytes + BUBBLEWRAP ->
             load_byte (mem s1) x = 0xFF) /\
  (forall x, a <= x < a + nbytes ->
             mem s1 x = if clean then 0 else mem s x) /\
  (forall x, ~ region_start <= x < region_start + (nbytes + 80) -> mem s1 x = mem s x) /\
  blocks_allocated s1 = u64 (blocks_allocated s + 1) /\
  err_log s1 = err_log s.
Proof.
  intros Hn Hrun Ha. unfold _allocate in Hrun.
  destruct (region_start =? 0) eqn:Hr.
  { rewrite andb_false_r in Hrun. injection Hrun as <- _. contradiction. }
  rewrite andb_true_r in Hrun.
  set (s0 := if clean then set_mem s (memset (mem s) region_start 0 (calc_memsize nbytes))
             else s) in *.
  destruct (region_start + calc_memsize nbytes <=?
            region_start + sizeof_MemBlockInfo + BUBBLEWRAP + nbytes) eqn:Hfit;
    [discriminate Hrun|].
  apply Z.leb_gt in Hfit.
  pose proof (calc_memsize_fits nbytes region_start Hn Hfit) as [Hsize Hroom].
  injection Hrun as <- <-.
  rewrite Hsize in *.
  unfold block_from_region, sizeof_MemBlockInfo, BUBBLEWRAP in *.
  split; [reflexivity|]. split; [exact Hroom|].
  assert (Hbooks : blocks_allocated s0 = blocks_allocated s /\ err_log s0 = err_log s).
  { subst s0. destruct clean; split; reflexivity. }
  split; [|split; [|split; [|split]]].
  - intros x Hx. cbn [mem set_mem add_blocks_allocated].
    unfold load_byte, store_u32, store_word, memset.
    destruct Hx as [Hx|Hx]; decide_ranges; reflexivity.
  - intros x Hx. cbn [mem set_mem add_blocks_allocated].
    unfold store_u32, store_word, memset. decide_ranges.
    subst s0. destruct clean; cbn [mem set_mem]; [|reflexivity].
    unfold memset. decide_ranges. reflexivity.
  - intros x Hx. cbn [mem set_mem add_blocks_allocated].
    unfold store_u32, store_word, memset. decide_ranges.
    subst s0. destruct clean; cbn [mem set_mem]; [|reflexivity].
    unfold memset. decide_ranges. reflexivity.
  - cbn. now rewrite (proj1 Hbooks).
  - cbn. exact (proj2 Hbooks).
Qed.

End DebugAllocate.

Section DebugShrink.

Import Debug.


End DebugShrink.

(** ** The claims of the specification *)

Lemma returned_value_state {S A} (x : outcome S A) (da : A) (ds : S) :
  returns x (fun _ _ => True) -> x = Ret (value_of x da) (state_of x ds).
Proof. destruct x; cbn; intros H; [reflexivity|contradiction|contradiction]. Qed.

Lemma page_size_ok_4096 : page_size_ok 4096.
Proof. exists 12. split; [lia|reflexivity]. Qed.

Lemma sample_bitmap_wf : wf_bitmap Machine.sample_bitmap.
Proof.
  intros i. unfold Machine.sample_bitmap.
  destruct (i =? 0); change (2 ^ 64) with 18446744073709551616; lia.
Qed.

(** [_init] on a zeroed memory reaches [Machine.booted]: the superblock
    page is the first page mapped and all its slots are empty. *)
Lemma init_reaches_booted :
  returns (_init Machine.sys_page_size Machine.os_mmap (fun _ => 0))
    (fun _ s => superblock s = superblock Machine.booted /\
                mapped s = mapped Machine.booted /\
                blocks_allocated s = 0 /\ num_bm_pages s = 0 /\ err_log s = [] /\
                forall x, mem s x = mem Machine.booted x).
Proof.
  unfold _init, call_mmap. cbn [mapped Machine.os_mmap map fold_right].
  cbn [mem set_mapped].
  destruct (cleanse_spec (fun _ => 0) 65536 0 Machine.sys_page_size) as (m' & Hrun & Hm');
    [unfold Machine.sys_page_size; lia|
     unfold Machine.sys_page_size; change (2 ^ 32) with 4294967296; lia|].
  rewrite Hrun. cbn [lift bind]. cbn.
  repeat split. intros x. rewrite Hm'. now destruct (_ && _).
Qed.

(** C1 (the code departs from it).  A large block of two pages is
    reallocated to 16 bytes and the small allocation succeeds: the call
    returns true with a new small address, but the large mapping is not
    given back to the kernel.  [bm_release] is run on it as if it were a
    bitmap page: both its pages stay mapped and the block is linked into
    [superblock[0]]. *)
Theorem large_to_small_shrink_keeps_mapping :
  returns Machine.large_block (fun a s =>
    a = Machine.page_A /\
    mapped s = [Machine.page_A; Machine.page_B; 0x10000]) /\
  returns Machine.large_block_shrunk (fun r s =>
    r = mkRealloc true (Machine.page_C + 64) true /\
    mapped s = [Machine.page_C; Machine.page_A; Machine.page_B; 0x10000] /\
    bucket_pages 8 s 0 = [Machine.page_A] /\
    blocks_allocated s = 1 /\ num_bm_pages s = 1).
Proof. vm_compute. repeat split. Qed.

(** C2 (the code departs from it).  Pages A and B are the two members of
    the list of [superblock[2]].  [delete_from_list] of A stores the slot
    empty, so that B, which nobody detached and whose links still point
    to A, is no longer reachable from the slot. *)
Theorem delete_from_list_two_pages_empties_slot :
  returns Machine.two_pages (fun _ s =>
    bucket_pages 8 s 2 = [Machine.page_A; Machine.page_B] /\
    let s' := delete_from_list s Machine.page_A in
    load_word (mem s') (slot s' 2) = 0 /\
    bucket_pages 8 s' 2 = [] /\
    get_list (mem s') Machine.page_B = slot s' 2 /\
    get_next (mem s') Machine.page_B = Machine.page_A /\
    get_prev (mem s') Machine.page_B = Machine.page_A).
Proof. vm_compute. repeat split. Qed.

(** C3 (the code departs from it).  Page A holds one-unit blocks at
    offsets 4 and 5 and is the page of [superblock[250]].  Growing the
    first block to two units fails, the bitmap is left as it was, but the
    page has been taken out of its bucket and is not put back. *)
Theorem bm_grow_failure_leaves_page_detached :
  returns Machine.two_blocks (fun _ s =>
    bucket_pages 8 s 250 = [Machine.page_A] /\
    returns (bm_grow Machine.sys_page_size s Machine.page_A 4 1 2) (fun grown s' =>
      grown = false /\
      bitmap_words_of (mem s') Machine.page_A = bitmap_words_of (mem s) Machine.page_A /\
      bucket_pages 8 s' 250 = [] /\
      load_word (mem s') (slot s' 250) = 0)).
Proof. vm_compute. repeat split. Qed.

(** C4 (the code departs from it).  After allocations, releases and one
    reallocate of small blocks, page A is reached from [superblock[248]]
    while its longest free run is 250 units. *)
Theorem bucket_invariant_broken_by_grow :
  returns Machine.three_pages (fun _ s =>
    bucket_pages 8 s 250 = [Machine.page_C; Machine.page_B; Machine.page_A]) /\
  returns Machine.three_pages_grow (fun r s =>
    r = mkRealloc true (Machine.page_C + 96) true /\
    bucket_pages 8 s 248 = [Machine.page_C; Machine.page_A] /\
    find_longest_free_block Machine.sys_page_size (bitmap_of (mem s) Machine.page_A)
      = Some 250 /\
    find_longest_free_block Machine.sys_page_size (bitmap_of (mem s) Machine.page_C)
      = Some 248).
Proof. vm_compute. repeat split. Qed.

(** The part of C4 about fresh pages, for every small size. *)
Example fresh_page_goes_to_its_bucket :
  forallb Machine.fresh_page_check (map Z.of_nat (seq 1 251)) = true.
Proof. vm_compute. reflexivity. Qed.

(** C5 (the code departs from it).  With both sizes zero [_reallocate]
    leaves through its first test, [old_nbytes == new_nbytes]: it returns
    true, keeps the address and prints nothing, whatever the address
    is. *)
Theorem reallocate_both_sizes_zero_succeeds
    (sys_page_size : Z) (os_mmap : list Z -> Z -> option Z)
    (os_mremap : list Z -> Z -> Z -> Z -> bool -> option Z)
    (os_munmap : list Z -> Z -> Z -> bool)
    (s : State) (addr : Z) (clean : bool) :
  _reallocate sys_page_size os_mmap os_mremap os_munmap s addr 0 0 clean
    = Ret (mkRealloc true addr false) s.
Proof. reflexivity. Qed.



(** C7.  [count_zero_bits] from an offset inside the bitmap returns a
    count [c]: the bits of [[offset, offset + c)] are zero, the run stays
    inside the bitmap, and [c] is below the hint only if the run of zeros
    ends there, at the end of the bitmap or at a set bit.  Nothing bounds
    [c] by the hint. *)
Theorem count_zero_bits_run (sys_page_size : Z) (bm : Z -> Z) (offset hint : Z) :
  page_size_ok sys_page_size -> wf_bitmap bm ->
  0 <= offset < units_per_page sys_page_size ->
  exists c, count_zero_bits sys_page_size bm offset hint = Some c /\
    0 <= c /\
    (forall i, offset <= i < offset + c -> bm_bit bm i = false) /\
    offset + c <= units_per_page sys_page_size /\
    (c < hint ->
     offset + c = units_per_page sys_page_size \/ bm_bit bm (offset + c) = true).
Proof.
  intros Hps Hbm Hoff. apply count_zero_bits_spec; [assumption|assumption|lia].
Qed.

Lemma count_zero_bits_run_witness :
  page_size_ok 4096 /\ wf_bitmap Machine.sample_bitmap /\
  0 <= 6 < units_per_page 4096 /\
  exists c, count_zero_bits 4096 Machine.sample_bitmap 6 300 = Some c /\
    0 <= c /\
    (forall i, 6 <= i < 6 + c -> bm_bit Machine.sample_bitmap i = false) /\
    6 + c <= units_per_page 4096 /\
    (c < 300 -> 6 + c = units_per_page 4096 \/ bm_bit Machine.sample_bitmap (6 + c) = true).
Proof.
  assert (H : 0 <= 6 < units_per_page 4096) by (vm_compute; split; congruence).
  split; [exact page_size_ok_4096|]. split; [exact sample_bitmap_wf|].
  split; [exact H|].
  exact (count_zero_bits_run 4096 Machine.sample_bitmap 6 300
           page_size_ok_4096 sample_bitmap_wf H).
Defined.

(** The count can exceed the hint: from bit 6 with hint 1 the whole rest
    of the first word is counted. *)
Example count_zero_bits_exceeds_hint :
  count_zero_bits 4096 Machine.sample_bitmap 6 1 = Some 58.
Proof. reflexivity. Qed.

(** One call of [_allocate], the superblock slots holding page-aligned
    pointers and the kernel mapping at page boundaries: on the small path
    the block starts at a unit offset of the data area of its page, from
    [bm_page_header_size_in_units] up, it is not page-aligned and the
    page and the offset that [_release] and [_reallocate] derive from it
    are the right ones; on the large path it is page-aligned.  What the
    slots hold is not in the hands of [_allocate]. *)
Lemma allocate_address_classification
    (sys_page_size : Z) (os_mmap : list Z -> Z -> option Z)
    (s s' : State) (nbytes addr : Z) (clean : bool) :
  page_size_ok sys_page_size ->
  (forall size a, os_mmap (mapped s) size = Some a -> a mod sys_page_size = 0) ->
  (forall k, 0 <= k <= max_data_units sys_page_size ->
             load_word (mem s) (slot s k) mod sys_page_size = 0) ->
  _allocate sys_page_size os_mmap s nbytes clean = Ret addr s' -> addr <> 0 ->
  if bytes_to_units nbytes <? max_data_units sys_page_size then
    exists bm_page offset,
      bm_page mod sys_page_size = 0 /\
      bm_page_header_size_in_units sys_page_size <= offset < units_per_page sys_page_size /\
      addr = bm_page + offset * UNIT_SIZE /\
      addr mod sys_page_size <> 0 /\
      is_page_aligned sys_page_size addr = false /\
      bm_page_from_addr sys_page_size addr = bm_page /\
      ptrdiff_to_units addr (bm_page_from_addr sys_page_size addr) = offset
  else
    addr mod sys_page_size = 0 /\ is_page_aligned sys_page_size addr = true.
Proof.
  intros Hps Hos Hslots Hrun Hnz. unfold _allocate in Hrun.
  destruct (nbytes =? 0); [injection Hrun as <- _; contradiction|].
  destruct (bytes_to_units nbytes <? max_data_units sys_page_size) eqn:Hsmall.
  - assert (Hu : 0 <= bytes_to_units nbytes).
    { unfold bytes_to_units, align_unsigned, UNIT_SIZE. cbn [Z.ltb Z.compare Pos.compare
        Pos.compare_cont].
      apply Z.div_pos; [|lia]. apply Z.land_nonneg. left.
      unfold u32. apply Z.mod_pos_bound. lia. }
    destruct (bm_allocate_address sys_page_size Hps os_mmap s _ clean addr s' Hu Hrun Hnz)
      as (bm_page & offset & Horigin & Hoff & Haddr).
    assert (Hal : bm_page mod sys_page_size = 0).
    { destruct Horigin as [(k & Hk & ->)|Hmap]; [apply Hslots; lia|].
      exact (Hos _ _ Hmap). }
    destruct (data_area_address sys_page_size Hps bm_page offset Hal Hoff)
      as (H1 & H2 & H3 & H4).
    rewrite <- Haddr in *.
    exists bm_page, offset. repeat split; try assumption; try lia.
    rewrite Haddr. f_equal.
    pose proof (upp_bounds _ Hps) as [Hub _]. change (2 ^ 28) with 268435456 in Hub.
    apply u32_small. unfold UNIT_SIZE. change (2 ^ 32) with 4294967296.
    pose proof (hdr_bounds _ Hps). lia.
  - apply bind_ret_inv in Hrun. destruct Hrun as (result & s1 & Hmap & Hrun).
    injection Hrun as -> _.
    assert (Hal : addr mod sys_page_size = 0).
    { unfold call_mmap in Hmap.
      destruct (os_mmap (mapped s) (align_unsigned_to_page sys_page_size nbytes))
        as [a|] eqn:Hos'.
      - assert (a = addr).
        { destruct clean.
          + apply bind_ret_inv in Hmap. destruct Hmap as (m & s2 & _ & Hmap).
            now injection Hmap as -> _.
          + now injection Hmap as -> _. }
        subst a. exact (Hos _ _ Hos').
      - injection Hmap as <- _. contradiction. }
    split; [exact Hal|]. unfold is_page_aligned.
    now apply aligned_address_is_page.
Qed.

(** The first small block of the booted allocator is classified as a
    small one. *)
Lemma first_small_block_classified :
  page_size_ok Machine.sys_page_size /\
  (forall size a, Machine.os_mmap (mapped Machine.booted) size = Some a ->
                  a mod Machine.sys_page_size = 0) /\
  (forall k, 0 <= k <= max_data_units Machine.sys_page_size ->
             load_word (mem Machine.booted) (slot Machine.booted k)
               mod Machine.sys_page_size = 0) /\
  Machine.small_block
    = Ret (value_of Machine.small_block 0) (state_of Machine.small_block Machine.booted) /\
  value_of Machine.small_block 0 <> 0 /\
  (if bytes_to_units 48 <? max_data_units Machine.sys_page_size then
     exists bm_page offset,
       bm_page mod Machine.sys_page_size = 0 /\
       bm_page_header_size_in_units Machine.sys_page_size <= offset
         < units_per_page Machine.sys_page_size /\
       value_of Machine.small_block 0 = bm_page + offset * UNIT_SIZE /\
       value_of Machine.small_block 0 mod Machine.sys_page_size <> 0 /\
       is_page_aligned Machine.sys_page_size (value_of Machine.small_block 0) = false /\
       bm_page_from_addr Machine.sys_page_size (value_of Machine.small_block 0) = bm_page /\
       ptrdiff_to_units (value_of Machine.small_block 0)
         (bm_page_from_addr Machine.sys_page_size (value_of Machine.small_block 0)) = offset
   else
     value_of Machine.small_block 0 mod Machine.sys_page_size = 0 /\
     is_page_aligned Machine.sys_page_size (value_of Machine.small_block 0) = true).
Proof.
  assert (H1 : page_size_ok Machine.sys_page_size) by exact page_size_ok_4096.
  assert (H2 : forall size a, Machine.os_mmap (mapped Machine.booted) size = Some a ->
                              a mod Machine.sys_page_size = 0).
  { intros size a H. vm_compute in H. injection H as <-. reflexivity. }
  assert (H3 : forall k, 0 <= k <= max_data_units Machine.sys_page_size ->
                 load_word (mem Machine.booted) (slot Machine.booted k)
                   mod Machine.sys_page_size = 0).
  { intros k _. reflexivity. }
  assert (H4 : Machine.small_block
               = Ret (value_of Machine.small_block 0)
                     (state_of Machine.small_block Machine.booted)).
  { apply returned_value_state. vm_compute. exact I. }
  assert (H5 : value_of Machine.small_block 0 <> 0) by (vm_compute; congruence).
  repeat (split; [assumption|]).
  exact (allocate_address_classification Machine.sys_page_size Machine.os_mmap
           Machine.booted _ 48 _ true H1 H2 H3 H4 H5).
Defined.

(** C8 (the code departs from it).  The slots do not always hold
    page-aligned pointers.  The caller of C1 reallocates a large block of
    two pages at page A to 16 bytes, having written pointers into the
    block: [bm_release], run on the block as if it were a bitmap page,
    follows them and stores [page_A + 0xFC0] in [superblock[5]].  The
    next allocation of 80 bytes, 5 units, is served by [bm_allocate] from
    that slot: the block it returns, at unit offset 4 of [page_A +
    0xFC0], is page B, page-aligned.  The release of this block then
    takes the large path: page B is unmapped, while its units stay marked
    in the bitmap at [page_A + 0xFC0], which stays in
    [superblock[247]]. *)
Theorem small_path_returns_page_aligned_block :
  (forall s : State,
     _allocate Machine.sys_page_size Machine.os_mmap s 80 false
     = bm_allocate Machine.sys_page_size Machine.os_mmap s (bytes_to_units 80) false) /\
  returns Machine.crafted_block (fun a s =>
    a = Machine.page_A /\
    mapped s = [Machine.page_A; Machine.page_B; 0x10000]) /\
  returns Machine.crafted_block_shrunk (fun r s =>
    r = mkRealloc true (Machine.page_C + 64) true /\
    mapped s = [Machine.page_C; Machine.page_A; Machine.page_B; 0x10000] /\
    load_word (mem s) (slot s 5) = Machine.page_A + 0xFC0 /\
    returns (Machine.allocate 80 s) (fun a s1 =>
      a = Machine.page_B /\
      a = Machine.page_A + 0xFC0 + 4 * UNIT_SIZE /\
      is_page_aligned Machine.sys_page_size a = true /\
      bitmap_words_of (mem s1) (Machine.page_A + 0xFC0) = [0x1F0; 0; 0; 0] /\
      bucket_pages 8 s1 247 = [Machine.page_A + 0xFC0] /\
      blocks_allocated s1 = 2 /\ err_log s1 = [] /\
      returns (Machine.release a 80 s1) (fun v s2 =>
        v = 0 /\
        mapped s2 = [Machine.page_C; Machine.page_A; 0x10000] /\
        bitmap_words_of (mem s2) (Machine.page_A + 0xFC0) = [0x1F0; 0; 0; 0] /\
        bucket_pages 8 s2 247 = [Machine.page_A + 0xFC0] /\
        blocks_allocated s2 = 1 /\ err_log s2 = []))).
Proof.
  split; [intros s; reflexivity|]. vm_compute. repeat split.
Qed.



(** On that run the bytes copied into the red zone are zero, so the
    release of the new block does terminate the process. *)
Example debug_shrunk_release_aborts :
  returns Machine.debug_shrunk (fun r s =>
    terminates (Debug._release s (Debug.addr_out r) 4) (fun s'' =>
      hd EmptyString (Debug.err_log s'') = "%s: damaged %u bytes above %p + %u"%string)).
Proof. vm_compute. reflexivity. Qed.


(** On that run the release of the new block returns, with the caller's
    pointer cleared, one block less counted and nothing printed. *)
Example debug_far_shrunk_release_returns :
  returns Machine.debug_far_shrunk (fun r s =>
    Debug.ok r = true /\ Debug.addr_out r = 0x2030 /\
    load_byte (Debug.mem s) (Debug.addr_out r + 50) = 0 /\
    returns (Debug._release s (Debug.addr_out r) 4) (fun v s'' =>
      v = 0 /\ Debug.blocks_allocated s'' = 0 /\ Debug.err_log s'' = [])).
Proof. vm_compute. repeat split. Qed.

(** C10.  The two scans of a page bitmap terminate.  In
    [find_longest_free_block], with [n] bits left from [offset] to the
    end of the bitmap, the zero run and the nonzero run counted by one
    iteration take at least one bit and at most [n], so that [n] goes
    down without wrapping, and the scan returns.  In [find_free_block]
    an iteration either finds the block or moves the offset strictly
    forward, not beyond [units_per_page], and the scan returns.  (The
    header bits need not be set for this.) *)
Theorem bitmap_scans_terminate (sys_page_size : Z) (bm : Z -> Z) :
  page_size_ok sys_page_size -> wf_bitmap bm ->
  (forall offset n,
     0 <= offset -> 0 < n -> offset + n = units_per_page sys_page_size ->
     exists z nz,
       count_zero_bits sys_page_size bm offset n = Some z /\
       count_nonzero_bits sys_page_size bm (u32 (offset + z)) (u32 (n - z)) = Some nz /\
       1 <= z + nz <= n /\
       u32 (n - z) = n - z /\ u32 (u32 (n - z) - nz) = n - z - nz /\
       n - z - nz < n) /\
  (exists lfb, find_longest_free_block sys_page_size bm = Some lfb) /\
  (forall block_size offset,
     0 <= offset < units_per_page sys_page_size ->
     exists z,
       count_zero_bits sys_page_size bm offset block_size = Some z /\
       (block_size <= z \/
        exists nz,
          count_nonzero_bits sys_page_size bm (u32 (offset + z)) UINT_MAX = Some nz /\
          offset < u32 (u32 (offset + z) + nz) <= units_per_page sys_page_size)) /\
  (forall block_size, exists r, find_free_block sys_page_size bm block_size = Some r).
Proof.
  intros Hps Hbm.
  pose proof (upp_bounds _ Hps) as [Hub _]. pose proof (hdr_bounds _ Hps) as Hh.
  split; [|split; [|split]].
  - intros offset n Ho Hn Hsum.
    destruct (longest_scan_step _ Hps bm offset n Hbm Ho Hn Hsum)
      as (z & nz & Hz & Hnz & Hz0 & Hnz0 & Hstep & Hu1 & Hu2 & Hu3 & Hu4).
    exists z, nz. split; [exact Hz|]. split; [exact Hnz|]. split; [lia|].
    split; [exact Hu2|]. split; [rewrite Hu2; exact Hu4|lia].
  - unfold find_longest_free_block.
    destruct (find_longest_free_block_loop_total _ Hps bm Hbm (scan_fuel sys_page_size)
                (bm_page_header_size_in_units sys_page_size)
                (max_data_units sys_page_size) 0) as (r & Hr & _).
    + lia.
    + rewrite (max_data_units_eq _ Hps). lia.
    + rewrite (max_data_units_eq _ Hps). lia.
    + rewrite (max_data_units_eq _ Hps). unfold scan_fuel.
      rewrite Nat2Z.inj_succ, Z2Nat.id by lia. lia.
    + lia.
    + exists r. exact Hr.
  - intros block_size offset Ho.
    destruct (free_scan_step _ Hps bm block_size offset Hbm Ho) as (z & Hz & Hz0 & Hcase).
    exists z. split; [exact Hz|].
    destruct Hcase as [|(nz & Hnz & Hu1 & Hu2 & Hmove)]; [now left|right].
    exists nz. split; [exact Hnz|]. rewrite Hu1, Hu2. exact Hmove.
  - intros block_size. unfold find_free_block.
    destruct (find_free_block_loop_total _ Hps bm block_size Hbm (scan_fuel sys_page_size)
                (bm_page_header_size_in_units sys_page_size)) as (r & Hr & _).
    + lia.
    + unfold scan_fuel. rewrite Nat2Z.inj_succ, Z2Nat.id by lia. lia.
    + exists r. exact Hr.
Qed.

Lemma bitmap_scans_terminate_witness :
  page_size_ok 4096 /\ wf_bitmap Machine.sample_bitmap /\
  find_longest_free_block 4096 Machine.sample_bitmap = Some 250 /\
  find_free_block 4096 Machine.sample_bitmap 3 = Some 6 /\
  (exists lfb, find_longest_free_block 4096 Machine.sample_bitmap = Some lfb) /\
  (forall block_size, exists r, find_free_block 4096 Machine.sample_bitmap block_size = Some r).
Proof.
  split; [exact page_size_ok_4096|]. split; [exact sample_bitmap_wf|].
  split; [reflexivity|]. split; [reflexivity|].
  pose proof (bitmap_scans_terminate 4096 Machine.sample_bitmap
                page_size_ok_4096 sample_bitmap_wf) as (_ & Hlfb & _ & Hffb).
  split; assumption.
Defined.

(** ** Further properties of the bitmap scans *)

Section ScanFacts.

Variable sys_page_size : Z.
Hypothesis Hps : page_size_ok sys_page_size.

Local Abbreviation upp := (units_per_page sys_page_size).
Local Abbreviation hdr := (bm_page_header_size_in_units sys_page_size).

Lemma find_free_block_loop_correct bm n (Hbm : wf_bitmap bm) (Hn : 1 <= n) :
  forall fuel offset,
  hdr <= offset <= upp -> upp - offset < Z.of_nat fuel ->
  (forall p, p < offset -> ~ free_block_at sys_page_size bm n p) ->
  exists r, find_free_block_loop sys_page_size fuel bm n offset = Some r /\
    ((r = 0 /\ forall p, ~ free_block_at sys_page_size bm n p) \/
     (free_block_at sys_page_size bm n r /\
      forall p, p < r -> ~ free_block_at sys_page_size bm n p)).
Proof.
  pose proof (hdr_bounds _ Hps) as Hh.
  pose proof (upp_bounds _ Hps) as [Hub _]. change (2 ^ 28) with 268435456 in Hub.
  induction fuel as [|fuel IH]; intros offset Ho Hfuel Hinv; [lia|].
  cbn [find_free_block_loop].
  destruct (offset <? upp) eqn:Hlt.
  2:{ apply Z.ltb_ge in Hlt. exists 0. split; [reflexivity|]. left. split; [reflexivity|].
      intros p Hp. destruct (Z_lt_dec p offset) as [Hlow|Hhigh]; [exact (Hinv p Hlow Hp)|].
      destruct Hp as (_ & Hfit & _). lia. }
  apply Z.ltb_lt in Hlt.
  destruct (count_zero_bits_spec _ Hps bm offset n Hbm ltac:(lia))
    as (z & Hz & Hz0 & Hzrun & Hzin & Hzstop).
  rewrite Hz.
  destruct (n <=? z) eqn:Hfound.
  - apply Z.leb_le in Hfound. exists offset. split; [reflexivity|]. right.
    split; [|exact Hinv].
    split; [lia|]. split; [lia|]. intros i Hi. apply Hzrun. lia.
  - apply Z.leb_gt in Hfound. cbv zeta.
    rewrite (u32_small (offset + z)) by (change (2 ^ 32) with 4294967296; lia).
    destruct (count_nonzero_bits_spec _ Hps bm (offset + z) UINT_MAX Hbm ltac:(lia))
      as (nz & Hnz & Hnz0 & Hnzrun & Hnzin & Hnzstop).
    rewrite Hnz.
    rewrite (u32_small (offset + z + nz)) by (change (2 ^ 32) with 4294967296; lia).
    specialize (Hzstop Hfound).
    assert (Hmove : offset < offset + z + nz).
    { destruct (Z.eq_dec z 0) as [Ez|]; [|lia].
      destruct (Z.eq_dec nz 0) as [Enz|]; [|lia]. exfalso.
      destruct Hzstop as [|Hb1]; [lia|].
      destruct (Hnzstop ltac:(unfold UINT_MAX; lia)) as [|Hb0]; [lia|].
      replace (offset + z + nz) with (offset + z) in Hb0 by lia. congruence. }
    apply IH; try lia.
    intros p Hp Hfree.
    destruct (Z_lt_dec p offset) as [Hlow|Hhigh]; [exact (Hinv p Hlow Hfree)|].
    destruct Hfree as (_ & Hfit & Hrun).
    destruct (Z_lt_dec p (offset + z)) as [Hin|Hout].
    + destruct Hzstop as [Hend|Hbit]; [lia|].
      rewrite Hrun in Hbit by lia. discriminate.
    + assert (Hbit : bm_bit bm p = true) by (apply Hnzrun; lia).
      rewrite Hrun in Hbit by lia. discriminate.
Qed.

Lemma find_longest_free_block_loop_correct bm (Hbm : wf_bitmap bm) :
  forall fuel offset n lfb,
  hdr <= offset -> 0 <= n -> offset + n = upp -> n < Z.of_nat fuel ->
  (offset = hdr \/ offset = upp \/ bm_bit bm (offset - 1) = true) ->
  (forall p len, hdr <= p -> p + len <= offset -> free_run bm p len -> len <= lfb) ->
  (exists p, hdr <= p /\ p + lfb <= upp /\ free_run bm p lfb) ->
  0 <= lfb ->
  exists r, find_longest_free_block_loop sys_page_size fuel bm offset n lfb = Some r /\
    (forall p len, hdr <= p -> p + len <= upp -> free_run bm p len -> len <= r) /\
    (exists p, hdr <= p /\ p + r <= upp /\ free_run bm p r).
Proof.
  pose proof (hdr_bounds _ Hps) as Hh.
  pose proof (upp_bounds _ Hps) as [Hub _]. change (2 ^ 28) with 268435456 in Hub.
  induction fuel as [|fuel IH];
    intros offset n lfb Ho Hn Hsum Hfuel Hedge Hmax Hwit Hl; [lia|].
  cbn [find_longest_free_block_loop].
  destruct (n =? 0) eqn:En; cbn [negb].
  - apply Z.eqb_eq in En. exists lfb. split; [reflexivity|]. split; [|exact Hwit].
    intros p len Hp Hfit. apply Hmax; lia.
  - apply Z.eqb_neq in En.
    destruct (count_zero_bits_spec _ Hps bm offset n Hbm ltac:(lia))
      as (z & Hz & Hz0 & Hzrun & Hzin & Hzstop).
    rewrite Hz. cbv zeta.
    rewrite (u32_small (offset + z)) by (change (2 ^ 32) with 4294967296; lia).
    rewrite (u32_small (n - z)) by (change (2 ^ 32) with 4294967296; lia).
    destruct (count_nonzero_bits_spec _ Hps bm (offset + z) (n - z) Hbm ltac:(lia))
      as (nz & Hnz & Hnz0 & Hnzrun & Hnzin & Hnzstop).
    rewrite Hnz.
    rewrite (u32_small (offset + z + nz)) by (change (2 ^ 32) with 4294967296; lia).
    rewrite (u32_small (n - z - nz)) by (change (2 ^ 32) with 4294967296; lia).
    assert (Hzbit : z < n -> bm_bit bm (offset + z) = true).
    { intros Hlt. destruct (Hzstop Hlt) as [|Hb]; [lia|exact Hb]. }
    assert (Hpos : 1 <= z + nz).
    { destruct (Z.eq_dec z 0) as [Ez|]; [|lia].
      destruct (Z.eq_dec nz 0) as [Enz|]; [|lia]. exfalso.
      specialize (Hzbit ltac:(lia)).
      destruct (Hnzstop ltac:(lia)) as [|Hb0]; [lia|].
      replace (offset + z + nz) with (offset + z) in Hb0 by lia. congruence. }
    set (lfb' := if lfb <? z then z else lfb).
    assert (Hlfb' : lfb <= lfb' /\ z <= lfb' /\ (lfb' = lfb \/ lfb' = z)).
    { subst lfb'. destruct (lfb <? z) eqn:E; [apply Z.ltb_lt in E|apply Z.ltb_ge in E]; lia. }
    apply IH; try lia.
    + (* the new offset follows a set bit *)
      destruct (Z.eq_dec (offset + z + nz) upp) as [|Hin]; [now (right; left)|].
      right; right.
      destruct (Z.eq_dec nz 0) as [Enz|Hnzpos].
      * exfalso. specialize (Hzbit ltac:(lia)).
        destruct (Hnzstop ltac:(lia)) as [|Hb0]; [lia|].
        replace (offset + z + nz) with (offset + z) in Hb0 by lia. congruence.
      * apply Hnzrun. lia.
    + (* no longer run before the new offset *)
      intros p len Hp Hfit Hrun.
      destruct (Z_le_dec len 0) as [|Hlen]; [lia|].
      destruct (Z_lt_dec p offset) as [Hlow|Hhigh].
      * assert (p + len <= offset); [|apply Z.le_trans with lfb; [now apply (Hmax p len)|lia]].
        destruct Hedge as [E|[E|Hbit]]; [lia|lia|].
        destruct (Z_le_dec (p + len) offset) as [|Hover]; [assumption|].
        rewrite Hrun in Hbit by lia. discriminate.
      * destruct (Z_lt_dec p (offset + z)) as [Hin|Hout].
        -- destruct (Z_le_dec (p + len) (offset + z)) as [|Hover]; [lia|].
           destruct (Z_lt_dec z n) as [Hzn|]; [|lia].
           specialize (Hzbit Hzn). rewrite Hrun in Hzbit by lia. discriminate.
        -- assert (Hbit : bm_bit bm p = true) by (apply Hnzrun; lia).
           rewrite Hrun in Hbit by lia. discriminate.
    + (* a run of the new length *)
      destruct Hlfb' as (_ & _ & [E|E]); rewrite E.
      * exact Hwit.
      * exists offset. split; [lia|]. split; [lia|]. intros i Hi. apply Hzrun. lia.
Qed.

End ScanFacts.

(** X1.  [count_nonzero_bits] from an offset inside the bitmap returns a
    count [c]: the bits of [[offset, offset + c)] are set, the run stays
    inside the bitmap, and [c] is below the hint only if the run of ones
    ends there. *)
Theorem count_nonzero_bits_run (sys_page_size : Z) (bm : Z -> Z) (offset hint : Z) :
  page_size_ok sys_page_size -> wf_bitmap bm ->
  0 <= offset < units_per_page sys_page_size ->
  exists c, count_nonzero_bits sys_page_size bm offset hint = Some c /\
    0 <= c /\
    (forall i, offset <= i < offset + c -> bm_bit bm i = true) /\
    offset + c <= units_per_page sys_page_size /\
    (c < hint ->
     offset + c = units_per_page sys_page_size \/ bm_bit bm (offset + c) = false).
Proof.
  intros Hps Hbm Hoff. apply count_nonzero_bits_spec; [assumption|assumption|lia].
Qed.

Lemma count_nonzero_bits_run_witness :
  page_size_ok 4096 /\ wf_bitmap Machine.sample_bitmap /\
  0 <= 2 < units_per_page 4096 /\
  exists c, count_nonzero_bits 4096 Machine.sample_bitmap 2 9 = Some c /\
    0 <= c /\
    (forall i, 2 <= i < 2 + c -> bm_bit Machine.sample_bitmap i = true) /\
    2 + c <= units_per_page 4096 /\
    (c < 9 -> 2 + c = units_per_page 4096 \/ bm_bit Machine.sample_bitmap (2 + c) = false).
Proof.
  assert (H : 0 <= 2 < units_per_page 4096) by (vm_compute; split; congruence).
  split; [exact page_size_ok_4096|]. split; [exact sample_bitmap_wf|].
  split; [exact H|].
  exact (count_nonzero_bits_run 4096 Machine.sample_bitmap 2 9
           page_size_ok_4096 sample_bitmap_wf H).
Defined.

Lemma find_free_block_spec (sys_page_size : Z) (bm : Z -> Z) (n : Z) :
  page_size_ok sys_page_size -> wf_bitmap bm -> 1 <= n ->
  exists r, find_free_block sys_page_size bm n = Some r /\
    ((r = 0 /\ forall p, ~ free_block_at sys_page_size bm n p) \/
     (free_block_at sys_page_size bm n r /\
      forall p, p < r -> ~ free_block_at sys_page_size bm n p)).
Proof.
  intros Hps Hbm Hn. unfold find_free_block.
  pose proof (hdr_bounds _ Hps) as Hh. pose proof (upp_bounds _ Hps) as [Hub _].
  apply find_free_block_loop_correct; try assumption; try lia.
  - unfold scan_fuel. rewrite Nat2Z.inj_succ, Z2Nat.id by lia. lia.
  - intros p Hp (Hge & _). lia.
Qed.

(** X2.  [find_free_block] for [n >= 1] units returns either the lowest
    offset of the data area at which [n] free units start, or [0] when no
    offset of the data area starts [n] free units. *)
Theorem find_free_block_lowest (sys_page_size : Z) (bm : Z -> Z) (n : Z) :
  page_size_ok sys_page_size -> wf_bitmap bm -> 1 <= n ->
  exists r, find_free_block sys_page_size bm n = Some r /\
    ((r = 0 /\ forall p, ~ free_block_at sys_page_size bm n p) \/
     (free_block_at sys_page_size bm n r /\
      forall p, p < r -> ~ free_block_at sys_page_size bm n p)).
Proof. exact (find_free_block_spec sys_page_size bm n). Qed.

Lemma find_free_block_lowest_witness :
  page_size_ok 4096 /\ wf_bitmap Machine.sample_bitmap /\ 1 <= 3 /\
  exists r, find_free_block 4096 Machine.sample_bitmap 3 = Some r /\
    ((r = 0 /\ forall p, ~ free_block_at 4096 Machine.sample_bitmap 3 p) \/
     (free_block_at 4096 Machine.sample_bitmap 3 r /\
      forall p, p < r -> ~ free_block_at 4096 Machine.sample_bitmap 3 p)).
Proof.
  assert (H : 1 <= 3) by lia.
  split; [exact page_size_ok_4096|]. split; [exact sample_bitmap_wf|]. split; [exact H|].
  exact (find_free_block_lowest 4096 Machine.sample_bitmap 3
           page_size_ok_4096 sample_bitmap_wf H).
Defined.

Lemma find_longest_free_block_spec (sys_page_size : Z) (bm : Z -> Z) :
  page_size_ok sys_page_size -> wf_bitmap bm ->
  exists lfb, find_longest_free_block sys_page_size bm = Some lfb /\
    0 <= lfb /\
    (forall p len, free_block_at sys_page_size bm len p -> len <= lfb) /\
    (exists p, free_block_at sys_page_size bm lfb p).
Proof.
  intros Hps Hbm. unfold find_longest_free_block.
  pose proof (hdr_bounds _ Hps) as Hh. pose proof (upp_bounds _ Hps) as [Hub _].
  rewrite (max_data_units_eq _ Hps).
  assert (Hfuel : units_per_page sys_page_size
                  - bm_page_header_size_in_units sys_page_size
                  < Z.of_nat (scan_fuel sys_page_size)).
  { unfold scan_fuel. rewrite Nat2Z.inj_succ, Z2Nat.id by lia. lia. }
  assert (Hnone : forall p len,
            bm_page_header_size_in_units sys_page_size <= p ->
            p + len <= bm_page_header_size_in_units sys_page_size ->
            free_run bm p len -> len <= 0) by (intros; lia).
  assert (Hwit : exists p, bm_page_header_size_in_units sys_page_size <= p /\
                   p + 0 <= units_per_page sys_page_size /\ free_run bm p 0).
  { exists (bm_page_header_size_in_units sys_page_size).
    split; [lia|]. split; [lia|]. intros i Hi. lia. }
  destruct (find_longest_free_block_loop_correct _ Hps bm Hbm (scan_fuel sys_page_size)
              (bm_page_header_size_in_units sys_page_size)
              (units_per_page sys_page_size - bm_page_header_size_in_units sys_page_size) 0
              ltac:(lia) ltac:(lia) ltac:(lia) Hfuel (or_introl eq_refl) Hnone Hwit
              ltac:(lia))
    as (r & Hr & Hmax & p & Hp & Hfit & Hrun).
  - exists r. split; [exact Hr|]. split.
    + apply (Hmax (bm_page_header_size_in_units sys_page_size) 0); try lia.
      intros i Hi. lia.
    + split.
      * intros q len (Hq & Hqfit & Hqrun). now apply (Hmax q len).
      * exists p. repeat split; assumption.
Qed.

(** X3.  [find_longest_free_block] returns the length of the longest run
    of free units of the data area: no run of free units inside the data
    area is longer, and one of that length exists. *)
Theorem find_longest_free_block_is_longest (sys_page_size : Z) (bm : Z -> Z) :
  page_size_ok sys_page_size -> wf_bitmap bm ->
  exists lfb, find_longest_free_block sys_page_size bm = Some lfb /\
    0 <= lfb /\
    (forall p len, free_block_at sys_page_size bm len p -> len <= lfb) /\
    (exists p, free_block_at sys_page_size bm lfb p).
Proof. exact (find_longest_free_block_spec sys_page_size bm). Qed.

Lemma find_longest_free_block_is_longest_witness :
  page_size_ok 4096 /\ wf_bitmap Machine.sample_bitmap /\
  exists lfb, find_longest_free_block 4096 Machine.sample_bitmap = Some lfb /\
    0 <= lfb /\
    (forall p len, free_block_at 4096 Machine.sample_bitmap len p -> len <= lfb) /\
    (exists p, free_block_at 4096 Machine.sample_bitmap lfb p).
Proof.
  split; [exact page_size_ok_4096|]. split; [exact sample_bitmap_wf|].
  exact (find_longest_free_block_is_longest 4096 Machine.sample_bitmap
           page_size_ok_4096 sample_bitmap_wf).
Defined.

(** X4.  The bucket key is what the search needs: for [n >= 1],
    [find_free_block] finds a block (a nonzero offset) exactly when [n]
    is at most the value of [find_longest_free_block], so the abort of
    [bm_allocate] on a page taken from a bucket [k >= n] is never taken
    when the page is in the bucket of its longest free run. *)
Theorem find_free_block_iff_longest (sys_page_size : Z) (bm : Z -> Z) (n : Z) :
  page_size_ok sys_page_size -> wf_bitmap bm -> 1 <= n ->
  exists r lfb,
    find_free_block sys_page_size bm n = Some r /\
    find_longest_free_block sys_page_size bm = Some lfb /\
    (r <> 0 <-> n <= lfb).
Proof.
  intros Hps Hbm Hn.
  pose proof (hdr_bounds _ Hps) as Hh.
  destruct (find_free_block_spec _ bm n Hps Hbm Hn) as (r & Hr & Hcase).
  destruct (find_longest_free_block_spec _ bm Hps Hbm)
    as (lfb & Hlfb & Hl0 & Hmax & p & Hp).
  exists r, lfb. split; [exact Hr|]. split; [exact Hlfb|].
  split.
  - intros Hnz. destruct Hcase as [[E _]|[Hfree _]]; [contradiction|].
    exact (Hmax r n Hfree).
  - intros Hle Hz. destruct Hcase as [[_ Hnone]|[(Hge & _) _]]; [|lia].
    apply (Hnone p). destruct Hp as (Hpge & Hpfit & Hprun).
    split; [exact Hpge|]. split; [lia|]. intros i Hi. apply Hprun. lia.
Qed.

Lemma find_free_block_iff_longest_witness :
  page_size_ok 4096 /\ wf_bitmap Machine.sample_bitmap /\ 1 <= 251 /\
  exists r lfb,
    find_free_block 4096 Machine.sample_bitmap 251 = Some r /\
    find_longest_free_block 4096 Machine.sample_bitmap = Some lfb /\
    (r <> 0 <-> 251 <= lfb).
Proof.
  assert (H : 1 <= 251) by lia.
  split; [exact page_size_ok_4096|]. split; [exact sample_bitmap_wf|]. split; [exact H|].
  exact (find_free_block_iff_longest 4096 Machine.sample_bitmap 251
           page_size_ok_4096 sample_bitmap_wf H).
Defined.


(** ** Alignment helpers *)

Lemma land_clear_low (x k : Z) :
  0 <= k -> Z.land x (Z.lnot (2 ^ k - 1)) = x - x mod 2 ^ k.
Proof.
  intros Hk.
  replace (2 ^ k - 1) with (Z.ones k) by (rewrite Z.ones_equiv; lia).
  rewrite <- Z.ldiff_land, Z.ldiff_ones_r by lia.
  rewrite Z.shiftl_mul_pow2, Z.shiftr_div_pow2 by lia.
  assert (0 < 2 ^ k) by (apply Z.pow_pos_nonneg; lia).
  Z.div_mod_to_equations; lia.
Qed.

Lemma align_unsigned_eq (n k : Z) :
  1 <= k < 32 -> 0 <= n < 2 ^ 32 ->
  align_unsigned n (2 ^ k) = u32 (n + (2 ^ k - 1)) - u32 (n + (2 ^ k - 1)) mod 2 ^ k.
Proof.
  intros Hk Hn.
  assert (Hpow : 2 <= 2 ^ k < 2 ^ 32).
  { split.
    - change 2 with (2 ^ 1) at 1. apply Z.pow_le_mono_r; lia.
    - apply Z.pow_lt_mono_r; lia. }
  unfold align_unsigned.
  replace (1 <? 2 ^ k) with true by (symmetry; apply Z.ltb_lt; lia).
  rewrite (u32_small (2 ^ k - 1)) by lia.
  set (x := u32 (n + (2 ^ k - 1))).
  assert (Hx : 0 <= x < 2 ^ 32) by (subst x; unfold u32; apply Z.mod_pos_bound; lia).
  rewrite Z.land_assoc, land_clear_low by lia.
  unfold UINT_MAX. change (2 ^ 32 - 1) with (Z.ones 32).
  rewrite Z.land_ones by lia. apply Z.mod_small.
  pose proof (Z.mod_pos_bound x (2 ^ k) ltac:(lia)).
  pose proof (Z.mod_le x (2 ^ k) ltac:(lia) ltac:(lia)). lia.
Qed.

(** X5.  [align_unsigned(n, 2^k)] is the least multiple of [2^k] that is
    at least [n], as long as [n + 2^k - 1] fits [unsigned]; beyond that
    the sum wraps and the result is [0].  An alignment of [0] or [1]
    leaves [n] as it is. *)
Theorem align_unsigned_rounds_up (n k : Z) :
  1 <= k < 32 -> 0 <= n < 2 ^ 32 ->
  (n + 2 ^ k - 1 < 2 ^ 32 ->
   align_unsigned n (2 ^ k) mod 2 ^ k = 0 /\
   n <= align_unsigned n (2 ^ k) < n + 2 ^ k) /\
  (2 ^ 32 <= n + 2 ^ k - 1 -> align_unsigned n (2 ^ k) = 0) /\
  align_unsigned n 0 = n /\ align_unsigned n 1 = n.
Proof.
  intros Hk Hn.
  assert (Hpow : 2 <= 2 ^ k < 2 ^ 32).
  { split.
    - change 2 with (2 ^ 1) at 1. apply Z.pow_le_mono_r; lia.
    - apply Z.pow_lt_mono_r; lia. }
  assert (Hdiv : 2 ^ 32 mod 2 ^ k = 0).
  { replace 32 with (k + (32 - k)) by lia. rewrite Z.pow_add_r by lia.
    rewrite Z.mul_comm. apply Z_mod_mult. }
  rewrite align_unsigned_eq by assumption.
  split; [|split; [|split; reflexivity]].
  - intros Hfit. rewrite u32_small by lia.
    pose proof (Z.mod_pos_bound (n + (2 ^ k - 1)) (2 ^ k) ltac:(lia)).
    split; [|lia].
    rewrite Zminus_mod_idemp_r, Z.sub_diag. apply Z.mod_0_l. lia.
  - intros Hwrap. unfold u32.
    assert (Hsmall : (n + (2 ^ k - 1)) mod 2 ^ 32 = n + (2 ^ k - 1) - 2 ^ 32).
    { change (2 ^ 32) with 4294967296 in *. Z.div_mod_to_equations; lia. }
    rewrite Hsmall.
    assert (Hlow : 0 <= n + (2 ^ k - 1) - 2 ^ 32 < 2 ^ k) by lia.
    rewrite (Z.mod_small _ _ Hlow). lia.
Qed.

Lemma align_unsigned_rounds_up_witness :
  1 <= 4 < 32 /\ 0 <= 17 < 2 ^ 32 /\
  (17 + 2 ^ 4 - 1 < 2 ^ 32 ->
   align_unsigned 17 (2 ^ 4) mod 2 ^ 4 = 0 /\
   17 <= align_unsigned 17 (2 ^ 4) < 17 + 2 ^ 4) /\
  (2 ^ 32 <= 17 + 2 ^ 4 - 1 -> align_unsigned 17 (2 ^ 4) = 0) /\
  align_unsigned 17 0 = 17 /\ align_unsigned 17 1 = 17.
Proof.
  assert (H1 : 1 <= 4 < 32) by lia.
  assert (H2 : 0 <= 17 < 2 ^ 32) by (change (2 ^ 32) with 4294967296; lia).
  split; [exact H1|]. split; [exact H2|].
  exact (align_unsigned_rounds_up 17 4 H1 H2).
Defined.

(** X6.  [bytes_to_units] is the number of units that cover [nbytes],
    [ceil(nbytes / UNIT_SIZE)], for every size up to [UINT_MAX - 15]; for
    the 15 sizes above, the rounding wraps and the result is 0 units. *)
Theorem bytes_to_units_ceiling (nbytes : Z) :
  0 <= nbytes < 2 ^ 32 ->
  (nbytes <= UINT_MAX - 15 -> bytes_to_units nbytes = (nbytes + 15) / 16) /\
  (UINT_MAX - 15 < nbytes -> bytes_to_units nbytes = 0).
Proof.
  intros Hn. unfold bytes_to_units, UNIT_SIZE, UINT_MAX.
  pose proof (align_unsigned_eq nbytes 4 ltac:(lia) Hn) as E.
  change (2 ^ 4) with 16 in E. change (16 - 1) with 15 in E. rewrite !E.
  unfold u32. change (2 ^ 32) with 4294967296 in *.
  split; intros H; Z.div_mod_to_equations; lia.
Qed.

Lemma bytes_to_units_ceiling_witness :
  0 <= 4000 < 2 ^ 32 /\
  (4000 <= UINT_MAX - 15 -> bytes_to_units 4000 = (4000 + 15) / 16) /\
  (UINT_MAX - 15 < 4000 -> bytes_to_units 4000 = 0).
Proof.
  assert (H : 0 <= 4000 < 2 ^ 32) by (change (2 ^ 32) with 4294967296; lia).
  split; [exact H|]. exact (bytes_to_units_ceiling 4000 H).
Defined.

(** ** Memory cleaning *)

(** X7.  [cleanse(addr, start, end)] with [start <= end] returns and
    sets the bytes [[addr + start, addr + end)] to zero, whatever the
    alignment of [start] and the length are; every other byte keeps its
    value. *)
Theorem cleanse_zeroes_exactly (m : Mem) (addr start end_ : Z) :
  0 <= start <= end_ -> end_ < 2 ^ 32 ->
  exists m', cleanse m addr start end_ = Some m' /\
    forall x, m' x = if (addr + start <=? x) && (x <? addr + end_) then 0 else m x.
Proof. exact (cleanse_spec m addr start end_). Qed.

Lemma cleanse_zeroes_exactly_witness :
  0 <= 3 <= 30 /\ 30 < 2 ^ 32 /\
  exists m', cleanse (fun _ => 7) 0x1000 3 30 = Some m' /\
    forall x, m' x = if (0x1000 + 3 <=? x) && (x <? 0x1000 + 30) then 0 else 7.
Proof.
  assert (H1 : 0 <= 3 <= 30) by lia.
  assert (H2 : 30 < 2 ^ 32) by (change (2 ^ 32) with 4294967296; lia).
  split; [exact H1|]. split; [exact H2|].
  exact (cleanse_zeroes_exactly (fun _ => 7) 0x1000 3 30 H1 H2).
Defined.

(** ** timespec arithmetic *)

(** X8.  [timespec_sub] of two well-formed timespecs leaves a well-formed
    nanosecond field and the difference of the two instants, also when
    the difference is negative (the seconds then round down). *)
Theorem timespec_sub_difference (a b : timespec) :
  timespec_ok a -> timespec_ok b ->
  0 <= tv_nsec (timespec_sub a b) < 1000000000 /\
  nanoseconds (timespec_sub a b) = nanoseconds a - nanoseconds b.
Proof.
  intros [Has Han] [Hbs Hbn].
  assert (Hs64 : forall x, - 2 ^ 63 <= x < 2 ^ 63 -> s64 x = x).
  { intros x Hx. unfold s64. rewrite Z.mod_small; lia. }
  assert (Hu64 : forall x, 0 <= x < 2 ^ 64 -> u64 x = x).
  { intros x Hx. unfold u64. now apply Z.mod_small. }
  change (2 ^ 62) with 4611686018427387904 in *.
  change (2 ^ 63) with 9223372036854775808 in *.
  change (2 ^ 64) with 18446744073709551616 in *.
  unfold timespec_sub, nanoseconds. cbn [tv_sec tv_nsec].
  rewrite (Hs64 (tv_sec a - tv_sec b)) by lia.
  destruct (tv_nsec a <? tv_nsec b) eqn:E; cbn [tv_sec tv_nsec].
  - apply Z.ltb_lt in E.
    rewrite (Hu64 (tv_nsec a)) by lia.
    rewrite (Hu64 (tv_nsec a + 1000000000)) by lia.
    rewrite (Hs64 (tv_nsec a + 1000000000)) by lia.
    rewrite (Hs64 (tv_sec a - tv_sec b - 1)) by lia.
    rewrite (Hs64 (tv_nsec a + 1000000000 - tv_nsec b)) by lia.
    lia.
  - apply Z.ltb_ge in E.
    rewrite (Hs64 (tv_nsec a - tv_nsec b)) by lia. lia.
Qed.

Lemma timespec_sub_difference_witness :
  timespec_ok (mkTimespec 5 100) /\ timespec_ok (mkTimespec 7 999999999) /\
  0 <= tv_nsec (timespec_sub (mkTimespec 5 100) (mkTimespec 7 999999999)) < 1000000000 /\
  nanoseconds (timespec_sub (mkTimespec 5 100) (mkTimespec 7 999999999))
  = nanoseconds (mkTimespec 5 100) - nanoseconds (mkTimespec 7 999999999).
Proof.
  assert (H1 : timespec_ok (mkTimespec 5 100)).
  { unfold timespec_ok. cbn. change (2 ^ 62) with 4611686018427387904. lia. }
  assert (H2 : timespec_ok (mkTimespec 7 999999999)).
  { unfold timespec_ok. cbn. change (2 ^ 62) with 4611686018427387904. lia. }
  split; [exact H1|]. split; [exact H2|].
  exact (timespec_sub_difference _ _ H1 H2).
Defined.

(** ** The allocator interface, continued *)

Lemma release_result sys_page_size os_munmap s addr nbytes x s' :
  _release sys_page_size os_munmap s addr nbytes = Ret x s' -> x = 0.
Proof.
  unfold _release. destruct (addr =? 0) eqn:E.
  - intros H. injection H as <- _. now apply Z.eqb_eq in E.
  - destruct (nbytes =? 0); [discriminate|].
    destruct (addr =? bm_page_from_addr sys_page_size addr).
    + intros H. now injection H as <- _.
    + intros H. apply bind_ret_inv in H. destruct H as (? & ? & _ & H).
      now injection H as <- _.
Qed.

Ltac run_step H :=
  match type of H with
  | Ret _ _ = Ret _ _ => injection H as <- <-
  | Aborted _ = Ret _ _ => discriminate H
  | OutOfFuel = Ret _ _ => discriminate H
  | bind _ _ = Ret _ _ =>
    let a := fresh "a" in let s := fresh "s" in let Hx := fresh "Hx" in
    apply bind_ret_inv in H; destruct H as (a & s & Hx & H)
  | (if ?c then _ else _) = Ret _ _ =>
    let E := fresh "E" in destruct c eqn:E
  end.

(** X9.  What [_reallocate] reports is coherent: a failure leaves the
    address as it was and reports [addr_changed = false]; whenever
    [addr_changed] is false the address is the one passed in; whenever it
    is true the call succeeded and the new address is not empty. *)
Theorem reallocate_result_coherent
    (sys_page_size : Z) (os_mmap : list Z -> Z -> option Z)
    (os_mremap : list Z -> Z -> Z -> Z -> bool -> option Z)
    (os_munmap : list Z -> Z -> Z -> bool)
    (s s' : State) (addr old_nbytes new_nbytes : Z) (clean : bool) (r : Realloc) :
  _reallocate sys_page_size os_mmap os_mremap os_munmap s addr old_nbytes new_nbytes clean
  = Ret r s' ->
  (ok r = false -> addr_out r = addr /\ addr_changed r = false) /\
  (addr_changed r = false -> addr_out r = addr) /\
  (addr_changed r = true -> ok r = true /\ addr_out r <> 0).
Proof.
  intros H. unfold _reallocate, success_same_addr, success_changed_addr, error in H.
  cbv zeta in H.
  repeat run_step H; cbn [ok addr_out addr_changed].
  all: try (repeat split; intros; try discriminate; try reflexivity; try congruence).
  all: repeat match goal with
       | H : (_ =? _) = true |- _ => apply Z.eqb_eq in H
       | H : (_ =? _) = false |- _ => apply Z.eqb_neq in H
       | H : negb _ = false |- _ => apply negb_false_iff in H
       | H : negb _ = true |- _ => apply negb_true_iff in H
       | H : _release _ _ _ _ _ = Ret _ _ |- _ => apply release_result in H
       end; try lia; try congruence.
Qed.

Lemma reallocate_result_coherent_witness :
  Machine.first_block
    = Ret (value_of Machine.first_block (mkRealloc false 0 false))
          (state_of Machine.first_block Machine.booted) /\
  (ok (value_of Machine.first_block (mkRealloc false 0 false)) = false ->
   addr_out (value_of Machine.first_block (mkRealloc false 0 false)) = 0 /\
   addr_changed (value_of Machine.first_block (mkRealloc false 0 false)) = false) /\
  (addr_changed (value_of Machine.first_block (mkRealloc false 0 false)) = false ->
   addr_out (value_of Machine.first_block (mkRealloc false 0 false)) = 0) /\
  (addr_changed (value_of Machine.first_block (mkRealloc false 0 false)) = true ->
   ok (value_of Machine.first_block (mkRealloc false 0 false)) = true /\
   addr_out (value_of Machine.first_block (mkRealloc false 0 false)) <> 0).
Proof.
  assert (H : Machine.first_block
              = Ret (value_of Machine.first_block (mkRealloc false 0 false))
                    (state_of Machine.first_block Machine.booted)).
  { apply returned_value_state. vm_compute. exact I. }
  split; [exact H|].
  exact (reallocate_result_coherent Machine.sys_page_size Machine.os_mmap
           Machine.os_mremap Machine.os_munmap Machine.booted _ 0 0 16 false _ H).
Defined.

Lemma same_books_refl s : same_books s s.
Proof. repeat split. Qed.

Lemma same_books_trans s1 s2 s3 :
  same_books s1 s2 -> same_books s2 s3 -> same_books s1 s3.
Proof. unfold same_books. intuition congruence. Qed.

Lemma same_books_set_mem s m : same_books s (set_mem s m).
Proof. repeat split. Qed.

Lemma delete_from_list_books s bm_page : same_books s (delete_from_list s bm_page).
Proof.
  unfold delete_from_list. destruct (_ =? _); apply same_books_set_mem.
Qed.

Lemma add_to_superblock_entry_books s bm_page lfb :
  same_books s (add_to_superblock_entry s bm_page lfb).
Proof. unfold add_to_superblock_entry. apply same_books_set_mem. Qed.

Lemma add_to_superblock_books sys_page_size s bm_page u s' :
  add_to_superblock sys_page_size s bm_page = Ret u s' -> same_books s s'.
Proof.
  unfold add_to_superblock. intros H.
  apply bind_ret_inv in H. destruct H as (lfb & s1 & Hl & H).
  apply lift_ret_inv in Hl. destruct Hl as [_ ->].
  injection H as _ <-. apply add_to_superblock_entry_books.
Qed.

Lemma find_available_page_loop_books :
  forall n s list bm_page s',
  find_available_page_loop n s list = (bm_page, s') ->
  same_books s s' /\ (bm_page = 0 -> s' = s) /\ 0 <= bm_page.
Proof.
  induction n as [|n IH]; intros s list bm_page s' H; cbn [find_available_page_loop] in H.
  - injection H as <- <-. split; [apply same_books_refl|]. split; [reflexivity|lia].
  - destruct (load_word (mem s) list =? 0) eqn:E; cbn [negb] in H.
    + eauto.
    + injection H as <- <-. split; [apply delete_from_list_books|].
      split; [apply Z.eqb_neq in E; contradiction|].
      apply load_word_range.
Qed.

Lemma call_mmap_null sys_page_size os_mmap s size clean s' :
  (forall l sz a, os_mmap l sz = Some a -> 0 < a) ->
  call_mmap sys_page_size os_mmap s size clean = Ret 0 s' -> s' = ERR s "mmap: %s".
Proof.
  intros Hos. unfold call_mmap.
  destruct (os_mmap (mapped s) size) as [a|] eqn:E.
  - assert (Ha : 0 < a) by exact (Hos _ _ _ E).
    destruct clean.
    + intros Hr. apply bind_ret_inv in Hr. destruct Hr as (m & s1 & _ & Hr).
      injection Hr as -> _. lia.
    + intros Hr. injection Hr as -> _. lia.
  - intros Hr. now injection Hr as <-.
Qed.

Lemma call_mmap_positive sys_page_size os_mmap s size clean a s' :
  (forall l sz a, os_mmap l sz = Some a -> 0 < a) ->
  call_mmap sys_page_size os_mmap s size clean = Ret a s' -> 0 <= a.
Proof.
  intros Hos. unfold call_mmap.
  destruct (os_mmap (mapped s) size) as [r|] eqn:E.
  - assert (Ha : 0 < r) by exact (Hos _ _ _ E).
    destruct clean.
    + intros Hr. apply bind_ret_inv in Hr. destruct Hr as (m & s1 & _ & Hr).
      injection Hr as -> _. lia.
    + intros Hr. injection Hr as -> _. lia.
  - intros Hr. injection Hr as <- _. lia.
Qed.

Lemma call_mmap_books sys_page_size os_mmap s size clean a s' :
  call_mmap sys_page_size os_mmap s size clean = Ret a s' ->
  superblock s' = superblock s /\ blocks_allocated s' = blocks_allocated s /\
  num_bm_pages s' = num_bm_pages s.
Proof.
  unfold call_mmap. destruct (os_mmap (mapped s) size) as [r|].
  - destruct clean.
    + intros H. apply bind_ret_inv in H. destruct H as (m & s1 & Hl & H).
      apply lift_ret_inv in Hl. destruct Hl as [_ ->].
      injection H as _ <-. repeat split.
    + intros H. injection H as _ <-. repeat split.
  - intros H. injection H as _ <-. repeat split.
Qed.

Lemma out_books (clean : bool) (num_units result : Z) (s : State) addr s' :
  (let s := if negb (result =? 0) then add_blocks_allocated s 1 else s in
   if negb (result =? 0) && clean then
     dolet m, s <- lift (cleanse (mem s) result 0 (u32 (num_units * UNIT_SIZE))) s ;;
     Ret result (set_mem s m)
   else Ret result s) = Ret addr s' ->
  addr = result /\ superblock s' = superblock s /\
  (result = 0 -> s' = s) /\
  (result <> 0 -> blocks_allocated s' = u64 (blocks_allocated s + 1)).
Proof.
  cbv zeta. destruct (result =? 0) eqn:E; cbn [negb andb].
  - apply Z.eqb_eq in E. intros H. injection H as <- <-.
    split; [reflexivity|]. split; [reflexivity|]. split; [reflexivity|]. intros; contradiction.
  - apply Z.eqb_neq in E. destruct clean.
    + intros H. apply bind_ret_inv in H. destruct H as (m & s1 & Hl & H).
      apply lift_ret_inv in Hl. destruct Hl as [_ ->].
      injection H as <- <-. split; [reflexivity|]. split; [reflexivity|].
      split; [intros; contradiction|]. reflexivity.
    + intros H. injection H as <- <-. split; [reflexivity|]. split; [reflexivity|].
      split; [intros; contradiction|]. reflexivity.
Qed.

(** What [bm_allocate] does to the books, and when it returns the empty
    address. *)
Lemma bm_allocate_books sys_page_size os_mmap s num_units clean addr s' :
  (forall l sz a, os_mmap l sz = Some a -> 0 < a) ->
  bm_allocate sys_page_size os_mmap s num_units clean = Ret addr s' ->
  superblock s' = superblock s /\
  (addr = 0 -> s' = ERR s "mmap: %s") /\
  (addr <> 0 -> blocks_allocated s' = u64 (blocks_allocated s + 1)).
Proof.
  intros Hos Hrun. unfold bm_allocate in Hrun.
  assert (Hu32 : forall x, 0 <= u32 x) by (intros x; unfold u32; apply Z.mod_pos_bound; lia).
  destruct (find_available_page sys_page_size s num_units) as [bm_page s1] eqn:Hfind.
  unfold find_available_page in Hfind.
  apply find_available_page_loop_books in Hfind.
  destruct Hfind as ((_ & Hsb1 & Hba1 & _) & Hnone & Hpos).
  destruct (bm_page =? 0) eqn:Hpage; cbn [negb] in Hrun.
  - apply Z.eqb_eq in Hpage. rewrite (Hnone Hpage) in *. clear Hnone s1 Hsb1 Hba1.
    apply bind_ret_inv in Hrun. destruct Hrun as (page & s2 & Hmap & Hrun).
    pose proof (call_mmap_positive _ _ _ _ _ _ _ Hos Hmap) as Hpg.
    destruct (page =? 0) eqn:Hp.
    + apply Z.eqb_eq in Hp. subst page.
      apply call_mmap_null in Hmap; [|exact Hos]. subst s2.
      apply out_books in Hrun. destruct Hrun as (-> & Hsb & Hsame & _).
      rewrite (Hsame eq_refl). split; [reflexivity|]. split; [reflexivity|].
      intros; contradiction.
    + apply Z.eqb_neq in Hp.
      apply call_mmap_books in Hmap. destruct Hmap as (Hsb2 & Hba2 & _).
      apply bind_ret_inv in Hrun. destruct Hrun as (m & s3 & Hl & Hrun).
      apply lift_ret_inv in Hl. destruct Hl as [_ ->].
      apply out_books in Hrun. destruct Hrun as (-> & Hsb & _ & Hinc).
      pose proof (Hu32 (bm_page_header_size_in_units sys_page_size * UNIT_SIZE)).
      split; [rewrite Hsb; cbn; exact Hsb2|]. split; [intros; lia|].
      intros Hnz. rewrite (Hinc Hnz). cbn. now rewrite Hba2.
  - apply Z.eqb_neq in Hpage.
    apply bind_ret_inv in Hrun. destruct Hrun as (offset & s2 & Hl & Hrun).
    apply lift_ret_inv in Hl. destruct Hl as [_ ->].
    destruct (offset =? 0); [discriminate Hrun|].
    apply bind_ret_inv in Hrun. destruct Hrun as (m & s3 & Hl & Hrun).
    apply lift_ret_inv in Hl. destruct Hl as [_ ->].
    apply bind_ret_inv in Hrun. destruct Hrun as ([] & s4 & Hadd & Hrun).
    apply add_to_superblock_books in Hadd. destruct Hadd as (_ & Hsb4 & Hba4 & _).
    apply out_books in Hrun. destruct Hrun as (-> & Hsb & _ & Hinc).
    pose proof (Hu32 (offset * UNIT_SIZE)).
    split; [rewrite Hsb, Hsb4; exact Hsb1|]. split; [intros; lia|].
    intros Hnz. rewrite (Hinc Hnz), Hba4. cbn. now rewrite Hba1.
Qed.

(** X10.  [_allocate] returns the empty address in two cases only, the
    kernel mapping at positive addresses: for a request of zero bytes,
    which changes nothing, and when [mmap] fails, which changes nothing
    but the diagnostic printed.  A block returned is counted in
    [blocks_allocated], and the superblock pointer never changes. *)
Theorem allocate_null_only_on_failure
    (sys_page_size : Z) (os_mmap : list Z -> Z -> option Z)
    (s s' : State) (nbytes addr : Z) (clean : bool) :
  (forall l sz a, os_mmap l sz = Some a -> 0 < a) ->
  _allocate sys_page_size os_mmap s nbytes clean = Ret addr s' ->
  superblock s' = superblock s /\
  (addr = 0 -> (nbytes = 0 /\ s' = s) \/ (nbytes <> 0 /\ s' = ERR s "mmap: %s")) /\
  (addr <> 0 -> nbytes <> 0 /\ blocks_allocated s' = u64 (blocks_allocated s + 1)).
Proof.
  intros Hos Hrun. unfold _allocate in Hrun.
  destruct (nbytes =? 0) eqn:Hn.
  - apply Z.eqb_eq in Hn. injection Hrun as <- <-.
    split; [reflexivity|]. split; [now left|]. intros; contradiction.
  - apply Z.eqb_neq in Hn.
    destruct (bytes_to_units nbytes <? max_data_units sys_page_size).
    + destruct (bm_allocate_books _ _ _ _ _ _ _ Hos Hrun) as (Hsb & Hnull & Hcount).
      split; [exact Hsb|]. split; [intros Hz; right; auto|auto].
    + apply bind_ret_inv in Hrun. destruct Hrun as (result & s1 & Hmap & Hrun).
      injection Hrun as -> <-.
      pose proof (call_mmap_books _ _ _ _ _ _ _ Hmap) as (Hsb & Hba & _).
      destruct (addr =? 0) eqn:Ha; cbn [negb].
      * apply Z.eqb_eq in Ha. subst addr.
        apply call_mmap_null in Hmap; [|exact Hos].
        split; [exact Hsb|]. split; [right; auto|]. intros; contradiction.
      * apply Z.eqb_neq in Ha. split; [exact Hsb|]. split; [intros; contradiction|].
        intros _. split; [exact Hn|]. cbn. now rewrite Hba.
Qed.

Lemma machine_mmap_positive :
  forall l sz a, Machine.os_mmap l sz = Some a -> 0 < a.
Proof.
  intros l sz a H. unfold Machine.os_mmap in H. injection H as <-.
  assert (Hge : forall xs, 65536 <= fold_right Z.max 65536 xs).
  { induction xs as [|x xs IH]; cbn [fold_right]; lia. }
  specialize (Hge (map (fun p => p + Machine.sys_page_size) l)). lia.
Qed.

Lemma allocate_null_only_on_failure_witness :
  (forall l sz a, Machine.os_mmap l sz = Some a -> 0 < a) /\
  Machine.small_block
    = Ret (value_of Machine.small_block 0) (state_of Machine.small_block Machine.booted) /\
  superblock (state_of Machine.small_block Machine.booted) = superblock Machine.booted /\
  (value_of Machine.small_block 0 = 0 ->
   (48 = 0 /\ state_of Machine.small_block Machine.booted = Machine.booted) \/
   (48 <> 0 /\ state_of Machine.small_block Machine.booted = ERR Machine.booted "mmap: %s")) /\
  (value_of Machine.small_block 0 <> 0 ->
   48 <> 0 /\
   blocks_allocated (state_of Machine.small_block Machine.booted)
   = u64 (blocks_allocated Machine.booted + 1)).
Proof.
  assert (H : Machine.small_block
              = Ret (value_of Machine.small_block 0)
                    (state_of Machine.small_block Machine.booted)).
  { apply returned_value_state. vm_compute. exact I. }
  split; [exact machine_mmap_positive|]. split; [exact H|].
  exact (allocate_null_only_on_failure Machine.sys_page_size Machine.os_mmap
           Machine.booted _ 48 _ true machine_mmap_positive H).
Defined.

Lemma call_munmap_books os_munmap s addr size :
  mem (call_munmap os_munmap s addr size) = mem s /\
  superblock (call_munmap os_munmap s addr size) = superblock s /\
  blocks_allocated (call_munmap os_munmap s addr size) = blocks_allocated s /\
  num_bm_pages (call_munmap os_munmap s addr size) = num_bm_pages s /\
  (if os_munmap (mapped s) addr size
   then mapped (call_munmap os_munmap s addr size) = unmap_pages (mapped s) addr size /\
        err_log (call_munmap os_munmap s addr size) = err_log s
   else mapped (call_munmap os_munmap s addr size) = mapped s /\
        err_log (call_munmap os_munmap s addr size)
        = "munmap(%p, %u): %s"%string :: err_log s).
Proof.
  unfold call_munmap. destruct (os_munmap (mapped s) addr size); repeat split.
Qed.



(** The size of a large block rounded to pages can wrap to zero: the
    release of the first large block with a size of [UINT_MAX] counts the
    block out, and [munmap], called with a length of zero, fails. *)
Example release_wrapped_size_prints :
  returns
    (bind (Machine.allocate 8192 Machine.booted)
       (fun a s => Machine.release a 4294967295 s))
    (fun x s => x = 0 /\ blocks_allocated s = 0 /\
                err_log s = ["munmap(%p, %u): %s"%string] /\
                mapped s = [0x11000; 0x12000; 0x10000]).
Proof. vm_compute. repeat split. Qed.

(** ** The debug adaptor, continued *)

(** X12.  Under the debug adaptor, the release of a block (region within
    [unsigned]) looks at the [BUBBLEWRAP] bytes below and above the
    block and at nothing else: when all of them are [0xFF] it frees the
    region, clears the caller's pointer and counts one block less; when
    one of them is not, it terminates the process after a diagnostic,
    with nothing freed. *)
Theorem debug_release_checks_red_zones (s : Debug.State) (addr nbytes : Z) :
  addr <> 0 -> 0 <= nbytes -> nbytes + 80 < 2 ^ 32 ->
  ((forall x, addr - Debug.BUBBLEWRAP <= x < addr \/
              addr + nbytes <= x < addr + nbytes + Debug.BUBBLEWRAP ->
              load_byte (Debug.mem s) x = 0xFF) ->
   Debug._release s addr nbytes = Ret 0 (Debug.add_blocks_allocated s (-1))) /\
  ((exists x, (addr - Debug.BUBBLEWRAP <= x < addr \/
               addr + nbytes <= x < addr + nbytes + Debug.BUBBLEWRAP) /\
              load_byte (Debug.mem s) x <> 0xFF) ->
   exists msg, Debug._release s addr nbytes = Aborted (Debug.say s msg)).
Proof. exact (debug_release_spec s addr nbytes). Qed.

Lemma debug_release_checks_red_zones_witness :
  0x1030 <> 0 /\ 0 <= 10 /\ 10 + 80 < 2 ^ 32 /\
  ((forall x, 0x1030 - Debug.BUBBLEWRAP <= x < 0x1030 \/
              0x1030 + 10 <= x < 0x1030 + 10 + Debug.BUBBLEWRAP ->
              load_byte (Debug.mem Machine.debug_state) x = 0xFF) ->
   Debug._release Machine.debug_state 0x1030 10
   = Ret 0 (Debug.add_blocks_allocated Machine.debug_state (-1))) /\
  ((exists x, (0x1030 - Debug.BUBBLEWRAP <= x < 0x1030 \/
               0x1030 + 10 <= x < 0x1030 + 10 + Debug.BUBBLEWRAP) /\
              load_byte (Debug.mem Machine.debug_state) x <> 0xFF) ->
   exists msg, Debug._release Machine.debug_state 0x1030 10
               = Aborted (Debug.say Machine.debug_state msg)).
Proof.
  assert (H1 : 0x1030 <> 0) by lia.
  assert (H2 : 0 <= 10) by lia.
  assert (H3 : 10 + 80 < 2 ^ 32) by (change (2 ^ 32) with 4294967296; lia).
  split; [exact H1|]. split; [exact H2|]. split; [exact H3|].
  exact (debug_release_checks_red_zones Machine.debug_state 0x1030 10 H1 H2 H3).
Defined.


(** X13.  Under the debug adaptor a successful [_allocate] hands out a
    block 48 bytes into the region: the 32 bytes below and the 32 bytes
    above the block hold [0xFF], the block is zero when [clean] is set
    and as the memory had it otherwise, nothing outside the region is
    written and the block is counted.  Whatever the caller then stores
    inside the block, the release of the block succeeds. *)
Theorem debug_allocate_release_round_trip
    (s s1 : Debug.State) (region_start nbytes a : Z) (clean : bool) :
  0 <= nbytes < 2 ^ 32 ->
  Debug._allocate s region_start nbytes clean = Ret a s1 -> a <> 0 ->
  a = Debug.block_from_region region_start /\
  (forall x, a - Debug.BUBBLEWRAP <= x < a \/
             a + nbytes <= x < a + nbytes + Debug.BUBBLEWRAP ->
             load_byte (Debug.mem s1) x = 0xFF) /\
  (forall x, a <= x < a + nbytes ->
             Debug.mem s1 x = if clean then 0 else Debug.mem s x) /\
  (forall x, ~ region_start <= x < region_start + (nbytes + 80) ->
             Debug.mem s1 x = Debug.mem s x) /\
  Debug.blocks_allocated s1 = u64 (Debug.blocks_allocated s + 1) /\
  (forall m',
     (forall x, ~ a <= x < a + nbytes -> m' x = Debug.mem s1 x) ->
     Debug._release (Debug.set_mem s1 m') a nbytes
     = Ret 0 (Debug.add_blocks_allocated (Debug.set_mem s1 m') (-1))).
Proof.
  intros Hn Hrun Ha.
  destruct (debug_allocate_spec s region_start nbytes clean a s1 Hn Hrun Ha)
    as (Hblock & Hroom & Hzones & Hbody & Hframe & Hcount & _).
  split; [exact Hblock|]. split; [exact Hzones|]. split; [exact Hbody|].
  split; [exact Hframe|]. split; [exact Hcount|].
  intros m' Hm'.
  destruct (debug_release_spec (Debug.set_mem s1 m') a nbytes Ha
              ltac:(lia) Hroom) as [Hpass _].
  apply Hpass. intros x Hx. cbn [Debug.mem Debug.set_mem]. unfold load_byte.
  rewrite Hm' by (unfold Debug.BUBBLEWRAP in Hx; lia).
  apply Hzones. exact Hx.
Qed.

Lemma debug_allocate_release_round_trip_witness :
  0 <= 10 < 2 ^ 32 /\
  Machine.debug_block = Ret (value_of Machine.debug_block 0) Machine.debug_state /\
  value_of Machine.debug_block 0 <> 0 /\
  value_of Machine.debug_block 0 = Debug.block_from_region 0x1000 /\
  (forall x, value_of Machine.debug_block 0 - Debug.BUBBLEWRAP <= x
               < value_of Machine.debug_block 0 \/
             value_of Machine.debug_block 0 + 10 <= x
               < value_of Machine.debug_block 0 + 10 + Debug.BUBBLEWRAP ->
             load_byte (Debug.mem Machine.debug_state) x = 0xFF) /\
  (forall x, value_of Machine.debug_block 0 <= x < value_of Machine.debug_block 0 + 10 ->
             Debug.mem Machine.debug_state x
             = if false then 0 else Debug.mem Machine.debug_start x) /\
  (forall x, ~ 0x1000 <= x < 0x1000 + (10 + 80) ->
             Debug.mem Machine.debug_state x = Debug.mem Machine.debug_start x) /\
  Debug.blocks_allocated Machine.debug_state
  = u64 (Debug.blocks_allocated Machine.debug_start + 1) /\
  (forall m',
     (forall x, ~ value_of Machine.debug_block 0 <= x < value_of Machine.debug_block 0 + 10 ->
                m' x = Debug.mem Machine.debug_state x) ->
     Debug._release (Debug.set_mem Machine.debug_state m') (value_of Machine.debug_block 0) 10
     = Ret 0 (Debug.add_blocks_allocated (Debug.set_mem Machine.debug_state m') (-1))).
Proof.
  assert (H1 : 0 <= 10 < 2 ^ 32) by (change (2 ^ 32) with 4294967296; lia).
  assert (H2 : Machine.debug_block = Ret (value_of Machine.debug_block 0) Machine.debug_state).
  { apply returned_value_state. vm_compute. exact I. }
  assert (H3 : value_of Machine.debug_block 0 <> 0) by (vm_compute; congruence).
  split; [exact H1|]. split; [exact H2|]. split; [exact H3|].
  exact (debug_allocate_release_round_trip Machine.debug_start Machine.debug_state
           0x1000 10 _ false H1 H2 H3).
Defined.

(** X14.  Under the debug adaptor a request so large that the size of
    the region, [nbytes + 80], does not fit [unsigned] terminates the
    process once the host allocator has returned the (wrapped, small)
    region: the end of the region is found not to lie beyond the end of
    the block. *)
Theorem debug_allocate_oversize_exits
    (s : Debug.State) (region_start nbytes : Z) (clean : bool) :
  region_start <> 0 -> 2 ^ 32 - 80 <= nbytes < 2 ^ 32 ->
  terminates (Debug._allocate s region_start nbytes clean) (fun s' =>
    Debug.err_log s'
    = "%s: region_end %p must be greater than block_end %p"%string :: Debug.err_log s /\
    Debug.blocks_allocated s' = Debug.blocks_allocated s).
Proof.
  intros Hr Hn. unfold Debug._allocate.
  replace (region_start =? 0) with false by (symmetry; now apply Z.eqb_neq).
  assert (Hsize : Debug.calc_memsize nbytes = nbytes + 80 - 2 ^ 32).
  { unfold Debug.calc_memsize, Debug.sizeof_MemBlockInfo, Debug.BUBBLEWRAP, u32.
    change (2 ^ 32) with 4294967296 in *. Z.div_mod_to_equations; lia. }
  rewrite Hsize.
  replace (region_start + (nbytes + 80 - 2 ^ 32) <=?
           region_start + Debug.sizeof_MemBlockInfo + Debug.BUBBLEWRAP + nbytes) with true.
  2:{ symmetry. apply Z.leb_le. unfold Debug.sizeof_MemBlockInfo, Debug.BUBBLEWRAP.
      change (2 ^ 32) with 4294967296. lia. }
  cbn [terminates]. destruct clean; cbn; split; reflexivity.
Qed.

Lemma debug_allocate_oversize_exits_witness :
  0x1000 <> 0 /\ 2 ^ 32 - 80 <= 4294967295 < 2 ^ 32 /\
  terminates (Debug._allocate Machine.debug_start 0x1000 4294967295 true) (fun s' =>
    Debug.err_log s'
    = "%s: region_end %p must be greater than block_end %p"%string
      :: Debug.err_log Machine.debug_start /\
    Debug.blocks_allocated s' = Debug.blocks_allocated Machine.debug_start).
Proof.
  assert (H1 : 0x1000 <> 0) by lia.
  assert (H2 : 2 ^ 32 - 80 <= 4294967295 < 2 ^ 32) by (change (2 ^ 32) with 4294967296; lia).
  split; [exact H1|]. split; [exact H2|].
  exact (debug_allocate_oversize_exits Machine.debug_start 0x1000 4294967295 true H1 H2).
Defined.

(** X15.  Under the debug adaptor a successful reallocate to a larger
    size (the new region not overlapping the old block) keeps the
    [old_nbytes] bytes of the block, leaves the bytes from [old_nbytes]
    to [new_nbytes] zero when [clean] is set, reports a changed address,
    and leaves the red zones of the new block intact: its release
    succeeds. *)
Theorem debug_grow_keeps_content
    (s s' : Debug.State) (region_start addr old_nbytes new_nbytes : Z)
    (clean : bool) (r : Debug.Realloc) :
  0 <= old_nbytes < new_nbytes -> new_nbytes < 2 ^ 32 -> addr <> 0 ->
  (forall i, 0 <= i < old_nbytes ->
     ~ region_start <= addr + i < region_start + Debug.calc_memsize new_nbytes) ->
  Debug._reallocate s region_start addr old_nbytes new_nbytes clean = Ret r s' ->
  Debug.ok r = true ->
  Debug.addr_out r = Debug.block_from_region region_start /\
  Debug.addr_changed r = true /\
  (forall i, 0 <= i < old_nbytes ->
     load_byte (Debug.mem s') (Debug.addr_out r + i) = load_byte (Debug.mem s) (addr + i)) /\
  (clean = true ->
   forall i, old_nbytes <= i < new_nbytes ->
     load_byte (Debug.mem s') (Debug.addr_out r + i) = 0) /\
  Debug.blocks_allocated s' = u64 (u64 (Debug.blocks_allocated s + 1) - 1) /\
  Debug._release s' (Debug.addr_out r) new_nbytes
  = Ret 0 (Debug.add_blocks_allocated s' (-1)).
Proof.
  intros Hsz Hnew Haddr Hdisj Hrun Hok.
  unfold Debug._reallocate in Hrun.
  replace (old_nbytes =? new_nbytes) with false in Hrun
    by (symmetry; apply Z.eqb_neq; lia).
  replace (addr =? 0) with false in Hrun by (symmetry; now apply Z.eqb_neq).
  apply bind_ret_inv in Hrun. destruct Hrun as (new_addr & s1 & Halloc & Hrun).
  destruct (new_addr =? 0) eqn:Hnz.
  { injection Hrun as <- _. discriminate Hok. }
  apply Z.eqb_neq in Hnz.
  destruct (debug_allocate_spec s region_start new_nbytes false new_addr s1
              ltac:(lia) Halloc Hnz)
    as (Hblock & Hroom & Hzones & _ & Hframe & Hcount & _).
  assert (Hsize : Debug.calc_memsize new_nbytes = new_nbytes + 80).
  { unfold Debug.calc_memsize, Debug.sizeof_MemBlockInfo, Debug.BUBBLEWRAP.
    rewrite u32_small by lia. lia. }
  rewrite Hsize in Hdisj.
  apply bind_ret_inv in Hrun. destruct Hrun as (a0 & s2 & Hrel & Hrun).
  unfold Debug._release in Hrel.
  replace (addr =? 0) with false in Hrel by (symmetry; now apply Z.eqb_neq).
  apply bind_ret_inv in Hrel. destruct Hrel as ([] & s3 & Hchk & Hrel).
  apply check_region_ret in Hchk. subst s3.
  injection Hrel as _ <-. injection Hrun as <- <-.
  cbn [Debug.addr_out Debug.addr_changed].
  set (m2 := memcpy (Debug.mem s1) new_addr addr old_nbytes).
  set (sf := if clean then _ else _).
  assert (Hmem : forall x, Debug.mem sf x =
            if clean && (new_addr + old_nbytes <=? x) && (x <? new_addr + new_nbytes)
            then 0 else m2 x).
  { intros x. subst sf. destruct clean; cbn [Debug.mem Debug.set_mem
      Debug.add_blocks_allocated andb]; [|reflexivity].
    unfold memset. rewrite u32_small by lia.
    replace (new_addr + old_nbytes + (new_nbytes - old_nbytes))
      with (new_addr + new_nbytes) by lia.
    reflexivity. }
  assert (Hbooks : Debug.blocks_allocated sf = u64 (Debug.blocks_allocated s1 - 1)).
  { subst sf. destruct clean; reflexivity. }
  split; [exact Hblock|]. split; [reflexivity|]. split; [|split; [|split]].
  - intros i Hi. unfold load_byte. rewrite Hmem.
    replace (new_addr + old_nbytes <=? new_addr + i) with false
      by (symmetry; apply Z.leb_gt; lia).
    rewrite andb_false_r. cbn [andb]. subst m2. unfold memcpy. decide_ranges.
    replace (addr + (new_addr + i - new_addr)) with (addr + i) by lia.
    f_equal. apply Hframe. apply Hdisj. lia.
  - intros -> i Hi. unfold load_byte. rewrite Hmem. cbn [andb]. decide_ranges.
    reflexivity.
  - rewrite Hbooks, Hcount. reflexivity.
  - destruct (debug_release_spec sf new_addr new_nbytes Hnz ltac:(lia) Hroom)
      as [Hpass _].
    apply Hpass. intros x Hx. unfold load_byte. rewrite Hmem.
    unfold Debug.BUBBLEWRAP in *.
    replace (clean && (new_addr + old_nbytes <=? x) && (x <? new_addr + new_nbytes))
      with false.
    2:{ symmetry. destruct clean; cbn [andb]; [|reflexivity].
        apply andb_false_iff. rewrite Z.leb_gt, Z.ltb_ge. lia. }
    subst m2. unfold memcpy. decide_ranges. apply Hzones.
    unfold Debug.BUBBLEWRAP. exact Hx.
Qed.

Lemma debug_grow_keeps_content_witness :
  0 <= 10 < 20 /\ 20 < 2 ^ 32 /\ 0x1030 <> 0 /\
  (forall i, 0 <= i < 10 ->
     ~ 0x2000 <= 0x1030 + i < 0x2000 + Debug.calc_memsize 20) /\
  Machine.debug_grown
    = Ret (value_of Machine.debug_grown (Debug.mkRealloc false 0 false))
          (state_of Machine.debug_grown Machine.debug_start) /\
  Debug.ok (value_of Machine.debug_grown (Debug.mkRealloc false 0 false)) = true /\
  Debug.addr_out (value_of Machine.debug_grown (Debug.mkRealloc false 0 false))
  = Debug.block_from_region 0x2000 /\
  Debug.addr_changed (value_of Machine.debug_grown (Debug.mkRealloc false 0 false)) = true /\
  (forall i, 0 <= i < 10 ->
     load_byte (Debug.mem (state_of Machine.debug_grown Machine.debug_start))
       (Debug.addr_out (value_of Machine.debug_grown (Debug.mkRealloc false 0 false)) + i)
     = load_byte (Debug.mem Machine.debug_state) (0x1030 + i)) /\
  (true = true ->
   forall i, 10 <= i < 20 ->
     load_byte (Debug.mem (state_of Machine.debug_grown Machine.debug_start))
       (Debug.addr_out (value_of Machine.debug_grown (Debug.mkRealloc false 0 false)) + i)
     = 0) /\
  Debug.blocks_allocated (state_of Machine.debug_grown Machine.debug_start)
  = u64 (u64 (Debug.blocks_allocated Machine.debug_state + 1) - 1) /\
  Debug._release (state_of Machine.debug_grown Machine.debug_start)
    (Debug.addr_out (value_of Machine.debug_grown (Debug.mkRealloc false 0 false))) 20
  = Ret 0 (Debug.add_blocks_allocated
             (state_of Machine.debug_grown Machine.debug_start) (-1)).
Proof.
  assert (H1 : 0 <= 10 < 20) by lia.
  assert (H2 : 20 < 2 ^ 32) by (change (2 ^ 32) with 4294967296; lia).
  assert (H3 : 0x1030 <> 0) by lia.
  assert (H4 : forall i, 0 <= i < 10 ->
                 ~ 0x2000 <= 0x1030 + i < 0x2000 + Debug.calc_memsize 20).
  { intros i Hi. change (Debug.calc_memsize 20) with 100. lia. }
  assert (H5 : Machine.debug_grown
               = Ret (value_of Machine.debug_grown (Debug.mkRealloc false 0 false))
                     (state_of Machine.debug_grown Machine.debug_start)).
  { apply returned_value_state. vm_compute. exact I. }
  assert (H6 : Debug.ok (value_of Machine.debug_grown (Debug.mkRealloc false 0 false))
               = true) by (vm_compute; reflexivity).
  repeat (split; [assumption|]).
  exact (debug_grow_keeps_content Machine.debug_state _ 0x2000 0x1030 10 20 true _
           H1 H2 H3 H4 H5 H6).
Defined.

(** ** Words in memory *)

Lemma load_store_word_same m a w :
  0 <= w < 2 ^ 64 -> load_word (store_word m a w) a = w.
Proof.
  intros Hw. unfold load_word, load_byte, store_word.
  replace (a - a) with 0 by lia.
  replace (a + 1 - a) with 1 by lia. replace (a + 2 - a) with 2 by lia.
  replace (a + 3 - a) with 3 by lia. replace (a + 4 - a) with 4 by lia.
  replace (a + 5 - a) with 5 by lia. replace (a + 6 - a) with 6 by lia.
  replace (a + 7 - a) with 7 by lia.
  decide_ranges.
  rewrite !Z.shiftr_div_pow2 by lia.
  rewrite !Z.mod_mod by lia.
  change (2 ^ (8 * 0)) with 1. change (2 ^ (8 * 1)) with 256.
  change (2 ^ (8 * 2)) with 65536. change (2 ^ (8 * 3)) with 16777216.
  change (2 ^ (8 * 4)) with 4294967296. change (2 ^ (8 * 5)) with 1099511627776.
  change (2 ^ (8 * 6)) with 281474976710656. change (2 ^ (8 * 7)) with 72057594037927936.
  change (2 ^ 8) with 256. change (2 ^ 16) with 65536. change (2 ^ 24) with 16777216.
  change (2 ^ 32) with 4294967296. change (2 ^ 40) with 1099511627776.
  change (2 ^ 48) with 281474976710656. change (2 ^ 56) with 72057594037927936.
  change (2 ^ 64) with 18446744073709551616 in Hw.
  Z.div_mod_to_equations; lia.
Qed.

Lemma store_word_other m a w x :
  x < a \/ a + 8 <= x -> store_word m a w x = m x.
Proof.
  intros H. unfold store_word.
  replace ((a <=? x) && (x <? a + 8)) with false; [reflexivity|].
  symmetry. apply andb_false_iff. rewrite Z.leb_gt, Z.ltb_ge. lia.
Qed.

Lemma load_store_word_other m a w b :
  b + 8 <= a \/ a + 8 <= b -> load_word (store_word m a w) b = load_word m b.
Proof.
  intros H. unfold load_word, load_byte.
  rewrite !store_word_other by lia. reflexivity.
Qed.

Lemma load_store_word_mod m a w :
  load_word (store_word m a w) a = w mod 2 ^ 64.
Proof.
  unfold load_word, load_byte, store_word.
  replace (a - a) with 0 by lia.
  replace (a + 1 - a) with 1 by lia. replace (a + 2 - a) with 2 by lia.
  replace (a + 3 - a) with 3 by lia. replace (a + 4 - a) with 4 by lia.
  replace (a + 5 - a) with 5 by lia. replace (a + 6 - a) with 6 by lia.
  replace (a + 7 - a) with 7 by lia.
  decide_ranges.
  rewrite !Z.shiftr_div_pow2 by lia.
  rewrite !Z.mod_mod by lia.
  change (2 ^ (8 * 0)) with 1. change (2 ^ (8 * 1)) with 256.
  change (2 ^ (8 * 2)) with 65536. change (2 ^ (8 * 3)) with 16777216.
  change (2 ^ (8 * 4)) with 4294967296. change (2 ^ (8 * 5)) with 1099511627776.
  change (2 ^ (8 * 6)) with 281474976710656. change (2 ^ (8 * 7)) with 72057594037927936.
  change (2 ^ 8) with 256. change (2 ^ 16) with 65536. change (2 ^ 24) with 16777216.
  change (2 ^ 32) with 4294967296. change (2 ^ 40) with 1099511627776.
  change (2 ^ 48) with 281474976710656. change (2 ^ 56) with 72057594037927936.
  change (2 ^ 64) with 18446744073709551616.
  Z.div_mod_to_equations; lia.
Qed.

(** ** [set_bits] and [clear_bits] *)

Lemma set_bits_update m bm_page offset length :
  set_bits m bm_page offset length = update_bits true m bm_page offset length.
Proof. reflexivity. Qed.

Lemma clear_bits_update m bm_page offset length :
  clear_bits m bm_page offset length = update_bits false m bm_page offset length.
Proof. reflexivity. Qed.

Lemma word_op_testbit v old mask b :
  0 <= b < 64 ->
  Z.testbit (word_op v old mask) b = if Z.testbit mask b then v else Z.testbit old b.
Proof.
  intros Hb. unfold word_op. destruct v.
  - rewrite Z.lor_spec. destruct (Z.testbit mask b), (Z.testbit old b); reflexivity.
  - rewrite Z.land_spec, wnot_testbit by lia.
    destruct (Z.testbit mask b), (Z.testbit old b); reflexivity.
Qed.

Lemma low_mask_eq n : 0 <= n < 64 -> u64 (wshl 1 n - 1) = Z.ones n.
Proof.
  intros Hn. unfold wshl, u64. rewrite Z.shiftl_1_l.
  assert (Hp : 0 < 2 ^ n < 2 ^ 64).
  { split; [apply Z.pow_pos_nonneg; lia|apply Z.pow_lt_mono_r; lia]. }
  rewrite (Z.mod_small (2 ^ n)) by lia.
  rewrite Z.mod_small by lia. rewrite Z.ones_equiv. lia.
Qed.

Lemma wshl_testbit x bi b :
  0 <= b < 64 -> 0 <= bi -> Z.testbit (wshl x bi) b = Z.testbit x (b - bi).
Proof.
  intros Hb Hbi. unfold wshl.
  rewrite Z.mod_pow2_bits_low by lia. apply Z.shiftl_spec. lia.
Qed.

Lemma ones_testbit n b : 0 <= n -> Z.testbit (Z.ones n) b = (0 <=? b) && (b <? n).
Proof.
  intros Hn. destruct (Z_lt_dec b 0) as [Hneg|Hpos].
  - rewrite Z.testbit_neg_r by lia. symmetry. apply andb_false_iff. left.
    apply Z.leb_gt. lia.
  - replace (0 <=? b) with true by (symmetry; apply Z.leb_le; lia). cbn [andb].
    destruct (Z_lt_dec b n).
    + rewrite Z.ones_spec_low by lia. symmetry. apply Z.ltb_lt. lia.
    + rewrite Z.ones_spec_high by lia. symmetry. apply Z.ltb_ge. lia.
Qed.

(** The mask of the first word. *)
Lemma first_mask_testbit length bi b :
  0 <= b < 64 -> 0 < bi < 64 -> 0 <= length ->
  Z.testbit
    (wshl (fst (if length <=? WORD_WIDTH - bi
                then (Z.land WORD_MAX (u64 (wshl 1 length - 1)), length)
                else (WORD_MAX, WORD_WIDTH - bi))) bi) b
  = (bi <=? b) && (b <? bi + Z.min length (64 - bi)).
Proof.
  intros Hb Hbi Hlen. unfold WORD_WIDTH, WORD_MAX. change (2 ^ 64 - 1) with (Z.ones 64).
  rewrite wshl_testbit by lia.
  destruct (length <=? 64 - bi) eqn:E; cbn [fst].
  - apply Z.leb_le in E. rewrite low_mask_eq by lia.
    rewrite Z.land_spec, !ones_testbit by lia.
    rewrite Z.min_l by lia.
    destruct (0 <=? b - bi) eqn:E1, (b - bi <? 64) eqn:E2, (b - bi <? length) eqn:E3,
             (bi <=? b) eqn:E4, (b <? bi + length) eqn:E5; cbn [andb]; try reflexivity;
      rewrite ?Z.leb_le, ?Z.leb_gt, ?Z.ltb_lt, ?Z.ltb_ge in *; lia.
  - apply Z.leb_gt in E. rewrite ones_testbit by lia. rewrite Z.min_r by lia.
    destruct (0 <=? b - bi) eqn:E1, (b - bi <? 64) eqn:E2,
             (bi <=? b) eqn:E4, (b <? bi + (64 - bi)) eqn:E5; cbn [andb]; try reflexivity;
      rewrite ?Z.leb_le, ?Z.leb_gt, ?Z.ltb_lt, ?Z.ltb_ge in *; lia.
Qed.

(** One word of the bitmap is stored: the bits [[bi, bi + n)] of word
    [j] take the value [v]. *)
Lemma store_bitmap_word v bm_page m j w bi n :
  0 <= bi -> 0 <= n -> bi + n <= 64 ->
  (forall b, 0 <= b < 64 ->
     Z.testbit w b = if (bi <=? b) && (b <? bi + n) then v
                     else Z.testbit (load_word m (bitmap_addr bm_page j)) b) ->
  (forall i, bm_bit (bitmap_of (store_word m (bitmap_addr bm_page j) w) bm_page) i =
             if (64 * j + bi <=? i) && (i <? 64 * j + bi + n) then v
             else bm_bit (bitmap_of m bm_page) i) /\
  (forall x, x < bitmap_addr bm_page j \/ bitmap_addr bm_page (j + 1) <= x ->
             store_word m (bitmap_addr bm_page j) w x = m x).
Proof.
  intros Hbi Hn Hfit Hw. split.
  - intros i. unfold bm_bit, bitmap_of, WORD_WIDTH.
    assert (Hi : 0 <= i mod 64 < 64) by (apply Z.mod_pos_bound; lia).
    destruct (Z.eq_dec (i / 64) j) as [Hj|Hj].
    + rewrite Hj, load_store_word_mod, Z.mod_pow2_bits_low by lia.
      rewrite Hw by lia.
      replace ((64 * j + bi <=? i) && (i <? 64 * j + bi + n))
        with ((bi <=? i mod 64) && (i mod 64 <? bi + n)); [reflexivity|].
      destruct (bi <=? i mod 64) eqn:E1, (i mod 64 <? bi + n) eqn:E2,
               (64 * j + bi <=? i) eqn:E3, (i <? 64 * j + bi + n) eqn:E4;
        cbn [andb]; try reflexivity;
        rewrite ?Z.leb_le, ?Z.leb_gt, ?Z.ltb_lt, ?Z.ltb_ge in *;
        Z.div_mod_to_equations; lia.
    + rewrite load_store_word_other by (unfold bitmap_addr; lia).
      replace ((64 * j + bi <=? i) && (i <? 64 * j + bi + n)) with false; [reflexivity|].
      symmetry. apply andb_false_iff. rewrite Z.leb_gt, Z.ltb_ge.
      Z.div_mod_to_equations; lia.
  - intros x Hx. apply store_word_other. unfold bitmap_addr in *. lia.
Qed.

Lemma bits_updated_refl v bm_page m lo : bits_updated v bm_page m m lo lo.
Proof.
  split; [|reflexivity]. intros i.
  replace ((lo <=? i) && (i <? lo)) with false; [reflexivity|].
  symmetry. apply andb_false_iff. rewrite Z.leb_gt, Z.ltb_ge. lia.
Qed.

Lemma bits_updated_trans v bm_page m1 m2 m3 lo mid hi :
  0 <= lo <= mid -> mid <= hi ->
  bits_updated v bm_page m1 m2 lo mid -> bits_updated v bm_page m2 m3 mid hi ->
  bits_updated v bm_page m1 m3 lo hi.
Proof.
  intros Hlo Hhi [Hb1 Hf1] [Hb2 Hf2]. split.
  - intros i. rewrite Hb2, Hb1.
    destruct (mid <=? i) eqn:E1, (i <? hi) eqn:E2, (lo <=? i) eqn:E3, (i <? mid) eqn:E4;
      cbn [andb]; try reflexivity;
      rewrite ?Z.leb_le, ?Z.leb_gt, ?Z.ltb_lt, ?Z.ltb_ge in *; lia.
  - intros x Hx. unfold bitmap_addr in *.
    rewrite Hf2, Hf1; [reflexivity| |]; unfold bitmap_addr;
      Z.div_mod_to_equations; lia.
Qed.

Lemma fill_words_spec (v : bool) bm_page :
  forall fuel m j len,
  0 <= j -> 0 <= len < 2 ^ 32 -> len / 64 < Z.of_nat fuel ->
  exists m',
    fill_words fuel (if v then WORD_MAX else 0) m (bitmap_addr bm_page j) len
    = Some (m', bitmap_addr bm_page (j + len / 64), len mod 64) /\
    bits_updated v bm_page m m' (64 * j) (64 * (j + len / 64)).
Proof.
  induction fuel as [|fuel IH]; intros m j len Hj Hlen Hfuel.
  - exfalso. Z.div_mod_to_equations; lia.
  - cbn [fill_words]. unfold WORD_WIDTH at 1.
    destruct (64 <=? len) eqn:E.
    + apply Z.leb_le in E. unfold WORD_WIDTH at 1. rewrite u32_small by lia.
      replace (bitmap_addr bm_page j + 8) with (bitmap_addr bm_page (j + 1))
        by (unfold bitmap_addr; lia).
      destruct (IH (store_word m (bitmap_addr bm_page j) (if v then WORD_MAX else 0))
                  (j + 1) (len - 64)) as (m' & Hrun & Hupd); try lia.
      { Z.div_mod_to_equations; lia. }
      exists m'. split.
      * rewrite Hrun. f_equal. f_equal; [f_equal|].
        -- f_equal. Z.div_mod_to_equations; lia.
        -- Z.div_mod_to_equations; lia.
      * replace (64 * (j + len / 64)) with (64 * (j + 1 + (len - 64) / 64))
          by (Z.div_mod_to_equations; lia).
        assert (Hmid : 64 * (j + 1) <= 64 * (j + 1 + (len - 64) / 64))
          by (Z.div_mod_to_equations; lia).
        refine (bits_updated_trans v bm_page m _ m' (64 * j) (64 * (j + 1)) _
                  ltac:(lia) Hmid _ Hupd).
        destruct (store_bitmap_word v bm_page m j (if v then WORD_MAX else 0) 0 64)
          as [Hb Hf]; try lia.
        { intros b Hb. replace ((0 <=? b) && (b <? 0 + 64)) with true
            by (symmetry; apply andb_true_iff; split;
                [apply Z.leb_le|apply Z.ltb_lt]; lia).
          destruct v; [|apply Z.testbit_0_l].
          unfold WORD_MAX. change (2 ^ 64 - 1) with (Z.ones 64).
          apply Z.ones_spec_low. lia. }
        split.
        -- intros i. rewrite Hb.
           replace (64 * j + 0) with (64 * j) by lia.
           replace (64 * j + 64) with (64 * (j + 1)) by lia. reflexivity.
        -- intros x Hx. apply Hf. unfold bitmap_addr in *.
           replace (64 * j / 64) with j in Hx by (Z.div_mod_to_equations; lia).
           replace ((64 * (j + 1) + 63) / 64) with (j + 1) in Hx
             by (Z.div_mod_to_equations; lia).
           lia.
    + apply Z.leb_gt in E. exists m.
      replace (len / 64) with 0 by (Z.div_mod_to_equations; lia).
      replace (len mod 64) with len by (Z.div_mod_to_equations; lia).
      rewrite Z.add_0_r. split; [reflexivity|apply bits_updated_refl].
Qed.

(** The part of [set_bits] and [clear_bits] that starts on a word
    boundary: whole words, then the bits of the last word. *)
Lemma aligned_update_spec (v : bool) bm_page m j len :
  0 <= j -> 0 <= len < 2 ^ 32 ->
  exists m',
    match fill_words (S (Z.to_nat len)) (if v then WORD_MAX else 0) m
            (bitmap_addr bm_page j) len with
    | None => None
    | Some (m, ptr, length) =>
      if negb (length =? 0)
      then Some (store_word m ptr (word_op v (load_word m ptr) (u64 (wshl 1 length - 1))))
      else Some m
    end = Some m' /\
    bits_updated v bm_page m m' (64 * j) (64 * j + len).
Proof.
  intros Hj Hlen.
  destruct (fill_words_spec v bm_page (S (Z.to_nat len)) m j len Hj Hlen)
    as (m1 & Hrun & Hupd).
  { rewrite Nat2Z.inj_succ, Z2Nat.id by lia. Z.div_mod_to_equations; lia. }
  rewrite Hrun.
  assert (Hrest : 0 <= len mod 64 < 64) by (apply Z.mod_pos_bound; lia).
  assert (Hsplit : 64 * j + len = 64 * (j + len / 64) + len mod 64)
    by (Z.div_mod_to_equations; lia).
  destruct (len mod 64 =? 0) eqn:E; cbn [negb].
  - apply Z.eqb_eq in E. exists m1. split; [reflexivity|].
    rewrite Hsplit, E, Z.add_0_r. exact Hupd.
  - apply Z.eqb_neq in E. eexists. split; [reflexivity|].
    rewrite Hsplit.
    apply (bits_updated_trans v bm_page m m1 _ (64 * j) (64 * (j + len / 64))
             (64 * (j + len / 64) + len mod 64));
      [split; [lia|]; Z.div_mod_to_equations; lia | lia | exact Hupd |].
    destruct (store_bitmap_word v bm_page m1 (j + len / 64)
                (word_op v (load_word m1 (bitmap_addr bm_page (j + len / 64)))
                   (u64 (wshl 1 (len mod 64) - 1))) 0 (len mod 64))
      as [Hb Hf]; try lia.
    { intros b Hb. rewrite word_op_testbit, low_mask_eq, ones_testbit by lia.
      rewrite Z.add_0_l. reflexivity. }
    split.
    + intros i. rewrite Hb.
      replace (64 * (j + len / 64) + 0) with (64 * (j + len / 64)) by lia. reflexivity.
    + intros x Hx. apply Hf. unfold bitmap_addr in *.
      replace (64 * (j + len / 64) / 64) with (j + len / 64) in Hx
        by (Z.div_mod_to_equations; lia).
      replace ((64 * (j + len / 64) + len mod 64 + 63) / 64) with (j + len / 64 + 1) in Hx
        by (Z.div_mod_to_equations; lia).
      lia.
Qed.

Lemma update_bits_spec (v : bool) m bm_page offset length :
  0 <= offset -> 0 <= length < 2 ^ 32 ->
  exists m', update_bits v m bm_page offset length = Some m' /\
             bits_updated v bm_page m m' offset (offset + length).
Proof.
  intros Ho Hlen. unfold update_bits, WORD_WIDTH.
  change (64 - 1) with (Z.ones 6). rewrite Z.land_ones by lia. change (2 ^ 6) with 64.
  set (j := offset / 64). set (bi := offset mod 64).
  assert (Hsplit : offset = 64 * j + bi /\ 0 <= bi < 64 /\ 0 <= j).
  { subst j bi. Z.div_mod_to_equations; lia. }
  destruct Hsplit as (Hsplit & Hbi & Hj).
  destruct (bi =? 0) eqn:Ebi; cbn [negb].
  - apply Z.eqb_eq in Ebi.
    destruct (aligned_update_spec v bm_page m j length Hj Hlen) as (m' & Hrun & Hupd).
    exists m'. split; [exact Hrun|]. rewrite Hsplit, Ebi, Z.add_0_r. exact Hupd.
  - apply Z.eqb_neq in Ebi.
    destruct (length <=? 64 - bi) eqn:E.
    + (* the run ends in the first word *)
      apply Z.leb_le in E.
      replace (u32 (length - length)) with 0 by (rewrite Z.sub_diag; reflexivity).
      cbn [fill_words Z.to_nat]. unfold WORD_WIDTH. cbn [Z.leb Z.compare Z.eqb negb].
      eexists. split; [reflexivity|].
      destruct (store_bitmap_word v bm_page m j
                  (word_op v (load_word m (bitmap_addr bm_page j))
                     (wshl (Z.land WORD_MAX (u64 (wshl 1 length - 1))) bi)) bi length)
        as [Hb Hf]; try lia.
      { intros b Hb. rewrite word_op_testbit by lia.
        pose proof (first_mask_testbit length bi b Hb ltac:(lia) ltac:(lia)) as Hm.
        unfold WORD_WIDTH in Hm.
        replace (length <=? 64 - bi) with true in Hm by (symmetry; apply Z.leb_le; lia).
        cbn [fst] in Hm. rewrite Hm, Z.min_l by lia. reflexivity. }
      split.
      * intros i. rewrite Hb, Hsplit. reflexivity.
      * intros x Hx. apply Hf. unfold bitmap_addr in *. fold j in Hx.
        assert ((offset + length + 63) / 64 <= j + 1) by (Z.div_mod_to_equations; lia).
        assert (j <= (offset + length + 63) / 64 \/ length = 0)
          by (Z.div_mod_to_equations; lia).
        destruct (Z.eq_dec ((offset + length + 63) / 64) (j + 1)); [lia|].
        exfalso. Z.div_mod_to_equations; lia.
    + (* the first word is filled to its end *)
      apply Z.leb_gt in E.
      rewrite (u32_small (length - (64 - bi))) by lia.
      replace (bitmap_addr bm_page j + 8) with (bitmap_addr bm_page (j + 1))
        by (unfold bitmap_addr; lia).
      set (m0 := store_word m (bitmap_addr bm_page j) _).
      destruct (aligned_update_spec v bm_page m0 (j + 1) (length - (64 - bi)))
        as (m' & Hrun & Hupd); try lia.
      exists m'. split; [exact Hrun|].
      replace (64 * (j + 1) + (length - (64 - bi))) with (offset + length) in Hupd by lia.
      apply (bits_updated_trans v bm_page m m0 m' offset (64 * (j + 1)) (offset + length));
        [lia | lia | | exact Hupd].
      subst m0.
      destruct (store_bitmap_word v bm_page m j
                  (word_op v (load_word m (bitmap_addr bm_page j)) (wshl WORD_MAX bi))
                  bi (64 - bi)) as [Hb Hf]; try lia.
      { intros b Hb. rewrite word_op_testbit by lia.
        pose proof (first_mask_testbit length bi b Hb ltac:(lia) ltac:(lia)) as Hm.
        unfold WORD_WIDTH in Hm.
        replace (length <=? 64 - bi) with false in Hm by (symmetry; apply Z.leb_gt; lia).
        cbn [fst] in Hm. rewrite Hm, Z.min_r by lia. reflexivity. }
      split.
      * intros i. rewrite Hb, Hsplit.
        replace (64 * j + bi + (64 - bi)) with (64 * (j + 1)) by lia. reflexivity.
      * intros x Hx. apply Hf. unfold bitmap_addr in *. fold j in Hx.
        replace ((64 * (j + 1) + 63) / 64) with (j + 1) in Hx
          by (Z.div_mod_to_equations; lia).
        lia.
Qed.

(** ** Marking and unmarking units *)

(** X16.  [set_bits(offset, length)] returns; afterwards the bits of
    [[offset, offset + length)] are set and every other bit of the bitmap
    has the value it had, whatever the alignment of the run to the words
    of the bitmap is; memory outside the bitmap words that hold the run
    is not written. *)
Theorem set_bits_sets_exactly (m : Mem) (bm_page offset length : Z) :
  0 <= offset -> 0 <= length < 2 ^ 32 ->
  exists m', set_bits m bm_page offset length = Some m' /\
    (forall i, bm_bit (bitmap_of m' bm_page) i =
               if (offset <=? i) && (i <? offset + length) then true
               else bm_bit (bitmap_of m bm_page) i) /\
    (forall x, x < bitmap_addr bm_page (offset / 64) \/
               bitmap_addr bm_page ((offset + length + 63) / 64) <= x -> m' x = m x).
Proof. exact (update_bits_spec true m bm_page offset length). Qed.

Lemma set_bits_sets_exactly_witness :
  0 <= 60 /\ 0 <= 70 < 2 ^ 32 /\
  exists m', set_bits (fun _ => 0) 0x11000 60 70 = Some m' /\
    (forall i, bm_bit (bitmap_of m' 0x11000) i =
               if (60 <=? i) && (i <? 60 + 70) then true
               else bm_bit (bitmap_of (fun _ => 0) 0x11000) i) /\
    (forall x, x < bitmap_addr 0x11000 (60 / 64) \/
               bitmap_addr 0x11000 ((60 + 70 + 63) / 64) <= x -> m' x = 0).
Proof.
  assert (H1 : 0 <= 60) by lia.
  assert (H2 : 0 <= 70 < 2 ^ 32) by (change (2 ^ 32) with 4294967296; lia).
  split; [exact H1|]. split; [exact H2|].
  exact (set_bits_sets_exactly (fun _ => 0) 0x11000 60 70 H1 H2).
Defined.

(** X17.  [clear_bits(offset, length)] returns; afterwards the bits of
    [[offset, offset + length)] are clear and every other bit of the
    bitmap has the value it had; memory outside the bitmap words that
    hold the run is not written. *)
Theorem clear_bits_clears_exactly (m : Mem) (bm_page offset length : Z) :
  0 <= offset -> 0 <= length < 2 ^ 32 ->
  exists m', clear_bits m bm_page offset length = Some m' /\
    (forall i, bm_bit (bitmap_of m' bm_page) i =
               if (offset <=? i) && (i <? offset + length) then false
               else bm_bit (bitmap_of m bm_page) i) /\
    (forall x, x < bitmap_addr bm_page (offset / 64) \/
               bitmap_addr bm_page ((offset + length + 63) / 64) <= x -> m' x = m x).
Proof. exact (update_bits_spec false m bm_page offset length). Qed.

Lemma clear_bits_clears_exactly_witness :
  0 <= 60 /\ 0 <= 70 < 2 ^ 32 /\
  exists m', clear_bits (fun _ => 255) 0x11000 60 70 = Some m' /\
    (forall i, bm_bit (bitmap_of m' 0x11000) i =
               if (60 <=? i) && (i <? 60 + 70) then false
               else bm_bit (bitmap_of (fun _ => 255) 0x11000) i) /\
    (forall x, x < bitmap_addr 0x11000 (60 / 64) \/
               bitmap_addr 0x11000 ((60 + 70 + 63) / 64) <= x -> m' x = 255).
Proof.
  assert (H1 : 0 <= 60) by lia.
  assert (H2 : 0 <= 70 < 2 ^ 32) by (change (2 ^ 32) with 4294967296; lia).
  split; [exact H1|]. split; [exact H2|].
  exact (clear_bits_clears_exactly (fun _ => 255) 0x11000 60 70 H1 H2).
Defined.

(** X18.  Marking a run of free units with [set_bits] and unmarking it
    with [clear_bits] gives back the bitmap: every bit has the value it
    had before the two calls. *)
Theorem set_then_clear_restores_bitmap (m : Mem) (bm_page offset length : Z) :
  0 <= offset -> 0 <= length < 2 ^ 32 ->
  free_run (bitmap_of m bm_page) offset length ->
  exists m1 m2,
    set_bits m bm_page offset length = Some m1 /\
    clear_bits m1 bm_page offset length = Some m2 /\
    forall i, bm_bit (bitmap_of m2 bm_page) i = bm_bit (bitmap_of m bm_page) i.
Proof.
  intros Ho Hlen Hfree.
  destruct (update_bits_spec true m bm_page offset length Ho Hlen) as (m1 & H1 & Hb1 & _).
  destruct (update_bits_spec false m1 bm_page offset length Ho Hlen) as (m2 & H2 & Hb2 & _).
  exists m1, m2. split; [exact H1|]. split; [exact H2|].
  intros i. rewrite Hb2, Hb1.
  destruct ((offset <=? i) && (i <? offset + length)) eqn:E; [|reflexivity].
  apply andb_true_iff in E. destruct E as [E1 E2].
  apply Z.leb_le in E1. apply Z.ltb_lt in E2.
  symmetry. apply Hfree. lia.
Qed.

Lemma set_then_clear_restores_bitmap_witness :
  0 <= 60 /\ 0 <= 70 < 2 ^ 32 /\
  free_run (bitmap_of (fun _ => 0) 0x11000) 60 70 /\
  exists m1 m2,
    set_bits (fun _ => 0) 0x11000 60 70 = Some m1 /\
    clear_bits m1 0x11000 60 70 = Some m2 /\
    forall i, bm_bit (bitmap_of m2 0x11000) i = bm_bit (bitmap_of (fun _ => 0) 0x11000) i.
Proof.
  assert (H1 : 0 <= 60) by lia.
  assert (H2 : 0 <= 70 < 2 ^ 32) by (change (2 ^ 32) with 4294967296; lia).
  assert (H3 : free_run (bitmap_of (fun _ => 0) 0x11000) 60 70)
    by (intros i _; exact (Z.bits_0 (i mod 64))).
  split; [exact H1|]. split; [exact H2|]. split; [exact H3|].
  exact (set_then_clear_restores_bitmap (fun _ => 0) 0x11000 60 70 H1 H2 H3).
Defined.

(** X19.  Units marked by [set_bits] are not handed out again: a block
    that [find_free_block] finds in the bitmap afterwards does not
    overlap the marked run (of one unit at least). *)
Theorem marked_units_are_not_found
  (sys_page_size : Z) (m m' : Mem) (bm_page offset length n r : Z) :
  page_size_ok sys_page_size ->
  0 <= offset -> 1 <= length < 2 ^ 32 -> 1 <= n ->
  set_bits m bm_page offset length = Some m' ->
  find_free_block sys_page_size (bitmap_of m' bm_page) n = Some r ->
  r <> 0 ->
  r + n <= offset \/ offset + length <= r.
Proof.
  intros Hps Ho Hlen Hn Hset Hfind Hr.
  destruct (update_bits_spec true m bm_page offset length Ho ltac:(lia))
    as (m1 & H1 & Hb1 & _).
  rewrite <- set_bits_update, Hset in H1. injection H1 as <-.
  destruct (find_free_block_spec sys_page_size (bitmap_of m' bm_page) n Hps
              (bitmap_of_wf m' bm_page) Hn) as (r' & Hr' & Hcase).
  rewrite Hfind in Hr'. injection Hr' as <-.
  destruct Hcase as [[H0 _]|[(_ & _ & Hfree) _]]; [contradiction|].
  destruct (Z_le_gt_dec (r + n) offset) as [|H2]; [left; assumption|].
  destruct (Z_le_gt_dec (offset + length) r) as [|H3]; [right; assumption|].
  exfalso.
  specialize (Hfree (Z.max r offset) ltac:(lia)).
  rewrite Hb1 in Hfree.
  replace (offset <=? Z.max r offset) with true in Hfree by (symmetry; apply Z.leb_le; lia).
  replace (Z.max r offset <? offset + length) with true in Hfree
    by (symmetry; apply Z.ltb_lt; lia).
  discriminate Hfree.
Qed.

(** X20.  Units unmarked by [clear_bits] can be handed out again: when
    the cleared run lies in the data area, [find_free_block] for a size
    up to the length of the run finds a block, at the offset of the run or
    below it. *)
Theorem cleared_units_are_found
  (sys_page_size : Z) (m m' : Mem) (bm_page offset length n : Z) :
  page_size_ok sys_page_size ->
  bm_page_header_size_in_units sys_page_size <= offset ->
  offset + length <= units_per_page sys_page_size ->
  1 <= n <= length ->
  clear_bits m bm_page offset length = Some m' ->
  exists r, find_free_block sys_page_size (bitmap_of m' bm_page) n = Some r /\
            bm_page_header_size_in_units sys_page_size <= r <= offset /\
            free_run (bitmap_of m' bm_page) r n.
Proof.
  intros Hps Hlo Hhi Hn Hclr.
  pose proof (hdr_bounds _ Hps) as Hh. pose proof (upp_bounds _ Hps) as Hu.
  assert (Hlen : 0 <= length < 2 ^ 32) by lia.
  destruct (update_bits_spec false m bm_page offset length ltac:(lia) Hlen)
    as (m1 & H1 & Hb1 & _).
  rewrite <- clear_bits_update, Hclr in H1. injection H1 as <-.
  assert (Hblock : free_block_at sys_page_size (bitmap_of m' bm_page) n offset).
  { split; [lia|]. split; [lia|]. intros i Hi. rewrite Hb1.
    replace (offset <=? i) with true by (symmetry; apply Z.leb_le; lia).
    replace (i <? offset + length) with true by (symmetry; apply Z.ltb_lt; lia).
    reflexivity. }
  destruct (find_free_block_spec sys_page_size (bitmap_of m' bm_page) n Hps
              (bitmap_of_wf m' bm_page) ltac:(lia)) as (r & Hr & Hcase).
  exists r. split; [exact Hr|].
  destruct Hcase as [[_ Hnone]|[(Hge & _ & Hfree) Hlow]].
  - exfalso. exact (Hnone offset Hblock).
  - split; [|exact Hfree]. split; [exact Hge|].
    destruct (Z_le_gt_dec r offset) as [|Hgt]; [assumption|].
    exfalso. apply (Hlow offset); [lia|exact Hblock].
Qed.

Lemma marked_mem_eq :
  set_bits (fun _ => 0) Machine.page_A 0 10 = Some Machine.marked_mem.
Proof.
  unfold Machine.marked_mem.
  destruct (update_bits_spec true (fun _ => 0) Machine.page_A 0 10) as (m1 & H & _);
    [lia | change (2 ^ 32) with 4294967296; lia |].
  rewrite set_bits_update, H. reflexivity.
Qed.

Lemma cleared_mem_eq :
  clear_bits (fun _ => 255) Machine.page_A 60 70 = Some Machine.cleared_mem.
Proof.
  unfold Machine.cleared_mem.
  destruct (update_bits_spec false (fun _ => 255) Machine.page_A 60 70) as (m1 & H & _);
    [lia | change (2 ^ 32) with 4294967296; lia |].
  rewrite clear_bits_update, H. reflexivity.
Qed.

Lemma marked_units_are_not_found_witness :
  page_size_ok 4096 /\ 0 <= 0 /\ 1 <= 10 < 2 ^ 32 /\ 1 <= 3 /\
  set_bits (fun _ => 0) Machine.page_A 0 10 = Some Machine.marked_mem /\
  find_free_block 4096 (bitmap_of Machine.marked_mem Machine.page_A) 3 = Some 10 /\
  10 <> 0 /\
  (10 + 3 <= 0 \/ 0 + 10 <= 10).
Proof.
  assert (H1 : 0 <= 0) by lia.
  assert (H2 : 1 <= 10 < 2 ^ 32) by (change (2 ^ 32) with 4294967296; lia).
  assert (H3 : 1 <= 3) by lia.
  assert (H4 : find_free_block 4096 (bitmap_of Machine.marked_mem Machine.page_A) 3
               = Some 10) by (vm_compute; reflexivity).
  assert (H5 : 10 <> 0) by lia.
  split; [exact page_size_ok_4096|]. split; [exact H1|]. split; [exact H2|].
  split; [exact H3|]. split; [exact marked_mem_eq|]. split; [exact H4|].
  split; [exact H5|].
  exact (marked_units_are_not_found 4096 (fun _ => 0) Machine.marked_mem Machine.page_A
           0 10 3 10 page_size_ok_4096 H1 H2 H3 marked_mem_eq H4 H5).
Defined.

Lemma cleared_units_are_found_witness :
  page_size_ok 4096 /\
  bm_page_header_size_in_units 4096 <= 60 /\
  60 + 70 <= units_per_page 4096 /\
  1 <= 5 <= 70 /\
  clear_bits (fun _ => 255) Machine.page_A 60 70 = Some Machine.cleared_mem /\
  exists r, find_free_block 4096 (bitmap_of Machine.cleared_mem Machine.page_A) 5 = Some r /\
            bm_page_header_size_in_units 4096 <= r <= 60 /\
            free_run (bitmap_of Machine.cleared_mem Machine.page_A) r 5.
Proof.
  assert (H1 : bm_page_header_size_in_units 4096 <= 60) by (vm_compute; congruence).
  assert (H2 : 60 + 70 <= units_per_page 4096) by (vm_compute; congruence).
  assert (H3 : 1 <= 5 <= 70) by lia.
  split; [exact page_size_ok_4096|]. split; [exact H1|]. split; [exact H2|].
  split; [exact H3|]. split; [exact cleared_mem_eq|].
  exact (cleared_units_are_found 4096 (fun _ => 255) Machine.cleared_mem Machine.page_A
           60 70 5 page_size_ok_4096 H1 H2 H3 cleared_mem_eq).
Defined.

(** ** The circular lists of the superblock *)

Lemma last_cons_default (rest : list Z) : forall p a, last (p :: rest) a = last rest p.
Proof.
  induction rest as [|r rest IH]; intros p a; [reflexivity|].
  change (last (p :: r :: rest) a) with (last (r :: rest) a).
  rewrite (IH r a), (IH r p). reflexivity.
Qed.

Lemma last_in (rest : list Z) : forall a, In (last rest a) (a :: rest).
Proof.
  induction rest as [|r rest IH]; intros a; [left; reflexivity|].
  right. rewrite last_cons_default. apply IH.
Qed.

Lemma removelast_in (rest : list Z) :
  forall a x, In x (removelast (a :: rest)) -> In x (a :: rest).
Proof.
  induction rest as [|r rest IH]; intros a x Hx; [destruct Hx|].
  change (removelast (a :: r :: rest)) with (a :: removelast (r :: rest)) in Hx.
  destruct Hx as [<-|Hx]; [left; reflexivity|right; apply IH; exact Hx].
Qed.

Lemma removelast_not_last (rest : list Z) :
  forall a x, NoDup (a :: rest) -> In x (removelast (a :: rest)) -> x <> last rest a.
Proof.
  induction rest as [|r rest IH]; intros a x Hnd Hx; [destruct Hx|].
  change (removelast (a :: r :: rest)) with (a :: removelast (r :: rest)) in Hx.
  rewrite last_cons_default.
  inversion Hnd as [|? ? Hnotin Hnd']; subst.
  destruct Hx as [<-|Hx].
  - intros E. apply Hnotin. rewrite E. apply last_in.
  - apply (IH r x Hnd' Hx).
Qed.

Lemma chain_frame m m' :
  forall ps a,
  (forall x, In x (removelast (a :: ps)) -> get_next m' x = get_next m x) ->
  (forall x, In x ps -> get_prev m' x = get_prev m x) ->
  chain m a ps -> chain m' a ps.
Proof.
  induction ps as [|p rest IH]; intros a Hn Hp Hc; [exact I|].
  destruct Hc as [[Hnext Hprev] Hc]. split.
  - split.
    + rewrite Hn; [exact Hnext|]. left. reflexivity.
    + rewrite Hp; [exact Hprev|]. left. reflexivity.
  - apply IH; [| |exact Hc].
    + intros x Hx. apply Hn. right. exact Hx.
    + intros x Hx. apply Hp. right. exact Hx.
Qed.

Lemma chain_snoc m q :
  forall ps a, chain m a (ps ++ [q]) <-> chain m a ps /\ adj m (last ps a) q.
Proof.
  induction ps as [|p rest IH]; intros a.
  - cbn. tauto.
  - change (chain m a ((p :: rest) ++ [q])) with (adj m a p /\ chain m p (rest ++ [q])).
    change (chain m a (p :: rest)) with (adj m a p /\ chain m p rest).
    rewrite IH, last_cons_default. tauto.
Qed.

Lemma ring_rotate_one m a ps : ring m (a :: ps) -> ring m (ps ++ [a]).
Proof.
  destruct ps as [|b rest]; [exact (fun H => H)|].
  intros [[Hab Hc] Hclose].
  change (ring m (b :: rest ++ [a])).
  split.
  - apply chain_snoc. split; [exact Hc|].
    rewrite last_cons_default in Hclose. exact Hclose.
  - rewrite last_last. exact Hab.
Qed.

Lemma ring_rotate m : forall xs ys, ring m (xs ++ ys) -> ring m (ys ++ xs).
Proof.
  induction xs as [|a xs IH]; intros ys H.
  - rewrite app_nil_r. exact H.
  - apply ring_rotate_one in H. rewrite <- app_assoc in H.
    apply IH in H. rewrite <- app_assoc in H. exact H.
Qed.

Lemma ring_frame m m' ps :
  (forall x, In x ps -> get_next m' x = get_next m x) ->
  (forall x, In x ps -> get_prev m' x = get_prev m x) ->
  ring m ps -> ring m' ps.
Proof.
  destruct ps as [|a rest]; [intros; exact I|].
  intros Hn Hp [Hc [H1 H2]]. split.
  - apply (chain_frame m); [| |exact Hc].
    + intros x Hx. apply Hn. apply removelast_in. exact Hx.
    + intros x Hx. apply Hp. right. exact Hx.
  - split.
    + rewrite Hn; [exact H1|apply last_in].
    + rewrite Hp; [exact H2|left; reflexivity].
Qed.

(** Following [next] from the first page of a ring visits its pages in
    order. *)
Lemma walk_chain m first :
  forall ps a fuel,
  chain m a ps -> get_next m (last ps a) = first ->
  (forall x, In x ps -> x <> first) ->
  (List.length ps < fuel)%nat ->
  walk_list fuel m first a = a :: ps.
Proof.
  induction ps as [|p rest IH]; intros a fuel Hc Hlast Hne Hfuel.
  - destruct fuel as [|fuel]; [inversion Hfuel|].
    cbn [walk_list]. cbn [last] in Hlast. rewrite Hlast, Z.eqb_refl. reflexivity.
  - destruct fuel as [|fuel]; [inversion Hfuel|].
    destruct Hc as [[Hnext _] Hc].
    cbn [walk_list]. rewrite Hnext.
    replace (p =? first) with false
      by (symmetry; apply Z.eqb_neq; apply Hne; left; reflexivity).
    f_equal. apply IH.
    + exact Hc.
    + rewrite last_cons_default in Hlast. exact Hlast.
    + intros x Hx. apply Hne. right. exact Hx.
    + cbn [List.length] in Hfuel. lia.
Qed.

Lemma bucket_pages_of_bucket s k ps fuel :
  bucket s k ps -> (List.length ps <= fuel)%nat -> bucket_pages fuel s k = ps.
Proof.
  intros [_ Hfirst Hrange Hnd _ _ Hring _] Hfuel. unfold bucket_pages.
  rewrite Hfirst. destruct ps as [|a rest]; [reflexivity|].
  cbn [hd]. replace (a =? 0) with false.
  2:{ symmetry. apply Z.eqb_neq. specialize (Hrange a (or_introl eq_refl)). lia. }
  destruct Hring as [Hc [Hclose _]].
  apply walk_chain; [exact Hc|exact Hclose| |cbn [List.length] in Hfuel; lia].
  intros x Hx E. subst x. inversion Hnd; contradiction.
Qed.

Ltac mem_simpl :=
  unfold get_list, get_next, get_prev, set_list, set_next, set_prev;
  repeat first [ rewrite load_store_word_same by lia
               | rewrite load_store_word_other by lia ].

Lemma add_to_superblock_entry_bucket s page k ps :
  bucket s k ps -> 0 < page < 2 ^ 64 ->
  (forall p, In p ps -> apart page p) ->
  slot s k + 8 <= page \/ page + 24 <= slot s k ->
  bucket (add_to_superblock_entry s page k) k (ps ++ [page]).
Proof.
  intros [Hsr Hfirst Hrange Hnd Hap Hsl Hring Hlist] Hpage Hfresh Hps.
  unfold add_to_superblock_entry. rewrite Hfirst.
  destruct ps as [|a rest].
  - cbn [hd]. rewrite Z.eqb_refl. cbn [negb app].
    constructor; cbn [mem set_mem]; change (slot (set_mem s _) k) with (slot s k).
    + exact Hsr.
    + cbn [hd]. mem_simpl. reflexivity.
    + intros p [<-|[]]. exact Hpage.
    + constructor; [intros []|constructor].
    + intros p q [<-|[]] [<-|[]] H. contradiction.
    + intros p [<-|[]]. exact Hps.
    + cbn [ring chain last]. split; [exact I|]. split; mem_simpl; reflexivity.
    + intros p [<-|[]]. mem_simpl. reflexivity.
  - cbn [hd].
    pose proof (last_in rest a) as Hl_in. set (l := last rest a) in *.
    destruct Hring as [Hc [Hclose1 Hclose2]]. fold l in Hclose1, Hclose2.
    pose proof (Hrange a (or_introl eq_refl)) as Ha.
    pose proof (Hrange l Hl_in) as Hl.
    pose proof (Hfresh a (or_introl eq_refl)) as Hpa.
    pose proof (Hfresh l Hl_in) as Hpl.
    pose proof (Hsl a (or_introl eq_refl)) as Hsa.
    pose proof (Hsl l Hl_in) as Hsll.
    assert (Hal : a = l \/ apart a l).
    { destruct (Z.eq_dec a l) as [E|E]; [left; exact E|right].
      apply Hap; [left; reflexivity|exact Hl_in|exact E]. }
    unfold apart in Hpa, Hpl, Hal.
    replace (a =? 0) with false by (symmetry; apply Z.eqb_neq; lia).
    cbn [negb]. cbv zeta.
    assert (E1 : get_prev (set_next (set_prev (mem s) page (get_prev (mem s) a)) page a) a = l).
    { mem_simpl. exact Hclose2. }
    rewrite E1, Hclose2. clear E1.
    assert (Hin_app : forall x, In x ((a :: rest) ++ [page]) -> In x (a :: rest) \/ x = page).
    { intros x Hx. apply in_app_or in Hx. destruct Hx as [Hx|[<-|[]]]; [left; exact Hx|right; reflexivity]. }
    assert (Hsep : forall x, In x (a :: rest) ->
              0 < x < 2 ^ 64 /\ (page + 24 <= x \/ x + 24 <= page) /\
              (x = a \/ x + 24 <= a \/ a + 24 <= x) /\
              (x = l \/ x + 24 <= l \/ l + 24 <= x) /\
              (slot s k + 8 <= x \/ x + 24 <= slot s k)).
    { intros x Hx. split; [apply Hrange; exact Hx|].
      split; [apply Hfresh; exact Hx|].
      split.
      - destruct (Z.eq_dec x a) as [E|E]; [left; exact E|right].
        pose proof (Hap x a Hx (or_introl eq_refl) E) as H. unfold apart in H. lia.
      - split; [|apply Hsl; exact Hx].
        destruct (Z.eq_dec x l) as [E|E]; [left; exact E|right].
        pose proof (Hap x l Hx Hl_in E) as H. unfold apart in H. lia. }
    constructor; cbn [mem set_mem]; change (slot (set_mem s _) k) with (slot s k).
    + exact Hsr.
    + cbn [hd app]. mem_simpl. exact Hfirst.
    + intros p Hp. apply Hin_app in Hp. destruct Hp as [Hp| ->]; [apply Hrange; exact Hp|exact Hpage].
    + apply NoDup_app; [exact Hnd|constructor; [intros []|constructor]|].
      intros x Hx Hin. destruct (Hsep x Hx) as (_ & H & _).
      destruct Hin as [E|[]]. lia.
    + intros p q Hp Hq Hne. apply Hin_app in Hp. apply Hin_app in Hq.
      destruct Hp as [Hp| ->], Hq as [Hq| ->].
      * apply Hap; assumption.
      * destruct (Hsep p Hp) as (_ & H & _). unfold apart. lia.
      * destruct (Hsep q Hq) as (_ & H & _). unfold apart. lia.
      * contradiction.
    + intros p Hp. apply Hin_app in Hp. destruct Hp as [Hp| ->]; [apply Hsl; exact Hp|exact Hps].
    + change ((a :: rest) ++ [page]) with (a :: (rest ++ [page])).
      split.
      * apply chain_snoc. split.
        -- apply (chain_frame (mem s)); [| |exact Hc].
           ++ intros x Hx. pose proof (removelast_not_last rest a x Hnd Hx) as Hxl.
              fold l in Hxl. apply removelast_in in Hx.
              destruct (Hsep x Hx) as (_ & H1 & H2 & H3 & _).
              mem_simpl. reflexivity.
           ++ intros x Hx.
              assert (Hxa : x <> a) by (intros ->; inversion Hnd; contradiction).
              destruct (Hsep x (or_intror Hx)) as (_ & H1 & H2 & H3 & _).
              mem_simpl. reflexivity.
        -- fold l. split; mem_simpl; reflexivity.
      * rewrite last_last. split; mem_simpl; reflexivity.
    + intros p Hp. apply Hin_app in Hp. destruct Hp as [Hp| ->].
      * destruct (Hsep p Hp) as (_ & H1 & H2 & H3 & _).
        mem_simpl. apply Hlist. exact Hp.
      * mem_simpl. reflexivity.
Qed.

Lemma last_in_nonempty (rest : list Z) : forall d, rest <> [] -> In (last rest d) rest.
Proof.
  destruct rest as [|r rest]; intros d H; [contradiction|].
  rewrite last_cons_default. apply last_in.
Qed.

Lemma delete_from_list_bucket s k xs p ys :
  bucket s k (xs ++ p :: ys) -> (2 <= List.length (xs ++ ys))%nat ->
  bucket (delete_from_list s p) k (xs ++ ys) /\
  forall x, ~ slot s k <= x < slot s k + 8 ->
            (forall q, In q (xs ++ ys) -> ~ q + 8 <= x < q + 24) ->
            mem (delete_from_list s p) x = mem s x.
Proof.
  intros [Hsr Hfirst Hrange Hnd Hap Hsl Hring Hlist] Hlen.
  assert (Hperm : forall x, In x (p :: ys ++ xs) <-> In x (xs ++ p :: ys)).
  { intros x. cbn [In]. rewrite !in_app_iff. cbn [In]. tauto. }
  assert (Hsub : forall x, In x (xs ++ ys) -> In x (xs ++ p :: ys)).
  { intros x. rewrite !in_app_iff. cbn [In]. tauto. }
  assert (Hp_in : In p (xs ++ p :: ys)) by (apply in_elt).
  assert (Hnd' : NoDup (p :: ys ++ xs)).
  { apply NoDup_remove in Hnd. destruct Hnd as [Hnd Hnotin]. constructor.
    - rewrite in_app_iff in *. tauto.
    - apply NoDup_app_remove_l in Hnd as Hys. apply NoDup_app_remove_r in Hnd as Hxs.
      apply NoDup_app; [exact Hys|exact Hxs|].
      intros x Hx1 Hx2. revert Hnd. clear - Hx1 Hx2.
      induction xs as [|a xs IH]; [destruct Hx2|].
      cbn [app]. intros Hnd. inversion Hnd as [|? ? Hnot Hnd']; subst.
      destruct Hx2 as [->|Hx2]; [apply Hnot; apply in_or_app; right; exact Hx1|].
      exact (IH Hx2 Hnd'). }
  apply (ring_rotate (mem s) xs (p :: ys)) in Hring.
  change ((p :: ys) ++ xs) with (p :: (ys ++ xs)) in Hring.
  assert (Hlen' : (2 <= List.length (ys ++ xs))%nat)
    by (rewrite length_app in *; lia).
  destruct (ys ++ xs) as [|n R'] eqn:ER; [cbn in Hlen'; lia|].
  destruct R' as [|r R'']; [cbn in Hlen'; lia|].
  set (R' := r :: R'') in *.
  assert (HR' : R' <> []) by discriminate.
  destruct Hring as [[[Hpn _] Hc] [Hprp Hppr]].
  rewrite last_cons_default in Hprp, Hppr.
  pose proof (last_in_nonempty R' n HR') as Hpr_in.
  set (pr := last R' n) in *.
  assert (Hn_in : In n (xs ++ p :: ys)) by (apply Hperm; right; left; reflexivity).
  assert (Hpr_in' : In pr (xs ++ p :: ys)) by (apply Hperm; right; right; exact Hpr_in).
  assert (Hpn_ne : p <> n).
  { intros ->. inversion Hnd' as [|? ? Hnot _]. apply Hnot. left. reflexivity. }
  assert (Hppr_ne : p <> pr).
  { intros E. inversion Hnd' as [|? ? Hnot _]. apply Hnot. right. rewrite E. exact Hpr_in. }
  assert (Hnpr_ne : n <> pr).
  { intros E. inversion Hnd' as [|? ? _ Hnd2]. inversion Hnd2 as [|? ? Hnot _].
    apply Hnot. rewrite E. exact Hpr_in. }
  assert (Hsep : forall x, In x (xs ++ p :: ys) ->
            0 < x < 2 ^ 64 /\
            (x = p \/ x + 24 <= p \/ p + 24 <= x) /\
            (x = n \/ x + 24 <= n \/ n + 24 <= x) /\
            (x = pr \/ x + 24 <= pr \/ pr + 24 <= x) /\
            (slot s k + 8 <= x \/ x + 24 <= slot s k)).
  { intros x Hx. split; [apply Hrange; exact Hx|].
    assert (Hgen : forall y, In y (xs ++ p :: ys) -> x = y \/ x + 24 <= y \/ y + 24 <= x).
    { intros y Hy. destruct (Z.eq_dec x y) as [E|E]; [left; exact E|right].
      pose proof (Hap x y Hx Hy E) as H. unfold apart in H. lia. }
    split; [apply Hgen; exact Hp_in|]. split; [apply Hgen; exact Hn_in|].
    split; [apply Hgen; exact Hpr_in'|]. apply Hsl; exact Hx. }
  destruct (Hsep p Hp_in) as (Hp_r & _ & Hp_n & Hp_pr & Hp_s).
  destruct (Hsep n Hn_in) as (Hn_r & _ & _ & Hn_pr & Hn_s).
  destruct (Hsep pr Hpr_in') as (Hpr_r & _ & _ & _ & Hpr_s).
  pose proof (Hlist p Hp_in) as Hlp.
  unfold delete_from_list. rewrite Hpn, Hppr, Hlp.
  replace (n =? pr) with false by (symmetry; apply Z.eqb_neq; exact Hnpr_ne).
  set (m0 := if load_word (mem s) (slot s k) =? p
             then store_word (mem s) (slot s k) n else mem s).
  assert (Hm0 : forall b, b + 8 <= slot s k \/ slot s k + 8 <= b ->
                load_word m0 b = load_word (mem s) b).
  { intros b Hb. subst m0. destruct (load_word (mem s) (slot s k) =? p); [|reflexivity].
    apply load_store_word_other. lia. }
  assert (Hslot0 : load_word m0 (slot s k) = hd 0 (xs ++ ys)).
  { subst m0. rewrite Hfirst. destruct xs as [|a xs'].
    - cbn [app hd]. rewrite Z.eqb_refl, load_store_word_same by lia.
      cbn [app] in ER. rewrite app_nil_r in ER. rewrite ER. reflexivity.
    - cbn [app hd]. replace (a =? p) with false; [exact Hfirst|].
      symmetry. apply Z.eqb_neq. intros ->.
      cbn [app] in Hnd. inversion Hnd as [|? ? Hnot _]. apply Hnot. apply in_elt. }
  cbv zeta.
  assert (E1 : get_next m0 p = n) by (unfold get_next; rewrite Hm0 by lia; exact Hpn).
  assert (E2 : get_prev m0 p = pr) by (unfold get_prev; rewrite Hm0 by lia; exact Hppr).
  rewrite E1, E2.
  assert (E3 : get_prev (set_prev m0 n pr) p = pr).
  { mem_simpl. rewrite Hm0 by lia. exact Hppr. }
  assert (E4 : get_next (set_prev m0 n pr) p = n).
  { mem_simpl. rewrite Hm0 by lia. exact Hpn. }
  rewrite E3, E4. clear E1 E2 E3 E4.
  split.
  2:{ intros x Hxs Hx. cbn [mem set_mem].
      assert (Hrem : forall q, In q (n :: R') -> In q (xs ++ ys)).
      { intros q Hq. rewrite <- ER in Hq. rewrite in_app_iff in *. tauto. }
      pose proof (Hx n (Hrem n (or_introl eq_refl))) as Hxn.
      pose proof (Hx pr (Hrem pr (or_intror Hpr_in))) as Hxpr.
      unfold set_next, set_prev. rewrite !store_word_other by lia.
      subst m0. destruct (load_word (mem s) (slot s k) =? p); [|reflexivity].
      apply store_word_other. lia. }
  constructor; cbn [mem set_mem]; change (slot (set_mem s _) k) with (slot s k).
  - exact Hsr.
  - mem_simpl. exact Hslot0.
  - intros x Hx. apply Hrange, Hsub, Hx.
  - apply NoDup_remove_1 in Hnd. exact Hnd.
  - intros x y Hx Hy. apply Hap; apply Hsub; assumption.
  - intros x Hx. apply Hsl, Hsub, Hx.
  - apply (ring_rotate _ ys xs). rewrite ER.
    split.
    + apply (chain_frame (mem s)); [| |exact Hc].
      * intros x Hx.
        assert (Hnd2 : NoDup (n :: R')) by (inversion Hnd'; assumption).
        pose proof (removelast_not_last R' n x Hnd2 Hx) as Hxl. fold pr in Hxl.
        apply removelast_in in Hx.
        destruct (Hsep x (proj1 (Hperm x) (or_intror Hx))) as (_ & _ & H2 & H3 & H4).
        mem_simpl. rewrite Hm0 by lia. reflexivity.
      * intros x Hx.
        assert (Hxn : x <> n).
        { intros ->. inversion Hnd' as [|? ? _ Hnd2]. inversion Hnd2; contradiction. }
        destruct (Hsep x (proj1 (Hperm x) (or_intror (or_intror Hx)))) as (_ & _ & H2 & H3 & H4).
        mem_simpl. rewrite Hm0 by lia. reflexivity.
    + fold pr. split; mem_simpl; reflexivity.
  - intros x Hx. destruct (Hsep x (Hsub x Hx)) as (_ & _ & H2 & H3 & H4).
    mem_simpl. rewrite Hm0 by lia. apply Hlist, Hsub, Hx.
Qed.

Lemma delete_from_list_sole s k p :
  bucket s k [p] -> bucket (delete_from_list s p) k [].
Proof.
  intros [Hsr Hfirst Hrange Hnd Hap Hsl Hring Hlist].
  destruct Hring as [_ [Hn Hp]]. cbn [last] in Hn, Hp.
  unfold delete_from_list. rewrite Hn, Hp, Z.eqb_refl, (Hlist p (or_introl eq_refl)).
  constructor; cbn [mem set_mem]; change (slot (set_mem s _) k) with (slot s k).
  - exact Hsr.
  - cbn [hd]. apply load_store_word_same. lia.
  - intros x [].
  - constructor.
  - intros x y [].
  - intros x [].
  - exact I.
  - intros x [].
Qed.

Lemma delete_from_list_pair s k a b p :
  bucket s k [a; b] -> p = a \/ p = b ->
  mem (delete_from_list s p) = store_word (mem s) (slot s k) 0.
Proof.
  intros [Hsr Hfirst Hrange Hnd Hap Hsl Hring Hlist] Hp.
  destruct Hring as [[[Hab Hba] _] [Hba' Hab']]. cbn [last] in Hba', Hab'.
  unfold delete_from_list.
  destruct Hp as [-> | ->].
  - rewrite Hab, Hab', Z.eqb_refl, (Hlist a (or_introl eq_refl)). reflexivity.
  - rewrite Hba, Hba', Z.eqb_refl, (Hlist b (or_intror (or_introl eq_refl))). reflexivity.
Qed.

Lemma add_to_superblock_entry_frame s page k ps x :
  bucket s k ps ->
  (forall p, In p ps -> apart page p) ->
  ~ slot s k <= x < slot s k + 8 ->
  ~ page <= x < page + 24 ->
  (forall p, In p ps -> ~ p + 8 <= x < p + 24) ->
  mem (add_to_superblock_entry s page k) x = mem s x.
Proof.
  intros [Hsr Hfirst Hrange Hnd Hap Hsl Hring Hlist] Hfresh Hxs Hxp Hx.
  unfold add_to_superblock_entry. rewrite Hfirst.
  destruct ps as [|a rest]; cbn [hd].
  - rewrite Z.eqb_refl. cbn [negb mem set_mem].
    unfold set_list, set_next, set_prev. rewrite !store_word_other by lia. reflexivity.
  - pose proof (last_in rest a) as Hl_in. set (l := last rest a) in *.
    destruct Hring as [_ [_ Hclose2]]. fold l in Hclose2.
    pose proof (Hrange a (or_introl eq_refl)) as Ha.
    pose proof (Hx a (or_introl eq_refl)) as Hxa.
    pose proof (Hx l Hl_in) as Hxl.
    pose proof (Hfresh a (or_introl eq_refl)) as Hpa. unfold apart in Hpa.
    replace (a =? 0) with false by (symmetry; apply Z.eqb_neq; lia).
    cbn [negb mem set_mem]. cbv zeta.
    assert (E1 : get_prev (set_next (set_prev (mem s) page (get_prev (mem s) a)) page a) a = l).
    { mem_simpl. exact Hclose2. }
    rewrite E1. clear E1.
    unfold set_list, set_next, set_prev. rewrite !store_word_other by lia. reflexivity.
Qed.

(** The slots from [list] on are null up to slot [i], which holds a page:
    the search hands out this page and takes it off its list. *)
Lemma find_available_page_loop_first :
  forall n s list i p,
  0 <= i < Z.of_nat n ->
  (forall j, 0 <= j < i -> load_word (mem s) (list + 8 * j) = 0) ->
  load_word (mem s) (list + 8 * i) = p -> p <> 0 ->
  find_available_page_loop n s list = (p, delete_from_list s p).
Proof.
  induction n as [|n IH]; intros s list i p Hi Hnull Hp Hne; [lia|].
  cbn [find_available_page_loop].
  destruct (Z.eq_dec i 0) as [->|Hi0].
  - replace (list + 8 * 0) with list in Hp by lia. rewrite Hp.
    replace (p =? 0) with false by (symmetry; apply Z.eqb_neq; exact Hne).
    reflexivity.
  - pose proof (Hnull 0 ltac:(lia)) as H0.
    replace (list + 8 * 0) with list in H0 by lia. rewrite H0. cbn [Z.eqb negb].
    apply (IH s (list + 8) (i - 1) p); [lia| |  |exact Hne].
    + intros j Hj. replace (list + 8 + 8 * j) with (list + 8 * (j + 1)) by lia.
      apply Hnull. lia.
    + replace (list + 8 + 8 * (i - 1)) with (list + 8 * i) by lia. exact Hp.
Qed.

Lemma find_available_page_loop_none :
  forall n s list,
  (forall j, 0 <= j < Z.of_nat n -> load_word (mem s) (list + 8 * j) = 0) ->
  find_available_page_loop n s list = (0, s).
Proof.
  induction n as [|n IH]; intros s list Hnull; [reflexivity|].
  cbn [find_available_page_loop].
  pose proof (Hnull 0 ltac:(lia)) as H0.
  replace (list + 8 * 0) with list in H0 by lia. rewrite H0. cbn [Z.eqb negb].
  apply IH. intros j Hj. replace (list + 8 + 8 * j) with (list + 8 * (j + 1)) by lia.
  apply Hnull. lia.
Qed.

(** X21.  [add_to_superblock_entry] puts a page whose header overlaps
    neither the slot nor a page of the bucket at the end of the bucket:
    the slot still points to the first page, the circle is closed through
    the new page, and the page's [list] field points to the slot.  It
    writes the slot, the header of the page and [next]/[prev] fields of
    pages of the bucket, nothing else. *)
Theorem add_to_superblock_entry_appends (s : State) (page k : Z) (ps : list Z) :
  bucket s k ps -> 0 < page < 2 ^ 64 ->
  (forall p, In p ps -> apart page p) ->
  slot s k + 8 <= page \/ page + 24 <= slot s k ->
  bucket (add_to_superblock_entry s page k) k (ps ++ [page]) /\
  forall x, ~ slot s k <= x < slot s k + 8 ->
            ~ page <= x < page + 24 ->
            (forall p, In p ps -> ~ p + 8 <= x < p + 24) ->
            mem (add_to_superblock_entry s page k) x = mem s x.
Proof.
  intros Hb Hpage Hfresh Hslot. split.
  - apply add_to_superblock_entry_bucket; assumption.
  - intros x H1 H2 H3. apply (add_to_superblock_entry_frame s page k ps); assumption.
Qed.

Lemma delete_from_list_spec (s : State) (k : Z) (xs : list Z) (p : Z) (ys : list Z) :
  bucket s k (xs ++ p :: ys) -> List.length (xs ++ ys) <> 1%nat ->
  bucket (delete_from_list s p) k (xs ++ ys) /\
  forall x, ~ slot s k <= x < slot s k + 8 ->
            (forall q, In q (xs ++ ys) -> ~ q + 8 <= x < q + 24) ->
            mem (delete_from_list s p) x = mem s x.
Proof.
  intros Hb Hlen.
  destruct (xs ++ ys) as [|q [|q' rest]] eqn:E.
  - apply app_eq_nil in E. destruct E as [-> ->]. cbn [app] in Hb. split.
    + apply delete_from_list_sole. exact Hb.
    + intros x Hx _. unfold delete_from_list.
      destruct Hb as [_ _ _ _ _ _ [_ [Hn Hp]] Hlist]. cbn [last] in Hn, Hp.
      rewrite Hn, Hp, Z.eqb_refl, (Hlist p (or_introl eq_refl)). cbn [mem set_mem].
      apply store_word_other. lia.
  - contradiction Hlen. reflexivity.
  - rewrite <- E. apply delete_from_list_bucket; [exact Hb|].
    rewrite E. cbn [List.length]. lia.
Qed.

(** X22.  [delete_from_list] takes a page out of a bucket that holds this
    page only or three pages at least: the other pages stay, in their
    order, linked in a circle, and the slot points to the first of them
    (to none when the page was alone).  It writes the slot and
    [next]/[prev] fields of the pages that stay, nothing else. *)
Theorem delete_from_list_unlinks (s : State) (k : Z) (xs : list Z) (p : Z) (ys : list Z) :
  bucket s k (xs ++ p :: ys) -> List.length (xs ++ ys) <> 1%nat ->
  bucket (delete_from_list s p) k (xs ++ ys) /\
  forall x, ~ slot s k <= x < slot s k + 8 ->
            (forall q, In q (xs ++ ys) -> ~ q + 8 <= x < q + 24) ->
            mem (delete_from_list s p) x = mem s x.
Proof. exact (delete_from_list_spec s k xs p ys). Qed.

(** X23.  In a bucket of two pages, [delete_from_list] of either page
    finds [next == prev] and stores the null pointer in the slot: the
    bucket is empty afterwards, while the other page is untouched and its
    [list] field still points to the slot. *)
Theorem delete_from_list_pair_loses_other_page (s : State) (k a b p q : Z) :
  bucket s k [a; b] -> (p = a /\ q = b) \/ (p = b /\ q = a) ->
  bucket (delete_from_list s p) k [] /\
  get_list (mem (delete_from_list s p)) q = slot s k /\
  forall x, ~ slot s k <= x < slot s k + 8 ->
            mem (delete_from_list s p) x = mem s x.
Proof.
  intros Hb Hpq.
  assert (Hp : p = a \/ p = b) by tauto.
  pose proof (delete_from_list_pair s k a b p Hb Hp) as Hmem.
  assert (Hq : In q [a; b]) by (destruct Hpq as [[_ ->]|[_ ->]]; cbn [In]; auto).
  destruct Hb as [Hsr Hfirst Hrange Hnd Hap Hsl Hring Hlist].
  pose proof (Hsl q Hq) as Hsq.
  assert (Hslot : slot (delete_from_list s p) k = slot s k).
  { unfold slot. destruct (delete_from_list_books s p) as (_ & E & _). rewrite E. reflexivity. }
  split; [|split].
  - constructor.
    + rewrite Hslot. exact Hsr.
    + rewrite Hmem, Hslot. cbn [hd]. apply load_store_word_same. lia.
    + intros x [].
    + constructor.
    + intros x y [].
    + intros x [].
    + exact I.
    + intros x [].
  - rewrite Hmem. unfold get_list. rewrite load_store_word_other by lia.
    apply Hlist. exact Hq.
  - intros x Hx. rewrite Hmem. apply store_word_other. lia.
Qed.

Lemma find_available_page_spec
  (sys_page_size : Z) (s : State) (num_units lfb p : Z) (ys : list Z) :
  0 <= num_units <= lfb -> lfb <= max_data_units sys_page_size ->
  (forall j, num_units <= j < lfb -> load_word (mem s) (slot s j) = 0) ->
  bucket s lfb (p :: ys) -> List.length ys <> 1%nat ->
  find_available_page sys_page_size s num_units = (p, delete_from_list s p) /\
  bucket (delete_from_list s p) lfb ys.
Proof.
  intros Hn Hlfb Hnull Hb Hlen. split.
  - unfold find_available_page.
    apply (find_available_page_loop_first _ s (slot s num_units) (lfb - num_units) p).
    + rewrite Z2Nat.id by lia. lia.
    + intros j Hj. replace (slot s num_units + 8 * j) with (slot s (num_units + j))
        by (unfold slot; lia).
      apply Hnull. lia.
    + replace (slot s num_units + 8 * (lfb - num_units)) with (slot s lfb)
        by (unfold slot; lia).
      exact (bucket_first _ _ _ Hb).
    + pose proof (bucket_range _ _ _ Hb p (or_introl eq_refl)). lia.
  - destruct ys as [|q [|q' rest]].
    + apply delete_from_list_sole. exact Hb.
    + contradiction Hlen. reflexivity.
    + apply (delete_from_list_bucket s lfb [] p (q :: q' :: rest)); [exact Hb|].
      cbn [app List.length]. lia.
Qed.

(** X24.  [find_available_page(num_units)] takes the first page of the
    lowest non-empty bucket from [num_units] up, and takes it off its
    list (the bucket holding this page only, or three pages at least). *)
Theorem find_available_page_first_fit
  (sys_page_size : Z) (s : State) (num_units lfb p : Z) (ys : list Z) :
  0 <= num_units <= lfb -> lfb <= max_data_units sys_page_size ->
  (forall j, num_units <= j < lfb -> load_word (mem s) (slot s j) = 0) ->
  bucket s lfb (p :: ys) -> List.length ys <> 1%nat ->
  find_available_page sys_page_size s num_units = (p, delete_from_list s p) /\
  bucket (delete_from_list s p) lfb ys.
Proof. exact (find_available_page_spec sys_page_size s num_units lfb p ys). Qed.

(** X25.  [find_available_page(num_units)] returns the null pointer and
    changes nothing when every slot from [num_units] up to
    [max_data_units] is null. *)
Theorem find_available_page_none (sys_page_size : Z) (s : State) (num_units : Z) :
  0 <= num_units ->
  (forall j, num_units <= j <= max_data_units sys_page_size ->
             load_word (mem s) (slot s j) = 0) ->
  find_available_page sys_page_size s num_units = (0, s).
Proof.
  intros Hn Hnull. unfold find_available_page.
  apply find_available_page_loop_none. intros j Hj.
  replace (slot s num_units + 8 * j) with (slot s (num_units + j)) by (unfold slot; lia).
  apply Hnull. lia.
Qed.

Lemma booted_bucket_3 : bucket Machine.booted 3 [].
Proof.
  constructor.
  - vm_compute. split; congruence.
  - reflexivity.
  - intros p [].
  - constructor.
  - intros p q [].
  - intros p [].
  - exact I.
  - intros p [].
Qed.

Lemma one_linked_bucket : bucket Machine.one_linked 3 [Machine.page_A].
Proof.
  apply (add_to_superblock_entry_bucket Machine.booted Machine.page_A 3 []).
  - exact booted_bucket_3.
  - vm_compute. split; reflexivity.
  - intros p [].
  - left. vm_compute. congruence.
Qed.

Lemma two_linked_bucket : bucket Machine.two_linked 3 [Machine.page_A; Machine.page_B].
Proof.
  apply (add_to_superblock_entry_bucket Machine.one_linked Machine.page_B 3 [Machine.page_A]).
  - exact one_linked_bucket.
  - vm_compute. split; reflexivity.
  - intros p [<-|[]]. right. vm_compute. congruence.
  - left. vm_compute. congruence.
Qed.

Lemma page_C_fresh : forall p, In p [Machine.page_A; Machine.page_B] -> apart Machine.page_C p.
Proof. intros p [<-|[<-|[]]]; right; vm_compute; congruence. Qed.

Lemma three_linked_bucket :
  bucket Machine.three_linked 3 [Machine.page_A; Machine.page_B; Machine.page_C].
Proof.
  apply (add_to_superblock_entry_bucket Machine.two_linked Machine.page_C 3
           [Machine.page_A; Machine.page_B]).
  - exact two_linked_bucket.
  - vm_compute. split; reflexivity.
  - exact page_C_fresh.
  - left. vm_compute. congruence.
Qed.

Lemma add_to_superblock_entry_appends_witness :
  bucket Machine.two_linked 3 [Machine.page_A; Machine.page_B] /\
  0 < Machine.page_C < 2 ^ 64 /\
  (forall p, In p [Machine.page_A; Machine.page_B] -> apart Machine.page_C p) /\
  (slot Machine.two_linked 3 + 8 <= Machine.page_C \/
   Machine.page_C + 24 <= slot Machine.two_linked 3) /\
  bucket (add_to_superblock_entry Machine.two_linked Machine.page_C 3) 3
    ([Machine.page_A; Machine.page_B] ++ [Machine.page_C]) /\
  forall x, ~ slot Machine.two_linked 3 <= x < slot Machine.two_linked 3 + 8 ->
            ~ Machine.page_C <= x < Machine.page_C + 24 ->
            (forall p, In p [Machine.page_A; Machine.page_B] -> ~ p + 8 <= x < p + 24) ->
            mem (add_to_superblock_entry Machine.two_linked Machine.page_C 3) x
            = mem Machine.two_linked x.
Proof.
  assert (H1 : 0 < Machine.page_C < 2 ^ 64) by (vm_compute; split; reflexivity).
  assert (H2 : slot Machine.two_linked 3 + 8 <= Machine.page_C \/
               Machine.page_C + 24 <= slot Machine.two_linked 3)
    by (left; vm_compute; congruence).
  split; [exact two_linked_bucket|]. split; [exact H1|]. split; [exact page_C_fresh|].
  split; [exact H2|].
  exact (add_to_superblock_entry_appends Machine.two_linked Machine.page_C 3
           [Machine.page_A; Machine.page_B] two_linked_bucket H1 page_C_fresh H2).
Defined.

Lemma delete_from_list_unlinks_witness :
  bucket Machine.three_linked 3 ([Machine.page_A] ++ Machine.page_B :: [Machine.page_C]) /\
  List.length ([Machine.page_A] ++ [Machine.page_C]) <> 1%nat /\
  bucket (delete_from_list Machine.three_linked Machine.page_B) 3
    ([Machine.page_A] ++ [Machine.page_C]) /\
  forall x, ~ slot Machine.three_linked 3 <= x < slot Machine.three_linked 3 + 8 ->
            (forall q, In q ([Machine.page_A] ++ [Machine.page_C]) ->
                       ~ q + 8 <= x < q + 24) ->
            mem (delete_from_list Machine.three_linked Machine.page_B) x
            = mem Machine.three_linked x.
Proof.
  assert (H : List.length ([Machine.page_A] ++ [Machine.page_C]) <> 1%nat)
    by (simpl; lia).
  split; [exact three_linked_bucket|]. split; [exact H|].
  exact (delete_from_list_unlinks Machine.three_linked 3 [Machine.page_A] Machine.page_B
           [Machine.page_C] three_linked_bucket H).
Defined.

Lemma delete_from_list_pair_loses_other_page_witness :
  bucket Machine.two_linked 3 [Machine.page_A; Machine.page_B] /\
  ((Machine.page_A = Machine.page_A /\ Machine.page_B = Machine.page_B) \/
   (Machine.page_A = Machine.page_B /\ Machine.page_B = Machine.page_A)) /\
  bucket (delete_from_list Machine.two_linked Machine.page_A) 3 [] /\
  get_list (mem (delete_from_list Machine.two_linked Machine.page_A)) Machine.page_B
  = slot Machine.two_linked 3 /\
  forall x, ~ slot Machine.two_linked 3 <= x < slot Machine.two_linked 3 + 8 ->
            mem (delete_from_list Machine.two_linked Machine.page_A) x
            = mem Machine.two_linked x.
Proof.
  assert (H : (Machine.page_A = Machine.page_A /\ Machine.page_B = Machine.page_B) \/
              (Machine.page_A = Machine.page_B /\ Machine.page_B = Machine.page_A))
    by (left; split; reflexivity).
  split; [exact two_linked_bucket|]. split; [exact H|].
  exact (delete_from_list_pair_loses_other_page Machine.two_linked 3
           Machine.page_A Machine.page_B Machine.page_A Machine.page_B
           two_linked_bucket H).
Defined.

Lemma three_linked_low_slots :
  forall j, 1 <= j < 3 -> load_word (mem Machine.three_linked) (slot Machine.three_linked j) = 0.
Proof.
  intros j Hj. assert (E : j = 1 \/ j = 2) by lia.
  destruct E as [-> | ->]; vm_compute; reflexivity.
Qed.

Lemma find_available_page_first_fit_witness :
  0 <= 1 <= 3 /\ 3 <= max_data_units 4096 /\
  (forall j, 1 <= j < 3 ->
             load_word (mem Machine.three_linked) (slot Machine.three_linked j) = 0) /\
  bucket Machine.three_linked 3 (Machine.page_A :: [Machine.page_B; Machine.page_C]) /\
  List.length [Machine.page_B; Machine.page_C] <> 1%nat /\
  find_available_page 4096 Machine.three_linked 1
  = (Machine.page_A, delete_from_list Machine.three_linked Machine.page_A) /\
  bucket (delete_from_list Machine.three_linked Machine.page_A) 3
    [Machine.page_B; Machine.page_C].
Proof.
  assert (H1 : 0 <= 1 <= 3) by lia.
  assert (H2 : 3 <= max_data_units 4096) by (vm_compute; congruence).
  assert (H3 : List.length [Machine.page_B; Machine.page_C] <> 1%nat) by (simpl; lia).
  split; [exact H1|]. split; [exact H2|]. split; [exact three_linked_low_slots|].
  split; [exact three_linked_bucket|]. split; [exact H3|].
  exact (find_available_page_first_fit 4096 Machine.three_linked 1 3 Machine.page_A
           [Machine.page_B; Machine.page_C] H1 H2 three_linked_low_slots
           three_linked_bucket H3).
Defined.

Lemma booted_slots_null :
  forall j, 5 <= j <= max_data_units 4096 ->
            load_word (mem Machine.booted) (slot Machine.booted j) = 0.
Proof. intros j _. reflexivity. Qed.

Lemma find_available_page_none_witness :
  0 <= 5 /\
  (forall j, 5 <= j <= max_data_units 4096 ->
             load_word (mem Machine.booted) (slot Machine.booted j) = 0) /\
  find_available_page 4096 Machine.booted 5 = (0, Machine.booted).
Proof.
  assert (H1 : 0 <= 5) by lia.
  split; [exact H1|]. split; [exact booted_slots_null|].
  exact (find_available_page_none 4096 Machine.booted 5 H1 booted_slots_null).
Defined.

(** ** The superblock as a whole *)

Lemma load_word_agree m m' a :
  (forall x, a <= x < a + 8 -> m' x = m x) -> load_word m' a = load_word m a.
Proof.
  intros H. unfold load_word, load_byte.
  rewrite (H a), (H (a + 1)), (H (a + 2)), (H (a + 3)), (H (a + 4)), (H (a + 5)),
    (H (a + 6)), (H (a + 7)) by lia.
  reflexivity.
Qed.

Lemma bucket_frame s s' k l :
  bucket s k l -> superblock s' = superblock s ->
  (forall x, slot s k <= x < slot s k + 8 -> mem s' x = mem s x) ->
  (forall p x, In p l -> p <= x < p + 24 -> mem s' x = mem s x) ->
  bucket s' k l.
Proof.
  intros [Hsr Hfirst Hrange Hnd Hap Hsl Hring Hlist] Hsb Hslot Hhdr.
  assert (E : slot s' k = slot s k) by (unfold slot; rewrite Hsb; reflexivity).
  constructor; rewrite ?E; try assumption.
  - rewrite <- Hfirst. apply load_word_agree. exact Hslot.
  - apply (ring_frame (mem s)); [| |exact Hring].
    + intros x Hx. unfold get_next. apply load_word_agree.
      intros y Hy. apply (Hhdr x); [exact Hx|lia].
    + intros x Hx. unfold get_prev. apply load_word_agree.
      intros y Hy. apply (Hhdr x); [exact Hx|lia].
  - intros p Hp. rewrite <- (Hlist p Hp). unfold get_list. apply load_word_agree.
    intros y Hy. apply (Hhdr p); [exact Hp|lia].
Qed.

(** The header and the bitmap take the first
    [bm_page_header_size_in_units] units of a page. *)
Lemma metadata_fits sys_page_size :
  page_size_ok sys_page_size ->
  24 + 8 * (units_per_page sys_page_size / 64)
  <= 16 * bm_page_header_size_in_units sys_page_size /\
  16 * units_per_page sys_page_size = sys_page_size.
Proof.
  intros Hps. pose proof (page_size_bounds _ Hps) as [Hb Hm].
  unfold bm_page_header_size_in_units, units_per_page, offsetof_bitmap, UNIT_SIZE.
  Z.div_mod_to_equations. lia.
Qed.

(** The longest free block is a matter of the bits of the data area. *)
Lemma longest_free_block_bits sys_page_size bm bm' k :
  page_size_ok sys_page_size -> wf_bitmap bm -> wf_bitmap bm' ->
  (forall i, bm_page_header_size_in_units sys_page_size <= i
             < units_per_page sys_page_size -> bm_bit bm' i = bm_bit bm i) ->
  find_longest_free_block sys_page_size bm = Some k ->
  find_longest_free_block sys_page_size bm' = Some k.
Proof.
  intros Hps Hbm Hbm' Hbits Hk.
  destruct (find_longest_free_block_spec _ bm Hps Hbm) as (r & Hr & _ & Hmax & p & Hp).
  destruct (find_longest_free_block_spec _ bm' Hps Hbm') as (r' & Hr' & _ & Hmax' & p' & Hp').
  rewrite Hk in Hr. injection Hr as <-. rewrite Hr'. f_equal.
  assert (Hto : forall n q, free_block_at sys_page_size bm n q ->
                            free_block_at sys_page_size bm' n q).
  { intros n q (H1 & H2 & H3). split; [exact H1|]. split; [exact H2|].
    intros i Hi. rewrite Hbits by lia. apply H3. exact Hi. }
  assert (Hfrom : forall n q, free_block_at sys_page_size bm' n q ->
                              free_block_at sys_page_size bm n q).
  { intros n q (H1 & H2 & H3). split; [exact H1|]. split; [exact H2|].
    intros i Hi. rewrite <- Hbits by lia. apply H3. exact Hi. }
  pose proof (Hmax' _ _ (Hto _ _ Hp)). pose proof (Hmax _ _ (Hfrom _ _ Hp')). lia.
Qed.

Lemma bitmap_bits_agree sys_page_size m m' p :
  page_size_ok sys_page_size ->
  (forall x, p + 24 <= x < p + 16 * bm_page_header_size_in_units sys_page_size ->
             m' x = m x) ->
  forall i, 0 <= i < units_per_page sys_page_size ->
            bm_bit (bitmap_of m' p) i = bm_bit (bitmap_of m p) i.
Proof.
  intros Hps H i Hi. unfold bm_bit, bitmap_of, WORD_WIDTH. f_equal.
  apply load_word_agree. intros x Hx. apply H.
  pose proof (metadata_fits _ Hps) as [Hfit _].
  pose proof (upp_bounds _ Hps) as [_ Hmod].
  unfold bitmap_addr, offsetof_bitmap in *.
  assert (i / 64 < units_per_page sys_page_size / 64).
  { apply Z.div_lt_upper_bound; [lia|].
    replace (64 * (units_per_page sys_page_size / 64)) with (units_per_page sys_page_size);
      [lia|]. 
    rewrite (Z.div_mod (units_per_page sys_page_size) 64) at 1 by lia. lia. }
  assert (0 <= i / 64) by (apply Z.div_pos; lia).
  lia.
Qed.

Lemma longest_free_block_frame sys_page_size m m' p k :
  page_size_ok sys_page_size ->
  (forall x, p + 24 <= x < p + 16 * bm_page_header_size_in_units sys_page_size ->
             m' x = m x) ->
  find_longest_free_block sys_page_size (bitmap_of m p) = Some k ->
  find_longest_free_block sys_page_size (bitmap_of m' p) = Some k.
Proof.
  intros Hps H. apply longest_free_block_bits; [exact Hps|apply bitmap_of_wf..|].
  intros i Hi. apply (bitmap_bits_agree _ m m' p Hps H).
  pose proof (hdr_bounds _ Hps). lia.
Qed.

Lemma longest_free_block_bound sys_page_size bm k :
  page_size_ok sys_page_size -> wf_bitmap bm ->
  find_longest_free_block sys_page_size bm = Some k ->
  0 <= k <= max_data_units sys_page_size.
Proof.
  intros Hps Hbm Hk.
  destruct (find_longest_free_block_spec _ bm Hps Hbm) as (r & Hr & H0 & _ & p & Hp).
  rewrite Hk in Hr. injection Hr as <-. rewrite (max_data_units_eq _ Hps).
  destruct Hp as (H1 & H2 & _). lia.
Qed.

(** What the superblock says depends on the slots and on the first
    [bm_page_header_size_in_units] units of its pages. *)
Lemma superblock_frame sys_page_size s s' B :
  page_size_ok sys_page_size ->
  superblock_ok sys_page_size s B -> superblock s' = superblock s ->
  (forall x, superblock s <= x < superblock s + 8 * (max_data_units sys_page_size + 1) ->
             mem s' x = mem s x) ->
  (forall k p x, 0 <= k <= max_data_units sys_page_size -> In p (B k) ->
                 p <= x < p + 16 * bm_page_header_size_in_units sys_page_size ->
                 mem s' x = mem s x) ->
  superblock_ok sys_page_size s' B.
Proof.
  intros Hps [Hr Hb Hl Ha Hs] Hsb Hslots Hpages.
  pose proof (metadata_fits _ Hps) as [Hfit _].
  pose proof (upp_bounds _ Hps) as [Hub _].
  assert (0 <= units_per_page sys_page_size / 64) by (apply Z.div_pos; lia).
  constructor.
  - rewrite Hsb. exact Hr.
  - intros k Hk. apply (bucket_frame s); [apply Hb; exact Hk|exact Hsb| |].
    + intros x Hx. apply Hslots. unfold slot in Hx. lia.
    + intros p x Hp Hx. apply (Hpages k p); [exact Hk|exact Hp|lia].
  - intros k p Hk Hp. apply (longest_free_block_frame _ (mem s)); [exact Hps| |apply Hl; assumption].
    intros x Hx. apply (Hpages k p); [exact Hk|exact Hp|lia].
  - exact Ha.
  - intros k p Hk Hp. unfold off_superblock. rewrite Hsb. apply (Hs k p Hk Hp).
Qed.

Lemma in_set_bucket B k l j q :
  In q (set_bucket B k l j) -> (j = k /\ In q l) \/ (j <> k /\ In q (B j)).
Proof.
  unfold set_bucket. destruct (j =? k) eqn:E; intros H.
  - left. split; [apply Z.eqb_eq; exact E|exact H].
  - right. split; [apply Z.eqb_neq; exact E|exact H].
Qed.

Lemma set_bucket_same B k l : set_bucket B k l k = l.
Proof. unfold set_bucket. rewrite Z.eqb_refl. reflexivity. Qed.

Lemma set_bucket_other B k l j : j <> k -> set_bucket B k l j = B j.
Proof.
  intros H. unfold set_bucket.
  replace (j =? k) with false by (symmetry; apply Z.eqb_neq; exact H). reflexivity.
Qed.

Lemma page_geometry sys_page_size :
  page_size_ok sys_page_size ->
  24 <= 16 * bm_page_header_size_in_units sys_page_size <= sys_page_size /\
  0 <= max_data_units sys_page_size.
Proof.
  intros Hps. pose proof (metadata_fits _ Hps) as [H1 H2].
  pose proof (hdr_bounds _ Hps) as H3. pose proof (upp_bounds _ Hps) as [H4 _].
  rewrite (max_data_units_eq _ Hps).
  assert (0 <= units_per_page sys_page_size / 64) by (apply Z.div_pos; lia).
  lia.
Qed.

(** Taking a page off its list leaves a well-formed superblock without
    the page, and the page as it was. *)
Lemma superblock_detach sys_page_size s B k xs p ys :
  page_size_ok sys_page_size -> superblock_ok sys_page_size s B ->
  0 <= k <= max_data_units sys_page_size ->
  B k = xs ++ p :: ys -> List.length (xs ++ ys) <> 1%nat ->
  superblock_ok sys_page_size (delete_from_list s p) (set_bucket B k (xs ++ ys)) /\
  detached sys_page_size (delete_from_list s p) (set_bucket B k (xs ++ ys)) p /\
  (forall x, p <= x < p + sys_page_size -> mem (delete_from_list s p) x = mem s x) /\
  same_books s (delete_from_list s p).
Proof.
  intros Hps [Hr Hb Hl Ha Hs] Hk HBk Hlen.
  pose proof (page_geometry _ Hps) as [Hgeo Hmax].
  pose proof (Hb k Hk) as Hbk. rewrite HBk in Hbk.
  destruct (delete_from_list_spec s k xs p ys Hbk Hlen) as [Hbk' Hframe].
  pose proof (delete_from_list_books s p) as Hbooks.
  assert (Hsb : superblock (delete_from_list s p) = superblock s)
    by (destruct Hbooks as (_ & E & _); exact E).
  assert (Hsub : forall q, In q (xs ++ ys) -> In q (B k)).
  { intros q Hq. rewrite HBk. rewrite in_app_iff in *. cbn [In]. tauto. }
  assert (Hp_in : In p (B k)) by (rewrite HBk; apply in_elt).
  assert (Hp_out : ~ In p (xs ++ ys)).
  { apply NoDup_remove_2. exact (bucket_nodup _ _ _ Hbk). }
  assert (Hold : forall j q, 0 <= j <= max_data_units sys_page_size ->
            In q (set_bucket B k (xs ++ ys) j) -> In q (B j) /\ q <> p).
  { intros j q Hj Hq. apply in_set_bucket in Hq. destruct Hq as [[-> Hq]|[Hjk Hq]].
    - split; [apply Hsub; exact Hq|]. intros ->. contradiction.
    - split; [exact Hq|]. intros ->.
      destruct (Ha j k p p Hj Hk Hq Hp_in) as [[_ E]|E]; [contradiction|].
      unfold pages_apart in E. lia. }
  assert (Hsep : forall j q q', 0 <= j <= max_data_units sys_page_size ->
            In q (B j) -> In q' (xs ++ ys) ->
            q = q' \/ pages_apart sys_page_size q q').
  { intros j q q' Hj Hq Hq'.
    destruct (Ha j k q q' Hj Hk Hq (Hsub _ Hq')) as [[E _]|E]; [left|right]; exact E. }
  assert (Hoff : forall j q, 0 <= j <= max_data_units sys_page_size -> In q (B j) ->
            superblock s + 8 * (max_data_units sys_page_size + 1) <= q \/
            q + sys_page_size <= superblock s).
  { intros j q Hj Hq. exact (Hs j q Hj Hq). }
  split; [|split; [|split]].
  - constructor.
    + rewrite Hsb. exact Hr.
    + intros j Hj. destruct (Z.eq_dec j k) as [->|Hjk].
      * rewrite set_bucket_same. exact Hbk'.
      * rewrite set_bucket_other by exact Hjk.
        apply (bucket_frame s); [apply Hb; exact Hj|exact Hsb| |].
        -- intros x Hx. apply Hframe; [unfold slot in *; lia|].
           intros q Hq. pose proof (Hoff k q Hk (Hsub _ Hq)). unfold slot in Hx. lia.
        -- intros p' x Hp' Hx. pose proof (Hoff j p' Hj Hp').
           apply Hframe; [unfold slot; lia|].
           intros q Hq. destruct (Ha j k p' q Hj Hk Hp' (Hsub _ Hq)) as [[_ E]|E];
             [contradiction|]. unfold pages_apart in E. lia.
    + intros j q Hj Hq. destruct (Hold j q Hj Hq) as [Hq' _].
      apply (longest_free_block_frame _ (mem s)); [exact Hps| |apply Hl; assumption].
      intros x Hx. pose proof (Hoff j q Hj Hq').
      apply Hframe; [unfold slot; lia|].
      intros q' Hq''. destruct (Hsep j q q' Hj Hq' Hq'') as [<-|E]; [lia|].
      unfold pages_apart in E. lia.
    + intros j j' q q' Hj Hj' Hq Hq'.
      apply Ha; try assumption; [apply (Hold j q Hj Hq)|apply (Hold j' q' Hj' Hq')].
    + intros j q Hj Hq. unfold off_superblock. rewrite Hsb.
      apply (Hoff j q Hj). apply (Hold j q Hj Hq).
  - split; [exact (bucket_range _ _ _ Hbk p (in_elt p xs ys))|].
    split.
    + unfold off_superblock. rewrite Hsb. exact (Hoff k p Hk Hp_in).
    + intros j q Hj Hq. destruct (Hold j q Hj Hq) as [Hq' Hne].
      destruct (Ha k j p q Hk Hj Hp_in Hq') as [[E _]|E]; [congruence|exact E].
  - intros x Hx. pose proof (Hoff k p Hk Hp_in).
    apply Hframe; [unfold slot; lia|].
    intros q Hq. destruct (Hsep k p q Hk Hp_in Hq) as [<-|E]; [contradiction|].
    unfold pages_apart in E. lia.
  - exact Hbooks.
Qed.

(** Writing inside a page that is in no bucket does not change what the
    superblock says. *)
Lemma superblock_detached_write sys_page_size s s' B p :
  page_size_ok sys_page_size -> superblock_ok sys_page_size s B ->
  detached sys_page_size s B p -> superblock s' = superblock s ->
  (forall x, ~ p <= x < p + sys_page_size -> mem s' x = mem s x) ->
  superblock_ok sys_page_size s' B /\ detached sys_page_size s' B p.
Proof.
  intros Hps Hok (Hp & Hoff & Hap) Hsb Hframe.
  pose proof (page_geometry _ Hps) as [Hgeo Hmax].
  split.
  - apply (superblock_frame _ s); [exact Hps|exact Hok|exact Hsb| |].
    + intros x Hx. apply Hframe. unfold off_superblock in Hoff. lia.
    + intros k q x Hk Hq Hx. apply Hframe.
      pose proof (Hap k q Hk Hq) as E. unfold pages_apart in E. lia.
  - split; [exact Hp|]. split; [|exact Hap].
    unfold off_superblock. rewrite Hsb. exact Hoff.
Qed.

(** Putting a page that is in no bucket into the bucket of its longest
    free block gives a well-formed superblock with the page; the page is
    written in its list header only. *)
Lemma superblock_attach sys_page_size s B k p :
  page_size_ok sys_page_size -> superblock_ok sys_page_size s B ->
  detached sys_page_size s B p ->
  0 <= k <= max_data_units sys_page_size ->
  find_longest_free_block sys_page_size (bitmap_of (mem s) p) = Some k ->
  superblock_ok sys_page_size (add_to_superblock_entry s p k)
    (set_bucket B k (B k ++ [p])) /\
  (forall x, p + 24 <= x < p + sys_page_size ->
             mem (add_to_superblock_entry s p k) x = mem s x) /\
  same_books s (add_to_superblock_entry s p k).
Proof.
  intros Hps [Hr Hb Hl Ha Hs] (Hp & Hoff & Hap) Hk Hlfb.
  pose proof (page_geometry _ Hps) as [Hgeo Hmax].
  pose proof (add_to_superblock_entry_books s p k) as Hbooks.
  assert (Hsb : superblock (add_to_superblock_entry s p k) = superblock s)
    by (destruct Hbooks as (_ & E & _); exact E).
  unfold off_superblock in Hoff.
  assert (Hfresh : forall q, In q (B k) -> apart p q).
  { intros q Hq. pose proof (Hap k q Hk Hq) as E. unfold pages_apart in E.
    unfold apart. lia. }
  assert (Hslot : slot s k + 8 <= p \/ p + 24 <= slot s k) by (unfold slot; lia).
  pose proof (add_to_superblock_entry_bucket s p k (B k) (Hb k Hk) Hp Hfresh Hslot) as Hbk'.
  assert (Hframe : forall x, ~ slot s k <= x < slot s k + 8 ->
            ~ p <= x < p + 24 ->
            (forall q, In q (B k) -> ~ q + 8 <= x < q + 24) ->
            mem (add_to_superblock_entry s p k) x = mem s x).
  { intros x H1 H2 H3.
    apply (add_to_superblock_entry_frame s p k (B k)); try assumption. apply Hb, Hk. }
  assert (Hoffq : forall j q, 0 <= j <= max_data_units sys_page_size -> In q (B j) ->
            superblock s + 8 * (max_data_units sys_page_size + 1) <= q \/
            q + sys_page_size <= superblock s).
  { intros j q Hj Hq. exact (Hs j q Hj Hq). }
  assert (Hnew : forall j q, 0 <= j <= max_data_units sys_page_size ->
            In q (set_bucket B k (B k ++ [p]) j) ->
            In q (B j) \/ (q = p /\ j = k)).
  { intros j q Hj Hq. apply in_set_bucket in Hq. destruct Hq as [[-> Hq]|[_ Hq]].
    - apply in_app_or in Hq. destruct Hq as [Hq|[<-|[]]]; [left; exact Hq|right; split; reflexivity].
    - left. exact Hq. }
  assert (Hlfb_frame : forall j q, 0 <= j <= max_data_units sys_page_size ->
            (In q (B j) \/ q = p) ->
            forall x, q + 24 <= x < q + 16 * bm_page_header_size_in_units sys_page_size ->
            mem (add_to_superblock_entry s p k) x = mem s x).
  { intros j q Hj Hq x Hx. apply Hframe.
    - destruct Hq as [Hq| ->]; [pose proof (Hoffq j q Hj Hq)|]; unfold slot; lia.
    - destruct Hq as [Hq| ->]; [|lia].
      pose proof (Hap j q Hj Hq) as E. unfold pages_apart in E. lia.
    - intros q' Hq'. destruct Hq as [Hq| ->].
      + destruct (Ha j k q q' Hj Hk Hq Hq') as [[<- _]|E]; [lia|].
        unfold pages_apart in E. lia.
      + pose proof (Hap k q' Hk Hq') as E. unfold pages_apart in E. lia. }
  split; [|split].
  - constructor.
    + rewrite Hsb. exact Hr.
    + intros j Hj. destruct (Z.eq_dec j k) as [->|Hjk].
      * rewrite set_bucket_same. exact Hbk'.
      * rewrite set_bucket_other by exact Hjk.
        apply (bucket_frame s); [apply Hb; exact Hj|exact Hsb| |].
        -- intros x Hx. unfold slot in Hx. apply Hframe; [unfold slot; lia|lia|].
           intros q Hq. pose proof (Hoffq k q Hk Hq). lia.
        -- intros p' x Hp' Hx. pose proof (Hoffq j p' Hj Hp').
           apply Hframe; [unfold slot; lia| |].
           ++ pose proof (Hap j p' Hj Hp') as E. unfold pages_apart in E. lia.
           ++ intros q Hq. destruct (Ha j k p' q Hj Hk Hp' Hq) as [[_ E]|E];
                [contradiction|]. unfold pages_apart in E. lia.
    + intros j q Hj Hq. destruct (Hnew j q Hj Hq) as [Hq'|[-> ->]].
      * apply (longest_free_block_frame _ (mem s)); [exact Hps| |apply Hl; assumption].
        apply (Hlfb_frame j q Hj). left. exact Hq'.
      * apply (longest_free_block_frame _ (mem s)); [exact Hps| |exact Hlfb].
        apply (Hlfb_frame k p Hk). right. reflexivity.
    + intros j j' q q' Hj Hj' Hq Hq'.
      destruct (Hnew j q Hj Hq) as [Hq1|[-> ->]], (Hnew j' q' Hj' Hq') as [Hq2|[-> ->]].
      * apply Ha; assumption.
      * right. pose proof (Hap j q Hj Hq1) as E. unfold pages_apart in *. lia.
      * right. exact (Hap j' q' Hj' Hq2).
      * left. split; reflexivity.
    + intros j q Hj Hq. unfold off_superblock. rewrite Hsb.
      destruct (Hnew j q Hj Hq) as [Hq'|[-> ->]]; [exact (Hoffq j q Hj Hq')|exact Hoff].
  - intros x Hx. apply Hframe; [unfold slot; lia|lia|].
    intros q Hq. pose proof (Hap k q Hk Hq) as E. unfold pages_apart in E. lia.
  - exact Hbooks.
Qed.

(** [set_bits] and [clear_bits] on a page that is in no bucket. *)
Lemma update_bits_detached sys_page_size (v : bool) s B p lo len :
  page_size_ok sys_page_size -> superblock_ok sys_page_size s B ->
  detached sys_page_size s B p ->
  0 <= lo -> 0 <= len -> lo + len <= units_per_page sys_page_size ->
  exists m', update_bits v (mem s) p lo len = Some m' /\
    superblock_ok sys_page_size (set_mem s m') B /\
    detached sys_page_size (set_mem s m') B p /\
    (forall i, bm_bit (bitmap_of m' p) i =
               if (lo <=? i) && (i <? lo + len) then v else bm_bit (bitmap_of (mem s) p) i) /\
    (forall x, ~ p + 24 <= x < p + 16 * bm_page_header_size_in_units sys_page_size ->
               m' x = mem s x).
Proof.
  intros Hps Hok Hdet Hlo Hlen Hfit.
  pose proof (page_geometry _ Hps) as [Hgeo Hmax].
  pose proof (metadata_fits _ Hps) as [Hmeta _].
  pose proof (upp_bounds _ Hps) as [Hub Hmod].
  destruct (update_bits_spec v (mem s) p lo len Hlo ltac:(lia)) as (m' & Hrun & Hbits & Hframe).
  assert (Hout : forall x,
            ~ p + 24 <= x < p + 16 * bm_page_header_size_in_units sys_page_size ->
            m' x = mem s x).
  { intros x Hx. apply Hframe. unfold bitmap_addr, offsetof_bitmap.
    assert (0 <= lo / 64) by (apply Z.div_pos; lia).
    assert ((lo + len + 63) / 64 <= units_per_page sys_page_size / 64).
    { revert Hfit Hmod Hlo Hlen. clear. intros. Z.div_mod_to_equations. lia. }
    lia. }
  exists m'. split; [exact Hrun|].
  destruct (superblock_detached_write _ s (set_mem s m') B p Hps Hok Hdet eq_refl)
    as [Hok' Hdet'].
  { intros x Hx. cbn [mem set_mem]. apply Hout. lia. }
  split; [exact Hok'|]. split; [exact Hdet'|]. split; [exact Hbits|exact Hout].
Qed.

(** [add_to_superblock] on a page that is in no bucket. *)
Lemma add_to_superblock_attach sys_page_size s B p :
  page_size_ok sys_page_size -> superblock_ok sys_page_size s B ->
  detached sys_page_size s B p ->
  exists k,
    add_to_superblock sys_page_size s p = Ret tt (add_to_superblock_entry s p k) /\
    0 <= k <= max_data_units sys_page_size /\
    find_longest_free_block sys_page_size (bitmap_of (mem s) p) = Some k /\
    superblock_ok sys_page_size (add_to_superblock_entry s p k)
      (set_bucket B k (B k ++ [p])) /\
    (forall x, p + 24 <= x < p + sys_page_size ->
               mem (add_to_superblock_entry s p k) x = mem s x) /\
    same_books s (add_to_superblock_entry s p k).
Proof.
  intros Hps Hok Hdet.
  destruct (find_longest_free_block_spec _ (bitmap_of (mem s) p) Hps (bitmap_of_wf _ _))
    as (k & Hk & _).
  pose proof (longest_free_block_bound _ _ k Hps (bitmap_of_wf _ _) Hk) as Hkr.
  exists k. split.
  { unfold add_to_superblock. rewrite Hk. reflexivity. }
  split; [exact Hkr|]. split; [exact Hk|].
  apply superblock_attach; assumption.
Qed.

(** X26.  [bm_shrink] on a page of a well-formed superblock (the bucket
    of the page holding this page only, or three pages at least) returns;
    it clears the bits of the units given up and no other bit of the
    page, and leaves a well-formed superblock in which the page is the
    last of the bucket of its new longest free block; the counters and
    the mapping do not change. *)
Theorem bm_shrink_keeps_superblock
  sys_page_size s B k xs p ys offset old_num_units new_num_units :
  page_size_ok sys_page_size -> superblock_ok sys_page_size s B ->
  0 <= k <= max_data_units sys_page_size ->
  B k = xs ++ p :: ys -> List.length (xs ++ ys) <> 1%nat ->
  0 <= offset -> 0 <= new_num_units <= old_num_units ->
  offset + old_num_units <= units_per_page sys_page_size ->
  exists s' k',
    bm_shrink sys_page_size s p offset old_num_units new_num_units = Ret tt s' /\
    0 <= k' <= max_data_units sys_page_size /\
    find_longest_free_block sys_page_size (bitmap_of (mem s') p) = Some k' /\
    superblock_ok sys_page_size s'
      (set_bucket (set_bucket B k (xs ++ ys)) k'
         (set_bucket B k (xs ++ ys) k' ++ [p])) /\
    (forall i, 0 <= i < units_per_page sys_page_size ->
       bm_bit (bitmap_of (mem s') p) i =
       if (offset + new_num_units <=? i) && (i <? offset + old_num_units) then false
       else bm_bit (bitmap_of (mem s) p) i) /\
    same_books s s'.
Proof.
  intros Hps Hok Hk HBk Hlen Hoff Hnew Hfit.
  pose proof (page_geometry _ Hps) as [Hgeo Hmax].
  pose proof (upp_bounds _ Hps) as [Hub _]. change (2 ^ 28) with 268435456 in Hub.
  destruct (superblock_detach _ s B k xs p ys Hps Hok Hk HBk Hlen)
    as (Hok1 & Hdet1 & Hpage1 & Hbooks1).
  set (s1 := delete_from_list s p) in *.
  set (B1 := set_bucket B k (xs ++ ys)) in *.
  destruct (update_bits_detached _ false s1 B1 p (offset + new_num_units)
              (old_num_units - new_num_units) Hps Hok1 Hdet1)
    as (m2 & Hrun & Hok2 & Hdet2 & Hbits2 & Hout2); try lia.
  destruct (add_to_superblock_attach _ (set_mem s1 m2) B1 p Hps Hok2 Hdet2)
    as (k' & Hadd & Hk' & Hlfb & Hok3 & Hpage3 & Hbooks3).
  exists (add_to_superblock_entry (set_mem s1 m2) p k'), k'.
  split.
  { unfold bm_shrink, grab_superblock_page. fold s1.
    rewrite (u32_small (offset + new_num_units)), (u32_small (old_num_units - new_num_units))
      by (change (2 ^ 32) with 4294967296; lia).
    rewrite clear_bits_update, Hrun. cbn [lift bind]. exact Hadd. }
  split; [exact Hk'|]. split.
  { apply (longest_free_block_frame _ (mem (set_mem s1 m2))); [exact Hps| |exact Hlfb].
    intros x Hx. apply Hpage3. lia. }
  split; [exact Hok3|]. split.
  - intros i Hi.
    rewrite (bitmap_bits_agree _ (mem (set_mem s1 m2)) _ p Hps) by
      (try exact Hi; intros x Hx; apply Hpage3; lia).
    cbn [mem set_mem]. rewrite Hbits2.
    replace (offset + new_num_units + (old_num_units - new_num_units))
      with (offset + old_num_units) by lia.
    destruct ((offset + new_num_units <=? i) && (i <? offset + old_num_units));
      [reflexivity|].
    apply (bitmap_bits_agree _ (mem s) (mem s1) p Hps); [|exact Hi].
    intros x Hx. apply Hpage1. lia.
  - apply (same_books_trans s s1); [exact Hbooks1|].
    apply (same_books_trans s1 (set_mem s1 m2)); [apply same_books_set_mem|exact Hbooks3].
Qed.

(** X27.  [bm_release] on a page of a well-formed superblock (the bucket
    of the page holding this page only, or three pages at least) returns
    and counts one block less; it clears the bits of the block and no
    other bit of the page.  When the longest free block is then below
    [max_data_units] the page becomes the last of the bucket of that
    length, and the mapping and the log are as they were.  Otherwise the
    page is in no bucket, one bitmap page less is counted and [munmap] is
    called on the page: when it succeeds the page is unmapped and nothing
    is printed, when it fails the mapping stays and the diagnostic of
    [call_munmap] is printed.  The superblock is well-formed in every
    case. *)
Theorem bm_release_keeps_superblock
  sys_page_size os_munmap s B k xs p ys offset num_units :
  page_size_ok sys_page_size -> superblock_ok sys_page_size s B ->
  0 <= k <= max_data_units sys_page_size ->
  B k = xs ++ p :: ys -> List.length (xs ++ ys) <> 1%nat ->
  0 <= offset -> 0 <= num_units ->
  offset + num_units <= units_per_page sys_page_size ->
  exists s' k',
    bm_release sys_page_size os_munmap s p offset num_units = Ret tt s' /\
    find_longest_free_block sys_page_size (bitmap_of (mem s') p) = Some k' /\
    0 <= k' <= max_data_units sys_page_size /\
    (forall i, 0 <= i < units_per_page sys_page_size ->
       bm_bit (bitmap_of (mem s') p) i =
       if (offset <=? i) && (i <? offset + num_units) then false
       else bm_bit (bitmap_of (mem s) p) i) /\
    blocks_allocated s' = u64 (blocks_allocated s - 1) /\
    (if k' <? max_data_units sys_page_size
     then superblock_ok sys_page_size s'
            (set_bucket (set_bucket B k (xs ++ ys)) k'
               (set_bucket B k (xs ++ ys) k' ++ [p])) /\
          mapped s' = mapped s /\ num_bm_pages s' = num_bm_pages s /\
          err_log s' = err_log s
     else superblock_ok sys_page_size s' (set_bucket B k (xs ++ ys)) /\
          detached sys_page_size s' (set_bucket B k (xs ++ ys)) p /\
          num_bm_pages s' = u64 (num_bm_pages s - 1) /\
          if os_munmap (mapped s) p sys_page_size
          then mapped s' = unmap_pages (mapped s) p sys_page_size /\
               err_log s' = err_log s
          else mapped s' = mapped s /\
               err_log s' = "munmap(%p, %u): %s"%string :: err_log s).
Proof.
  intros Hps Hok Hk HBk Hlen Hoff Hnum Hfit.
  pose proof (page_geometry _ Hps) as [Hgeo Hmax].
  destruct (superblock_detach _ s B k xs p ys Hps Hok Hk HBk Hlen)
    as (Hok1 & Hdet1 & Hpage1 & Hbooks1).
  set (s1 := delete_from_list s p) in *.
  set (B1 := set_bucket B k (xs ++ ys)) in *.
  destruct (update_bits_detached _ false s1 B1 p offset num_units Hps Hok1 Hdet1)
    as (m2 & Hrun & Hok2 & Hdet2 & Hbits2 & Hout2); try lia.
  destruct (add_to_superblock_attach _ (set_mem s1 m2) B1 p Hps Hok2 Hdet2)
    as (k' & _ & Hk' & Hlfb & Hok3 & Hpage3 & Hbooks3).
  assert (Hbits : forall i, 0 <= i < units_per_page sys_page_size ->
            bm_bit (bitmap_of m2 p) i =
            if (offset <=? i) && (i <? offset + num_units) then false
            else bm_bit (bitmap_of (mem s) p) i).
  { intros i Hi. rewrite Hbits2.
    destruct ((offset <=? i) && (i <? offset + num_units)); [reflexivity|].
    apply (bitmap_bits_agree _ (mem s) (mem s1) p Hps); [|exact Hi].
    intros x Hx. apply Hpage1. lia. }
  destruct Hbooks1 as (Hb1 & Hb2 & Hb3 & Hb4 & Hb5).
  cbn [mem set_mem] in Hlfb.
  unfold bm_release, grab_superblock_page. fold s1.
  rewrite clear_bits_update, Hrun. cbn [lift bind mem set_mem]. rewrite Hlfb.
  cbn [lift bind].
  destruct (k' <? max_data_units sys_page_size) eqn:E.
  - eexists _, k'. split; [reflexivity|]. rewrite E.
    split.
    { cbn [mem add_blocks_allocated].
      apply (longest_free_block_frame _ m2); [exact Hps| |exact Hlfb].
      intros x Hx. apply Hpage3. lia. }
    split; [exact Hk'|]. split.
    { intros i Hi. cbn [mem add_blocks_allocated].
      rewrite (bitmap_bits_agree _ m2 _ p Hps) by
        (try exact Hi; intros x Hx; apply Hpage3; lia).
      apply Hbits. exact Hi. }
    destruct Hbooks3 as (Hc1 & Hc2 & Hc3 & Hc4 & Hc5).
    cbn [mapped blocks_allocated num_bm_pages err_log set_mem] in Hc1, Hc3, Hc4, Hc5.
    split; [cbn [blocks_allocated add_blocks_allocated]; rewrite Hc3, Hb3; reflexivity|].
    split; [|split; [|split]].
    + apply (superblock_frame _ (add_to_superblock_entry (set_mem s1 m2) p k'));
        [exact Hps|exact Hok3|reflexivity| |]; intros; reflexivity.
    + cbn [mapped add_blocks_allocated]. rewrite Hc1, Hb1. reflexivity.
    + cbn [num_bm_pages add_blocks_allocated]. rewrite Hc4, Hb4. reflexivity.
    + cbn [err_log add_blocks_allocated]. rewrite Hc5, Hb5. reflexivity.
  - pose proof (call_munmap_books os_munmap (set_mem s1 m2) p sys_page_size)
      as (Hm & Hsb & Hba & Hnb & Hc5).
    set (s3 := call_munmap os_munmap (set_mem s1 m2) p sys_page_size) in *.
    cbn [mem superblock blocks_allocated num_bm_pages mapped err_log set_mem]
      in Hm, Hsb, Hba, Hnb, Hc5.
    eexists _, k'. split; [reflexivity|]. rewrite E.
    cbn [mem add_blocks_allocated add_num_bm_pages]. rewrite Hm.
    split; [exact Hlfb|]. split; [exact Hk'|]. split; [exact Hbits|].
    split.
    { cbn [blocks_allocated add_blocks_allocated add_num_bm_pages].
      rewrite Hba, Hb3. reflexivity. }
    split; [|split; [|split]].
    + apply (superblock_frame _ (set_mem s1 m2)); [exact Hps|exact Hok2|exact Hsb| |].
      * intros x _. cbn [mem add_blocks_allocated add_num_bm_pages]. exact (f_equal (fun m => m x) Hm).
      * intros j q x _ _ _. cbn [mem add_blocks_allocated add_num_bm_pages].
        exact (f_equal (fun m => m x) Hm).
    + destruct Hdet2 as (Hd1 & Hd2 & Hd3). split; [exact Hd1|]. split; [|exact Hd3].
      unfold off_superblock in *.
      cbn [superblock add_blocks_allocated add_num_bm_pages]. rewrite Hsb. exact Hd2.
    + cbn [num_bm_pages add_blocks_allocated add_num_bm_pages]. rewrite Hnb, Hb4.
      reflexivity.
    + cbn [mapped err_log add_blocks_allocated add_num_bm_pages].
      rewrite Hb1, Hb5 in Hc5. exact Hc5.
Qed.

(** X28.  [bm_grow] on a page of a well-formed superblock (the bucket of
    the page holding this page only, or three pages at least) returns
    [true] exactly when the units asked for beyond the block lie inside
    the page and are free.  It then sets their bits and no other, and the
    page becomes the last of the bucket of its new longest free block.
    When it returns [false] the bitmap is as it was, and the page has
    been taken off its list and is in no bucket. *)
Theorem bm_grow_keeps_superblock
  sys_page_size s B k xs p ys offset old_num_units new_num_units :
  page_size_ok sys_page_size -> superblock_ok sys_page_size s B ->
  0 <= k <= max_data_units sys_page_size ->
  B k = xs ++ p :: ys -> List.length (xs ++ ys) <> 1%nat ->
  0 <= offset -> 0 <= old_num_units <= new_num_units -> new_num_units < 2 ^ 32 ->
  offset + old_num_units <= units_per_page sys_page_size ->
  exists r s',
    bm_grow sys_page_size s p offset old_num_units new_num_units = Ret r s' /\
    (r = true <->
     offset + new_num_units <= units_per_page sys_page_size /\
     free_run (bitmap_of (mem s) p) (offset + old_num_units)
       (new_num_units - old_num_units)) /\
    same_books s s' /\
    if r then
      exists k', 0 <= k' <= max_data_units sys_page_size /\
        find_longest_free_block sys_page_size (bitmap_of (mem s') p) = Some k' /\
        superblock_ok sys_page_size s'
          (set_bucket (set_bucket B k (xs ++ ys)) k'
             (set_bucket B k (xs ++ ys) k' ++ [p])) /\
        (forall i, 0 <= i < units_per_page sys_page_size ->
           bm_bit (bitmap_of (mem s') p) i =
           if (offset + old_num_units <=? i) && (i <? offset + new_num_units) then true
           else bm_bit (bitmap_of (mem s) p) i)
    else
      s' = delete_from_list s p /\
      superblock_ok sys_page_size s' (set_bucket B k (xs ++ ys)) /\
      detached sys_page_size s' (set_bucket B k (xs ++ ys)) p /\
      (forall i, 0 <= i < units_per_page sys_page_size ->
         bm_bit (bitmap_of (mem s') p) i = bm_bit (bitmap_of (mem s) p) i).
Proof.
  intros Hps Hok Hk HBk Hlen Hoff Hold Hnew Hfit.
  pose proof (page_geometry _ Hps) as [Hgeo Hmax].
  pose proof (upp_bounds _ Hps) as [Hub _]. change (2 ^ 28) with 268435456 in Hub.
  change (2 ^ 32) with 4294967296 in Hnew.
  destruct (superblock_detach _ s B k xs p ys Hps Hok Hk HBk Hlen)
    as (Hok1 & Hdet1 & Hpage1 & Hbooks1).
  set (s1 := delete_from_list s p) in *.
  set (B1 := set_bucket B k (xs ++ ys)) in *.
  assert (Hbits1 : forall i, 0 <= i < units_per_page sys_page_size ->
            bm_bit (bitmap_of (mem s1) p) i = bm_bit (bitmap_of (mem s) p) i).
  { intros i Hi. apply (bitmap_bits_agree _ (mem s) (mem s1) p Hps); [|exact Hi].
    intros x Hx. apply Hpage1. lia. }
  destruct (count_zero_bits_spec _ Hps (bitmap_of (mem s1) p) (offset + old_num_units)
              (new_num_units - old_num_units) (bitmap_of_wf _ _) ltac:(lia))
    as (c & Hc & _).
  pose proof (count_zero_bits_reaches_iff _ Hps (bitmap_of (mem s1) p)
                (offset + old_num_units) (new_num_units - old_num_units) c
                (bitmap_of_wf _ _) ltac:(lia) ltac:(lia) Hc) as Hiff.
  replace (offset + old_num_units + (new_num_units - old_num_units))
    with (offset + new_num_units) in Hiff by lia.
  assert (Hiff' : new_num_units - old_num_units <= c <->
            offset + new_num_units <= units_per_page sys_page_size /\
            free_run (bitmap_of (mem s) p) (offset + old_num_units)
              (new_num_units - old_num_units)).
  { rewrite Hiff. unfold free_run. split; intros [H1 H2]; (split; [exact H1|]); intros i Hi.
    - rewrite <- Hbits1 by lia. apply H2. lia.
    - rewrite Hbits1 by lia. apply H2. lia. }
  unfold bm_grow, grab_superblock_page. fold s1.
  rewrite (u32_small (offset + old_num_units)), (u32_small (new_num_units - old_num_units))
    by (change (2 ^ 32) with 4294967296; lia).
  rewrite Hc. cbn [lift bind].
  destruct (c <? new_num_units - old_num_units) eqn:E.
  - apply Z.ltb_lt in E. exists false, s1. split; [reflexivity|]. split.
    { split; [discriminate|]. intros H. apply Hiff' in H. lia. }
    split; [exact Hbooks1|]. split; [reflexivity|]. split; [exact Hok1|].
    split; [exact Hdet1|exact Hbits1].
  - apply Z.ltb_ge in E. pose proof (proj1 Hiff' E) as [Hfits Hfree].
    destruct (update_bits_detached _ true s1 B1 p (offset + old_num_units)
                (new_num_units - old_num_units) Hps Hok1 Hdet1)
      as (m2 & Hrun & Hok2 & Hdet2 & Hbits2 & Hout2); try lia.
    destruct (add_to_superblock_attach _ (set_mem s1 m2) B1 p Hps Hok2 Hdet2)
      as (k' & Hadd & Hk' & Hlfb & Hok3 & Hpage3 & Hbooks3).
    rewrite set_bits_update, Hrun. cbn [lift bind]. rewrite Hadd. cbn [bind].
    exists true, (add_to_superblock_entry (set_mem s1 m2) p k').
    split; [reflexivity|]. split.
    { split; [intros _; split; assumption|reflexivity]. }
    split.
    { apply (same_books_trans s s1); [exact Hbooks1|].
      apply (same_books_trans s1 (set_mem s1 m2)); [apply same_books_set_mem|exact Hbooks3]. }
    exists k'. split; [exact Hk'|]. split.
    { apply (longest_free_block_frame _ (mem (set_mem s1 m2))); [exact Hps| |exact Hlfb].
      intros x Hx. apply Hpage3. lia. }
    split; [exact Hok3|].
    intros i Hi.
    rewrite (bitmap_bits_agree _ (mem (set_mem s1 m2)) _ p Hps) by
      (try exact Hi; intros x Hx; apply Hpage3; lia).
    cbn [mem set_mem]. rewrite Hbits2.
    replace (offset + old_num_units + (new_num_units - old_num_units))
      with (offset + new_num_units) by lia.
    destruct ((offset + old_num_units <=? i) && (i <? offset + new_num_units));
      [reflexivity|].
    apply Hbits1. exact Hi.
Qed.

(** X29.  [bm_allocate] with a page in the superblock: the first page of
    the lowest non-empty bucket from [num_units] up (holding this page
    only, or three pages at least) serves the request.  The block
    returned lies in the data area of that page, on units that were free;
    exactly their bits are set; one block more is counted; the page
    becomes the last of the bucket of its new longest free block and the
    superblock is well-formed; with [clean] the block is zeroed. *)
Theorem bm_allocate_from_bucket
  sys_page_size os_mmap s B num_units lfb p ys (clean : bool) :
  page_size_ok sys_page_size -> superblock_ok sys_page_size s B ->
  1 <= num_units <= lfb -> lfb <= max_data_units sys_page_size ->
  (forall j, num_units <= j < lfb -> B j = []) ->
  B lfb = p :: ys -> List.length ys <> 1%nat ->
  exists r k' s',
    bm_allocate sys_page_size os_mmap s num_units clean = Ret (p + 16 * r) s' /\
    free_block_at sys_page_size (bitmap_of (mem s) p) num_units r /\
    0 <= k' <= max_data_units sys_page_size /\
    find_longest_free_block sys_page_size (bitmap_of (mem s') p) = Some k' /\
    superblock_ok sys_page_size s'
      (set_bucket (set_bucket B lfb ys) k' (set_bucket B lfb ys k' ++ [p])) /\
    (forall i, 0 <= i < units_per_page sys_page_size ->
       bm_bit (bitmap_of (mem s') p) i =
       if (r <=? i) && (i <? r + num_units) then true
       else bm_bit (bitmap_of (mem s) p) i) /\
    blocks_allocated s' = u64 (blocks_allocated s + 1) /\
    (clean = true ->
     forall x, p + 16 * r <= x < p + 16 * (r + num_units) -> mem s' x = 0).
Proof.
  intros Hps Hok Hnum Hlfb Hempty HB Hlen.
  pose proof (page_geometry _ Hps) as [Hgeo Hmax].
  pose proof (metadata_fits _ Hps) as [_ Hpage].
  pose proof (upp_bounds _ Hps) as [Hub _]. change (2 ^ 28) with 268435456 in Hub.
  pose proof (hdr_bounds _ Hps) as Hhdr.
  assert (Hk : 0 <= lfb <= max_data_units sys_page_size) by lia.
  (* the page found *)
  assert (Hfind : find_available_page sys_page_size s num_units = (p, delete_from_list s p)).
  { apply (find_available_page_spec _ s num_units lfb p ys); try lia; try assumption.
    - intros j Hj. rewrite (bucket_first _ _ _ (sb_bucket _ _ _ Hok j ltac:(lia))).
      rewrite (Hempty j Hj). reflexivity.
    - rewrite <- HB. apply (sb_bucket _ _ _ Hok). exact Hk. }
  assert (Hp_in : In p (B lfb)) by (rewrite HB; left; reflexivity).
  pose proof (bucket_range _ _ _ (sb_bucket _ _ _ Hok lfb Hk) p Hp_in) as Hp.
  pose proof (sb_lfb _ _ _ Hok lfb p Hk Hp_in) as Hplfb.
  destruct (superblock_detach _ s B lfb [] p ys Hps Hok Hk HB Hlen)
    as (Hok1 & Hdet1 & Hpage1 & Hbooks1).
  cbn [app] in Hok1, Hdet1.
  set (s1 := delete_from_list s p) in *.
  set (B1 := set_bucket B lfb ys) in *.
  assert (Hbits1 : forall i, 0 <= i < units_per_page sys_page_size ->
            bm_bit (bitmap_of (mem s1) p) i = bm_bit (bitmap_of (mem s) p) i).
  { intros i Hi. apply (bitmap_bits_agree _ (mem s) (mem s1) p Hps); [|exact Hi].
    intros x Hx. apply Hpage1. lia. }
  (* the block found *)
  destruct (find_longest_free_block_spec _ (bitmap_of (mem s) p) Hps (bitmap_of_wf _ _))
    as (l' & Hl' & _ & _ & q & Hq1 & Hq2 & Hq3).
  rewrite Hplfb in Hl'. injection Hl' as <-.
  assert (Hsome : free_block_at sys_page_size (bitmap_of (mem s1) p) num_units q).
  { split; [exact Hq1|]. split; [lia|]. intros i Hi. rewrite Hbits1 by lia.
    apply Hq3. lia. }
  destruct (find_free_block_spec _ (bitmap_of (mem s1) p) num_units Hps (bitmap_of_wf _ _)
              ltac:(lia)) as (r & Hr & Hcase).
  destruct Hcase as [[_ Hnone]|[(Hr1 & Hr2 & Hr3) _]]; [exfalso; exact (Hnone q Hsome)|].
  assert (Hfree : free_block_at sys_page_size (bitmap_of (mem s) p) num_units r).
  { split; [exact Hr1|]. split; [exact Hr2|]. intros i Hi. rewrite <- Hbits1 by lia.
    apply Hr3. exact Hi. }
  destruct (update_bits_detached _ true s1 B1 p r num_units Hps Hok1 Hdet1)
    as (m2 & Hrun & Hok2 & Hdet2 & Hbits2 & Hout2); try lia.
  destruct (add_to_superblock_attach _ (set_mem s1 m2) B1 p Hps Hok2 Hdet2)
    as (k' & Hadd & Hk' & Hlfb3 & Hok3 & Hpage3 & Hbooks3).
  set (s3 := add_to_superblock_entry (set_mem s1 m2) p k') in *.
  assert (Hbits3 : forall i, 0 <= i < units_per_page sys_page_size ->
            bm_bit (bitmap_of (mem s3) p) i =
            if (r <=? i) && (i <? r + num_units) then true
            else bm_bit (bitmap_of (mem s) p) i).
  { intros i Hi.
    rewrite (bitmap_bits_agree _ (mem (set_mem s1 m2)) _ p Hps) by
      (try exact Hi; intros x Hx; apply Hpage3; lia).
    cbn [mem set_mem]. rewrite Hbits2.
    destruct ((r <=? i) && (i <? r + num_units)); [reflexivity|]. apply Hbits1. exact Hi. }
  assert (Hlfb3' : find_longest_free_block sys_page_size (bitmap_of (mem s3) p) = Some k').
  { apply (longest_free_block_frame _ (mem (set_mem s1 m2))); [exact Hps| |exact Hlfb3].
    intros x Hx. apply Hpage3. lia. }
  assert (Hcount : blocks_allocated s3 = blocks_allocated s).
  { destruct Hbooks1 as (_ & _ & E1 & _). destruct Hbooks3 as (_ & _ & E3 & _).
    rewrite E3. cbn [blocks_allocated set_mem]. exact E1. }
  (* the run *)
  exists r, k'.
  unfold bm_allocate. rewrite Hfind.
  replace (p =? 0) with false by (symmetry; apply Z.eqb_neq; lia).
  cbn [negb]. rewrite Hr. cbn [lift bind].
  replace (r =? 0) with false by (symmetry; apply Z.eqb_neq; lia).
  rewrite set_bits_update, Hrun. cbn [lift bind]. rewrite Hadd. cbn [bind]. fold s3.
  unfold UNIT_SIZE.
  rewrite (u32_small (r * 16)) by (change (2 ^ 32) with 4294967296; lia).
  replace (p + r * 16) with (p + 16 * r) by lia.
  replace (p + 16 * r =? 0) with false by (symmetry; apply Z.eqb_neq; lia).
  cbn [negb andb].
  destruct clean.
  - destruct (cleanse_spec (mem (add_blocks_allocated s3 1)) (p + 16 * r) 0
                (u32 (num_units * 16))) as (m5 & Hm5 & Hzero).
    { rewrite u32_small by (change (2 ^ 32) with 4294967296; lia). lia. }
    { rewrite u32_small by (change (2 ^ 32) with 4294967296; lia).
      change (2 ^ 32) with 4294967296. lia. }
    rewrite u32_small in Hzero, Hm5 by (change (2 ^ 32) with 4294967296; lia).
    rewrite (u32_small (num_units * 16)) by (change (2 ^ 32) with 4294967296; lia).
    rewrite Hm5. cbn [lift bind].
    exists (set_mem (add_blocks_allocated s3 1) m5).
    assert (Hsame : forall x, ~ p + 16 * r <= x < p + 16 * (r + num_units) ->
              m5 x = mem s3 x).
    { intros x Hx. rewrite Hzero.
      replace ((p + 16 * r + 0 <=? x) && (x <? p + 16 * r + num_units * 16)) with false;
        [reflexivity|].
      symmetry. apply andb_false_iff. rewrite Z.leb_gt, Z.ltb_ge. lia. }
    assert (Hmeta : forall x,
              p + 24 <= x < p + 16 * bm_page_header_size_in_units sys_page_size ->
              m5 x = mem s3 x).
    { intros x Hx. apply Hsame. lia. }
    split; [reflexivity|]. split; [exact Hfree|]. split; [exact Hk'|].
    split.
    { cbn [mem set_mem].
      apply (longest_free_block_frame _ (mem s3)); [exact Hps|exact Hmeta|exact Hlfb3']. }
    split.
    { apply (superblock_frame _ s3); [exact Hps|exact Hok3|reflexivity| |].
      - intros x Hx. cbn [mem set_mem]. apply Hsame.
        destruct Hdet1 as (_ & Hoff & _). unfold off_superblock in Hoff.
        replace (superblock s1) with (superblock s) in Hoff
          by (destruct Hbooks1 as (_ & E & _); symmetry; exact E).
        replace (superblock s3) with (superblock s) in Hx
          by (destruct Hbooks1 as (_ & E1 & _); destruct Hbooks3 as (_ & E3 & _);
              rewrite E3; cbn [superblock set_mem]; symmetry; exact E1).
        lia.
      - intros j q' x Hj Hq' Hx. cbn [mem set_mem]. apply Hsame.
        destruct (sb_apart _ _ _ Hok3 j k' q' p Hj Hk' Hq') as [[-> _]|E].
        + rewrite set_bucket_same. apply in_or_app. right. left. reflexivity.
        + lia.
        + unfold pages_apart in E. lia. }
    split.
    { intros i Hi. cbn [mem set_mem].
      rewrite (bitmap_bits_agree _ (mem s3) m5 p Hps Hmeta i Hi). apply Hbits3. exact Hi. }
    split; [cbn [blocks_allocated set_mem add_blocks_allocated]; rewrite Hcount; reflexivity|].
    intros _ x Hx. cbn [mem set_mem]. rewrite Hzero.
    replace ((p + 16 * r + 0 <=? x) && (x <? p + 16 * r + num_units * 16)) with true;
      [reflexivity|].
    symmetry. apply andb_true_iff. rewrite Z.leb_le, Z.ltb_lt. lia.
  - exists (add_blocks_allocated s3 1).
    split; [reflexivity|]. split; [exact Hfree|]. split; [exact Hk'|].
    split; [exact Hlfb3'|]. split.
    { apply (superblock_frame _ s3); [exact Hps|exact Hok3|reflexivity| |];
        intros; reflexivity. }
    split; [exact Hbits3|]. split; [cbn [blocks_allocated set_mem add_blocks_allocated]; rewrite Hcount; reflexivity|].
    intros H. discriminate H.
Qed.

Lemma clean_bitmap_spec :
  forall n m ptr x,
  clean_bitmap n m ptr x =
  if (ptr <=? x) && (x <? ptr + 8 * Z.of_nat n) then 0 else m x.
Proof.
  induction n as [|n IH]; intros m ptr x; cbn [clean_bitmap].
  - replace ((ptr <=? x) && (x <? ptr + 8 * Z.of_nat 0)) with false; [reflexivity|].
    symmetry. apply andb_false_iff. rewrite Z.leb_gt, Z.ltb_ge. lia.
  - rewrite IH. unfold store_word.
    destruct ((ptr + 8 <=? x) && (x <? ptr + 8 + 8 * Z.of_nat n)) eqn:E1.
    + apply andb_true_iff in E1. rewrite Z.leb_le, Z.ltb_lt in E1.
      replace ((ptr <=? x) && (x <? ptr + 8 * Z.of_nat (S n))) with true; [reflexivity|].
      symmetry. apply andb_true_iff. rewrite Z.leb_le, Z.ltb_lt. lia.
    + apply andb_false_iff in E1. rewrite Z.leb_gt, Z.ltb_ge in E1.
      destruct ((ptr <=? x) && (x <? ptr + 8)) eqn:E2.
      * apply andb_true_iff in E2. rewrite Z.leb_le, Z.ltb_lt in E2.
        rewrite Z.shiftr_0_l.
        replace ((ptr <=? x) && (x <? ptr + 8 * Z.of_nat (S n))) with true; [reflexivity|].
        symmetry. apply andb_true_iff. rewrite Z.leb_le, Z.ltb_lt. lia.
      * apply andb_false_iff in E2. rewrite Z.leb_gt, Z.ltb_ge in E2.
        replace ((ptr <=? x) && (x <? ptr + 8 * Z.of_nat (S n))) with false; [reflexivity|].
        symmetry. apply andb_false_iff. rewrite Z.leb_gt, Z.ltb_ge. lia.
Qed.

Lemma load_word_zero m a :
  (forall x, a <= x < a + 8 -> m x = 0) -> load_word m a = 0.
Proof.
  intros H. rewrite (load_word_agree (fun _ => 0) m a); [reflexivity|].
  intros x Hx. apply H. exact Hx.
Qed.

(** The longest free block of a page whose data area is in use up to
    unit [num_units] and free from there on. *)
Lemma longest_free_block_fresh sys_page_size bm num_units :
  page_size_ok sys_page_size -> wf_bitmap bm ->
  0 <= num_units <= max_data_units sys_page_size ->
  (forall i, bm_page_header_size_in_units sys_page_size <= i
             < units_per_page sys_page_size ->
             bm_bit bm i = (i <? bm_page_header_size_in_units sys_page_size + num_units)) ->
  find_longest_free_block sys_page_size bm
  = Some (max_data_units sys_page_size - num_units).
Proof.
  intros Hps Hbm Hnum Hbits.
  pose proof (max_data_units_eq _ Hps) as Hmax. pose proof (hdr_bounds _ Hps) as Hhdr.
  destruct (find_longest_free_block_spec _ bm Hps Hbm) as (r & Hr & H0 & Hlong & q & Hq).
  rewrite Hr. f_equal.
  assert (Hge : max_data_units sys_page_size - num_units <= r).
  { apply (Hlong (bm_page_header_size_in_units sys_page_size + num_units)).
    split; [lia|]. split; [lia|]. intros i Hi. rewrite Hbits by lia.
    apply Z.ltb_ge. lia. }
  destruct Hq as (Hq1 & Hq2 & Hq3).
  destruct (Z_le_gt_dec r (max_data_units sys_page_size - num_units)) as [|Hgt]; [lia|].
  exfalso.
  assert (Hq4 : q < bm_page_header_size_in_units sys_page_size + num_units) by lia.
  specialize (Hq3 q ltac:(lia)). rewrite Hbits in Hq3 by lia.
  apply Z.ltb_ge in Hq3. lia.
Qed.

Lemma bm_allocate_fresh_spec sys_page_size os_mmap s B num_units a (clean : bool) :
  page_size_ok sys_page_size -> superblock_ok sys_page_size s B ->
  1 <= num_units <= max_data_units sys_page_size ->
  (forall j, num_units <= j <= max_data_units sys_page_size -> B j = []) ->
  os_mmap (mapped s) sys_page_size = Some a ->
  detached sys_page_size s B a ->
  exists s',
    bm_allocate sys_page_size os_mmap s num_units clean
    = Ret (a + 16 * bm_page_header_size_in_units sys_page_size) s' /\
    superblock_ok sys_page_size s'
      (set_bucket B (max_data_units sys_page_size - num_units)
         (B (max_data_units sys_page_size - num_units) ++ [a])) /\
    (forall i, 0 <= i < units_per_page sys_page_size ->
       bm_bit (bitmap_of (mem s') a) i =
       (i <? bm_page_header_size_in_units sys_page_size + num_units)) /\
    blocks_allocated s' = u64 (blocks_allocated s + 1) /\
    num_bm_pages s' = u64 (num_bm_pages s + 1) /\
    mapped s' = pages_of sys_page_size a sys_page_size ++ mapped s /\
    (clean = true ->
     forall x, a + 16 * bm_page_header_size_in_units sys_page_size <= x
               < a + 16 * (bm_page_header_size_in_units sys_page_size + num_units) ->
               mem s' x = 0).
Proof.
  intros Hps Hok Hnum Hempty Hos Hdet.
  pose proof (page_geometry _ Hps) as [Hgeo Hmax].
  pose proof (metadata_fits _ Hps) as [Hmeta Hpage].
  pose proof (upp_bounds _ Hps) as [Hub Hmod]. change (2 ^ 28) with 268435456 in Hub.
  pose proof (hdr_bounds _ Hps) as Hhdr.
  pose proof (max_data_units_eq _ Hps) as Hmaxeq.
  set (hdr := bm_page_header_size_in_units sys_page_size) in *.
  set (upp := units_per_page sys_page_size) in *.
  set (k := max_data_units sys_page_size - num_units).
  assert (Hk : 0 <= k <= max_data_units sys_page_size) by (subst k; lia).
  assert (Ha : 0 < a < 2 ^ 64) by (destruct Hdet as (H & _); exact H).
  (* no page in the superblock *)
  assert (Hfind : find_available_page sys_page_size s num_units = (0, s)).
  { unfold find_available_page. apply find_available_page_loop_none. intros j Hj.
    rewrite Z2Nat.id in Hj by lia.
    replace (slot s num_units + 8 * j) with (slot s (num_units + j)) by (unfold slot; lia).
    rewrite (bucket_first _ _ _ (sb_bucket _ _ _ Hok (num_units + j) ltac:(lia))).
    rewrite (Hempty (num_units + j)) by lia. reflexivity. }
  (* the new page *)
  set (s0 := set_mapped s (pages_of sys_page_size a sys_page_size ++ mapped s)).
  assert (Hok0 : superblock_ok sys_page_size s0 B).
  { apply (superblock_frame _ s); [exact Hps|exact Hok|reflexivity| |]; intros; reflexivity. }
  assert (Hdet0 : detached sys_page_size s0 B a) by exact Hdet.
  set (m1 := clean_bitmap (Z.to_nat (upp / WORD_WIDTH)) (mem s0) (bitmap_addr a 0)).
  assert (Hwords : 0 <= upp / 64) by (apply Z.div_pos; lia).
  assert (Hm1 : forall x, m1 x = if (a + 24 <=? x) && (x <? a + 24 + 8 * (upp / 64))
                                 then 0 else mem s x).
  { intros x. subst m1. rewrite clean_bitmap_spec. unfold WORD_WIDTH.
    rewrite Z2Nat.id by lia. unfold bitmap_addr, offsetof_bitmap.
    replace (a + 24 + 8 * 0) with (a + 24) by lia. reflexivity. }
  assert (Hok1 : superblock_ok sys_page_size (set_mem s0 m1) B /\
                 detached sys_page_size (set_mem s0 m1) B a).
  { apply (superblock_detached_write _ s0); [exact Hps|exact Hok0|exact Hdet0|reflexivity|].
    intros x Hx. cbn [mem set_mem]. rewrite Hm1.
    replace ((a + 24 <=? x) && (x <? a + 24 + 8 * (upp / 64))) with false; [reflexivity|].
    symmetry. apply andb_false_iff. rewrite Z.leb_gt, Z.ltb_ge. lia. }
  destruct Hok1 as [Hok1 Hdet1].
  assert (Hbits1 : forall i, 0 <= i < upp -> bm_bit (bitmap_of m1 a) i = false).
  { intros i Hi. unfold bm_bit, bitmap_of, WORD_WIDTH.
    rewrite load_word_zero; [apply Z.bits_0|].
    intros x Hx. rewrite Hm1.
    replace ((a + 24 <=? x) && (x <? a + 24 + 8 * (upp / 64))) with true; [reflexivity|].
    symmetry. apply andb_true_iff. rewrite Z.leb_le, Z.ltb_lt.
    unfold bitmap_addr, offsetof_bitmap in Hx.
    assert (0 <= i / 64 < upp / 64).
    { split; [apply Z.div_pos; lia|]. apply Z.div_lt_upper_bound; [lia|].
      revert Hmod Hi. clear. intros. Z.div_mod_to_equations. lia. }
    lia. }
  destruct (update_bits_detached _ true (set_mem s0 m1) B a 0 (hdr + num_units)
              Hps Hok1 Hdet1) as (m2 & Hrun & Hok2 & Hdet2 & Hbits2 & Hout2); try lia.
  cbn [mem set_mem] in Hrun, Hbits2, Hout2.
  assert (Hok2' : superblock_ok sys_page_size (set_mem s0 m2) B) by exact Hok2.
  assert (Hdet2' : detached sys_page_size (set_mem s0 m2) B a) by exact Hdet2.
  assert (Hbits2' : forall i, 0 <= i < upp ->
            bm_bit (bitmap_of m2 a) i = (i <? hdr + num_units)).
  { intros i Hi. rewrite Hbits2, Hbits1 by exact Hi.
    replace (0 <=? i) with true by (symmetry; apply Z.leb_le; lia).
    cbn [andb]. replace (0 + (hdr + num_units)) with (hdr + num_units) by lia.
    destruct (i <? hdr + num_units); reflexivity. }
  assert (Hlfb2 : find_longest_free_block sys_page_size (bitmap_of m2 a) = Some k).
  { apply longest_free_block_fresh; [exact Hps|apply bitmap_of_wf|lia|].
    intros i Hi. apply Hbits2'. fold hdr upp in Hi. lia. }
  destruct (superblock_attach _ (set_mem s0 m2) B k a Hps Hok2' Hdet2' Hk Hlfb2)
    as (Hok3 & Hpage3 & Hbooks3).
  set (s3 := add_to_superblock_entry (set_mem s0 m2) a k) in *.
  assert (Hmeta3 : forall x, a + 24 <= x < a + 16 * hdr -> mem s3 x = m2 x).
  { intros x Hx. apply Hpage3. lia. }
  assert (Hbits3 : forall i, 0 <= i < upp ->
            bm_bit (bitmap_of (mem s3) a) i = (i <? hdr + num_units)).
  { intros i Hi. rewrite (bitmap_bits_agree _ m2 (mem s3) a Hps Hmeta3 i Hi).
    apply Hbits2'. exact Hi. }
  destruct Hbooks3 as (Hc1 & Hc2 & Hc3 & Hc4 & Hc5).
  cbn [mapped superblock blocks_allocated num_bm_pages set_mem set_mapped s0] in Hc1, Hc2, Hc3, Hc4.
  (* the run *)
  unfold bm_allocate. rewrite Hfind. cbn [Z.eqb negb].
  unfold call_mmap. rewrite Hos. cbn [bind]. fold s0.
  replace (a =? 0) with false by (symmetry; apply Z.eqb_neq; lia).
  fold upp hdr. fold m1.
  rewrite (u32_small (hdr + num_units)) by (change (2 ^ 32) with 4294967296; lia).
  rewrite set_bits_update, Hrun. cbn [lift bind].
  rewrite (u32_small (max_data_units sys_page_size - num_units))
    by (change (2 ^ 32) with 4294967296; lia).
  fold k. fold s3. unfold UNIT_SIZE.
  rewrite (u32_small (hdr * 16)) by (change (2 ^ 32) with 4294967296; lia).
  replace (a + hdr * 16) with (a + 16 * hdr) by lia.
  replace (a + 16 * hdr =? 0) with false by (symmetry; apply Z.eqb_neq; lia).
  cbn [negb andb].
  destruct clean.
  - destruct (cleanse_spec (mem (add_blocks_allocated (add_num_bm_pages s3 1) 1))
                (a + 16 * hdr) 0 (u32 (num_units * 16))) as (m5 & Hm5 & Hzero).
    { rewrite u32_small by (change (2 ^ 32) with 4294967296; lia). lia. }
    { rewrite u32_small by (change (2 ^ 32) with 4294967296; lia).
      change (2 ^ 32) with 4294967296. lia. }
    rewrite u32_small in Hzero, Hm5 by (change (2 ^ 32) with 4294967296; lia).
    rewrite (u32_small (num_units * 16)) by (change (2 ^ 32) with 4294967296; lia).
    rewrite Hm5. cbn [lift bind].
    cbn [mem add_blocks_allocated add_num_bm_pages] in Hzero.
    assert (Hsame : forall x, ~ a + 16 * hdr <= x < a + 16 * (hdr + num_units) ->
              m5 x = mem s3 x).
    { intros x Hx. rewrite Hzero.
      replace ((a + 16 * hdr + 0 <=? x) && (x <? a + 16 * hdr + num_units * 16)) with false;
        [reflexivity|].
      symmetry. apply andb_false_iff. rewrite Z.leb_gt, Z.ltb_ge. lia. }
    eexists. split; [reflexivity|]. split.
    { apply (superblock_frame _ s3); [exact Hps|exact Hok3|reflexivity| |].
      - intros x Hx. cbn [mem set_mem]. apply Hsame.
        destruct Hdet as (_ & Hoff & _). unfold off_superblock in Hoff.
        rewrite Hc2 in Hx. lia.
      - intros j q' x Hj Hq' Hx. cbn [mem set_mem]. apply Hsame.
        destruct (sb_apart _ _ _ Hok3 j k q' a Hj Hk Hq') as [[-> _]|E].
        + rewrite set_bucket_same. apply in_or_app. right. left. reflexivity.
        + fold hdr in Hx. lia.
        + unfold pages_apart in E. fold hdr in Hx. lia. }
    split.
    { intros i Hi. cbn [mem set_mem].
      rewrite (bitmap_bits_agree _ (mem s3) m5 a Hps) by
        (try exact Hi; intros x Hx; apply Hsame; fold hdr in Hx; lia).
      apply Hbits3. exact Hi. }
    split; [cbn [blocks_allocated set_mem add_blocks_allocated add_num_bm_pages];
            rewrite Hc3; reflexivity|].
    split; [cbn [num_bm_pages set_mem add_blocks_allocated add_num_bm_pages];
            rewrite Hc4; reflexivity|].
    split; [cbn [mapped set_mem add_blocks_allocated add_num_bm_pages]; exact Hc1|].
    intros _ x Hx. cbn [mem set_mem]. rewrite Hzero.
    replace ((a + 16 * hdr + 0 <=? x) && (x <? a + 16 * hdr + num_units * 16)) with true;
      [reflexivity|].
    symmetry. apply andb_true_iff. rewrite Z.leb_le, Z.ltb_lt. lia.
  - eexists. split; [reflexivity|]. split.
    { apply (superblock_frame _ s3); [exact Hps|exact Hok3|reflexivity| |];
        intros; reflexivity. }
    split; [exact Hbits3|].
    split; [cbn [blocks_allocated set_mem add_blocks_allocated add_num_bm_pages];
            rewrite Hc3; reflexivity|].
    split; [cbn [num_bm_pages set_mem add_blocks_allocated add_num_bm_pages];
            rewrite Hc4; reflexivity|].
    split; [cbn [mapped set_mem add_blocks_allocated add_num_bm_pages]; exact Hc1|].
    intros H. discriminate H.
Qed.

(** X30.  [bm_allocate] with no page in the buckets from [num_units] up
    maps a page: when the kernel hands out a page that overlaps neither
    the superblock nor a page of it, the block returned starts right
    after the header units, the bits of the header and of the block are
    set and every other bit of the page is clear, the page is the last of
    bucket [max_data_units - num_units], the superblock is well-formed,
    one block and one bitmap page more are counted, and with [clean] the
    block is zeroed. *)
Theorem bm_allocate_maps_page
  sys_page_size os_mmap s B num_units a (clean : bool) :
  page_size_ok sys_page_size -> superblock_ok sys_page_size s B ->
  1 <= num_units <= max_data_units sys_page_size ->
  (forall j, num_units <= j <= max_data_units sys_page_size -> B j = []) ->
  os_mmap (mapped s) sys_page_size = Some a ->
  detached sys_page_size s B a ->
  exists s',
    bm_allocate sys_page_size os_mmap s num_units clean
    = Ret (a + 16 * bm_page_header_size_in_units sys_page_size) s' /\
    superblock_ok sys_page_size s'
      (set_bucket B (max_data_units sys_page_size - num_units)
         (B (max_data_units sys_page_size - num_units) ++ [a])) /\
    (forall i, 0 <= i < units_per_page sys_page_size ->
       bm_bit (bitmap_of (mem s') a) i =
       (i <? bm_page_header_size_in_units sys_page_size + num_units)) /\
    blocks_allocated s' = u64 (blocks_allocated s + 1) /\
    num_bm_pages s' = u64 (num_bm_pages s + 1) /\
    mapped s' = pages_of sys_page_size a sys_page_size ++ mapped s /\
    (clean = true ->
     forall x, a + 16 * bm_page_header_size_in_units sys_page_size <= x
               < a + 16 * (bm_page_header_size_in_units sys_page_size + num_units) ->
               mem s' x = 0).
Proof.
  exact (bm_allocate_fresh_spec sys_page_size os_mmap s B num_units a clean).
Qed.

(** The booted allocator and the allocator with one page. *)
Lemma booted_superblock_ok : superblock_ok 4096 Machine.booted (fun _ => []).
Proof.
  constructor.
  - vm_compute. split; congruence.
  - intros k Hk. change (max_data_units 4096) with 252 in Hk. constructor.
    + unfold slot. cbn [superblock Machine.booted].
      change (2 ^ 64) with 18446744073709551616. lia.
    + reflexivity.
    + intros p [].
    + constructor.
    + intros p q [].
    + intros p [].
    + exact I.
    + intros p [].
  - intros k p _ [].
  - intros k k' p q _ _ [].
  - intros k p _ [].
Qed.

Lemma booted_buckets_empty :
  forall j : Z, 3 <= j <= max_data_units 4096 -> (fun _ : Z => @nil Z) j = [].
Proof. intros j _. reflexivity. Qed.

Lemma page_A_detached : detached 4096 Machine.booted (fun _ => []) Machine.page_A.
Proof.
  split; [vm_compute; split; reflexivity|]. split.
  - left. vm_compute. congruence.
  - intros k q _ [].
Qed.

Lemma three_units_fit : 1 <= 3 <= max_data_units 4096.
Proof. vm_compute. split; congruence. Qed.

Lemma machine_mmap_page_A :
  Machine.os_mmap (mapped Machine.booted) 4096 = Some Machine.page_A.
Proof. reflexivity. Qed.

Lemma one_page_superblock_ok :
  superblock_ok 4096 Machine.one_page (set_bucket (fun _ => []) 249 [Machine.page_A]).
Proof.
  destruct (bm_allocate_fresh_spec 4096 Machine.os_mmap Machine.booted (fun _ => []) 3
              Machine.page_A false page_size_ok_4096 booted_superblock_ok three_units_fit
              booted_buckets_empty machine_mmap_page_A page_A_detached)
    as (s' & Hrun & Hok & _).
  unfold Machine.one_page. change Machine.sys_page_size with 4096. rewrite Hrun.
  cbn [state_of]. exact Hok.
Qed.

Lemma bm_allocate_maps_page_witness :
  page_size_ok 4096 /\ superblock_ok 4096 Machine.booted (fun _ => []) /\
  1 <= 3 <= max_data_units 4096 /\
  (forall j : Z, 3 <= j <= max_data_units 4096 -> (fun _ : Z => @nil Z) j = []) /\
  Machine.os_mmap (mapped Machine.booted) 4096 = Some Machine.page_A /\
  detached 4096 Machine.booted (fun _ => []) Machine.page_A /\
  exists s',
    bm_allocate 4096 Machine.os_mmap Machine.booted 3 true
    = Ret (Machine.page_A + 16 * bm_page_header_size_in_units 4096) s' /\
    superblock_ok 4096 s'
      (set_bucket (fun _ => []) (max_data_units 4096 - 3)
         ((fun _ => []) (max_data_units 4096 - 3) ++ [Machine.page_A])) /\
    (forall i, 0 <= i < units_per_page 4096 ->
       bm_bit (bitmap_of (mem s') Machine.page_A) i =
       (i <? bm_page_header_size_in_units 4096 + 3)) /\
    blocks_allocated s' = u64 (blocks_allocated Machine.booted + 1) /\
    num_bm_pages s' = u64 (num_bm_pages Machine.booted + 1) /\
    mapped s' = pages_of 4096 Machine.page_A 4096 ++ mapped Machine.booted /\
    (true = true ->
     forall x, Machine.page_A + 16 * bm_page_header_size_in_units 4096 <= x
               < Machine.page_A + 16 * (bm_page_header_size_in_units 4096 + 3) ->
               mem s' x = 0).
Proof.
  split; [exact page_size_ok_4096|]. split; [exact booted_superblock_ok|].
  split; [exact three_units_fit|]. split; [exact booted_buckets_empty|].
  split; [exact machine_mmap_page_A|]. split; [exact page_A_detached|].
  exact (bm_allocate_maps_page 4096 Machine.os_mmap Machine.booted (fun _ => []) 3
           Machine.page_A true page_size_ok_4096 booted_superblock_ok three_units_fit
           booted_buckets_empty machine_mmap_page_A page_A_detached).
Defined.

Lemma bucket_249 : 0 <= 249 <= max_data_units 4096.
Proof. vm_compute. split; congruence. Qed.

Lemma one_page_bucket_249 :
  set_bucket (fun _ => []) 249 [Machine.page_A] 249 = [] ++ Machine.page_A :: [].
Proof. reflexivity. Qed.

Lemma alone_in_bucket : List.length (@nil Z ++ []) <> 1%nat.
Proof. simpl. lia. Qed.

Lemma bm_shrink_keeps_superblock_witness :
  page_size_ok 4096 /\
  superblock_ok 4096 Machine.one_page (set_bucket (fun _ => []) 249 [Machine.page_A]) /\
  0 <= 249 <= max_data_units 4096 /\
  set_bucket (fun _ => []) 249 [Machine.page_A] 249 = [] ++ Machine.page_A :: [] /\
  List.length (@nil Z ++ []) <> 1%nat /\
  0 <= 4 /\ 0 <= 1 <= 3 /\ 4 + 3 <= units_per_page 4096 /\
  exists s' k',
    bm_shrink 4096 Machine.one_page Machine.page_A 4 3 1 = Ret tt s' /\
    0 <= k' <= max_data_units 4096 /\
    find_longest_free_block 4096 (bitmap_of (mem s') Machine.page_A) = Some k' /\
    superblock_ok 4096 s'
      (set_bucket (set_bucket (set_bucket (fun _ => []) 249 [Machine.page_A]) 249 ([] ++ []))
         k'
         (set_bucket (set_bucket (fun _ => []) 249 [Machine.page_A]) 249 ([] ++ []) k'
          ++ [Machine.page_A])) /\
    (forall i, 0 <= i < units_per_page 4096 ->
       bm_bit (bitmap_of (mem s') Machine.page_A) i =
       if (4 + 1 <=? i) && (i <? 4 + 3) then false
       else bm_bit (bitmap_of (mem Machine.one_page) Machine.page_A) i) /\
    same_books Machine.one_page s'.
Proof.
  assert (H1 : 0 <= 4) by lia.
  assert (H2 : 0 <= 1 <= 3) by lia.
  assert (H3 : 4 + 3 <= units_per_page 4096) by (vm_compute; congruence).
  split; [exact page_size_ok_4096|]. split; [exact one_page_superblock_ok|].
  split; [exact bucket_249|]. split; [exact one_page_bucket_249|].
  split; [exact alone_in_bucket|]. split; [exact H1|]. split; [exact H2|].
  split; [exact H3|].
  exact (bm_shrink_keeps_superblock 4096 Machine.one_page _ 249 [] Machine.page_A [] 4 3 1
           page_size_ok_4096 one_page_superblock_ok bucket_249 one_page_bucket_249
           alone_in_bucket H1 H2 H3).
Defined.

Lemma bm_release_keeps_superblock_witness :
  page_size_ok 4096 /\
  superblock_ok 4096 Machine.one_page (set_bucket (fun _ => []) 249 [Machine.page_A]) /\
  0 <= 249 <= max_data_units 4096 /\
  set_bucket (fun _ => []) 249 [Machine.page_A] 249 = [] ++ Machine.page_A :: [] /\
  List.length (@nil Z ++ []) <> 1%nat /\
  0 <= 4 /\ 0 <= 3 /\ 4 + 3 <= units_per_page 4096 /\
  exists s' k',
    bm_release 4096 Machine.os_munmap Machine.one_page Machine.page_A 4 3 = Ret tt s' /\
    find_longest_free_block 4096 (bitmap_of (mem s') Machine.page_A) = Some k' /\
    0 <= k' <= max_data_units 4096 /\
    (forall i, 0 <= i < units_per_page 4096 ->
       bm_bit (bitmap_of (mem s') Machine.page_A) i =
       if (4 <=? i) && (i <? 4 + 3) then false
       else bm_bit (bitmap_of (mem Machine.one_page) Machine.page_A) i) /\
    blocks_allocated s' = u64 (blocks_allocated Machine.one_page - 1) /\
    (if k' <? max_data_units 4096
     then superblock_ok 4096 s'
            (set_bucket (set_bucket (set_bucket (fun _ => []) 249 [Machine.page_A]) 249
                           ([] ++ [])) k'
               (set_bucket (set_bucket (fun _ => []) 249 [Machine.page_A]) 249 ([] ++ []) k'
                ++ [Machine.page_A])) /\
          mapped s' = mapped Machine.one_page /\
          num_bm_pages s' = num_bm_pages Machine.one_page /\
          err_log s' = err_log Machine.one_page
     else superblock_ok 4096 s'
            (set_bucket (set_bucket (fun _ => []) 249 [Machine.page_A]) 249 ([] ++ [])) /\
          detached 4096 s'
            (set_bucket (set_bucket (fun _ => []) 249 [Machine.page_A]) 249 ([] ++ []))
            Machine.page_A /\
          num_bm_pages s' = u64 (num_bm_pages Machine.one_page - 1) /\
          if Machine.os_munmap (mapped Machine.one_page) Machine.page_A 4096
          then mapped s' = unmap_pages (mapped Machine.one_page) Machine.page_A 4096 /\
               err_log s' = err_log Machine.one_page
          else mapped s' = mapped Machine.one_page /\
               err_log s' = "munmap(%p, %u): %s"%string :: err_log Machine.one_page).
Proof.
  assert (H1 : 0 <= 4) by lia.
  assert (H2 : 0 <= 3) by lia.
  assert (H3 : 4 + 3 <= units_per_page 4096) by (vm_compute; congruence).
  split; [exact page_size_ok_4096|]. split; [exact one_page_superblock_ok|].
  split; [exact bucket_249|]. split; [exact one_page_bucket_249|].
  split; [exact alone_in_bucket|]. split; [exact H1|]. split; [exact H2|].
  split; [exact H3|].
  exact (bm_release_keeps_superblock 4096 Machine.os_munmap Machine.one_page _ 249 []
           Machine.page_A [] 4 3 page_size_ok_4096 one_page_superblock_ok bucket_249 one_page_bucket_249
           alone_in_bucket H1 H2 H3).
Defined.

Lemma bm_grow_keeps_superblock_witness :
  page_size_ok 4096 /\
  superblock_ok 4096 Machine.one_page (set_bucket (fun _ => []) 249 [Machine.page_A]) /\
  0 <= 249 <= max_data_units 4096 /\
  set_bucket (fun _ => []) 249 [Machine.page_A] 249 = [] ++ Machine.page_A :: [] /\
  List.length (@nil Z ++ []) <> 1%nat /\
  0 <= 4 /\ 0 <= 3 <= 5 /\ 5 < 2 ^ 32 /\ 4 + 3 <= units_per_page 4096 /\
  exists r s',
    bm_grow 4096 Machine.one_page Machine.page_A 4 3 5 = Ret r s' /\
    (r = true <->
     4 + 5 <= units_per_page 4096 /\
     free_run (bitmap_of (mem Machine.one_page) Machine.page_A) (4 + 3) (5 - 3)) /\
    same_books Machine.one_page s' /\
    if r then
      exists k', 0 <= k' <= max_data_units 4096 /\
        find_longest_free_block 4096 (bitmap_of (mem s') Machine.page_A) = Some k' /\
        superblock_ok 4096 s'
          (set_bucket (set_bucket (set_bucket (fun _ => []) 249 [Machine.page_A]) 249
                         ([] ++ [])) k'
             (set_bucket (set_bucket (fun _ => []) 249 [Machine.page_A]) 249 ([] ++ []) k'
              ++ [Machine.page_A])) /\
        (forall i, 0 <= i < units_per_page 4096 ->
           bm_bit (bitmap_of (mem s') Machine.page_A) i =
           if (4 + 3 <=? i) && (i <? 4 + 5) then true
           else bm_bit (bitmap_of (mem Machine.one_page) Machine.page_A) i)
    else
      s' = delete_from_list Machine.one_page Machine.page_A /\
      superblock_ok 4096 s'
        (set_bucket (set_bucket (fun _ => []) 249 [Machine.page_A]) 249 ([] ++ [])) /\
      detached 4096 s'
        (set_bucket (set_bucket (fun _ => []) 249 [Machine.page_A]) 249 ([] ++ []))
        Machine.page_A /\
      (forall i, 0 <= i < units_per_page 4096 ->
         bm_bit (bitmap_of (mem s') Machine.page_A) i
         = bm_bit (bitmap_of (mem Machine.one_page) Machine.page_A) i).
Proof.
  assert (H1 : 0 <= 4) by lia.
  assert (H2 : 0 <= 3 <= 5) by lia.
  assert (H3 : 5 < 2 ^ 32) by (change (2 ^ 32) with 4294967296; lia).
  assert (H4 : 4 + 3 <= units_per_page 4096) by (vm_compute; congruence).
  split; [exact page_size_ok_4096|]. split; [exact one_page_superblock_ok|].
  split; [exact bucket_249|]. split; [exact one_page_bucket_249|].
  split; [exact alone_in_bucket|]. split; [exact H1|]. split; [exact H2|].
  split; [exact H3|]. split; [exact H4|].
  exact (bm_grow_keeps_superblock 4096 Machine.one_page _ 249 [] Machine.page_A [] 4 3 5
           page_size_ok_4096 one_page_superblock_ok bucket_249 one_page_bucket_249
           alone_in_bucket H1 H2 H3 H4).
Defined.

Lemma one_page_low_buckets :
  forall j, 2 <= j < 249 -> set_bucket (fun _ => []) 249 [Machine.page_A] j = [].
Proof. intros j Hj. apply set_bucket_other. lia. Qed.

Lemma one_page_bucket_first :
  set_bucket (fun _ => []) 249 [Machine.page_A] 249 = Machine.page_A :: [].
Proof. reflexivity. Qed.

Lemma no_other_page : List.length (@nil Z) <> 1%nat.
Proof. simpl. lia. Qed.

Lemma bm_allocate_from_bucket_witness :
  page_size_ok 4096 /\
  superblock_ok 4096 Machine.one_page (set_bucket (fun _ => []) 249 [Machine.page_A]) /\
  1 <= 2 <= 249 /\ 249 <= max_data_units 4096 /\
  (forall j, 2 <= j < 249 -> set_bucket (fun _ => []) 249 [Machine.page_A] j = []) /\
  set_bucket (fun _ => []) 249 [Machine.page_A] 249 = Machine.page_A :: [] /\
  List.length (@nil Z) <> 1%nat /\
  exists r k' s',
    bm_allocate 4096 Machine.os_mmap Machine.one_page 2 true
    = Ret (Machine.page_A + 16 * r) s' /\
    free_block_at 4096 (bitmap_of (mem Machine.one_page) Machine.page_A) 2 r /\
    0 <= k' <= max_data_units 4096 /\
    find_longest_free_block 4096 (bitmap_of (mem s') Machine.page_A) = Some k' /\
    superblock_ok 4096 s'
      (set_bucket (set_bucket (set_bucket (fun _ => []) 249 [Machine.page_A]) 249 []) k'
         (set_bucket (set_bucket (fun _ => []) 249 [Machine.page_A]) 249 [] k'
          ++ [Machine.page_A])) /\
    (forall i, 0 <= i < units_per_page 4096 ->
       bm_bit (bitmap_of (mem s') Machine.page_A) i =
       if (r <=? i) && (i <? r + 2) then true
       else bm_bit (bitmap_of (mem Machine.one_page) Machine.page_A) i) /\
    blocks_allocated s' = u64 (blocks_allocated Machine.one_page + 1) /\
    (true = true ->
     forall x, Machine.page_A + 16 * r <= x < Machine.page_A + 16 * (r + 2) ->
               mem s' x = 0).
Proof.
  assert (H1 : 1 <= 2 <= 249) by lia.
  assert (H2 : 249 <= max_data_units 4096) by (vm_compute; congruence).
  split; [exact page_size_ok_4096|]. split; [exact one_page_superblock_ok|].
  split; [exact H1|]. split; [exact H2|]. split; [exact one_page_low_buckets|].
  split; [exact one_page_bucket_first|]. split; [exact no_other_page|].
  exact (bm_allocate_from_bucket 4096 Machine.os_mmap Machine.one_page _ 2 249
           Machine.page_A [] true page_size_ok_4096 one_page_superblock_ok H1 H2
           one_page_low_buckets one_page_bucket_first no_other_page).
Defined.
